(** * SPC analysis screen: the statistical pipeline of [app/(tabs)/index.tsx]

    The screen fetches inspection records, keeps those of the selected
    shifts, and from the parsed measurements computes subgroups, X-bar and
    range control limits, capability indices and a histogram.  This file
    embeds that computation ([calculateSubgroups],
    [calculateDistributionData] and the body of [handleAnalyze] after the
    fetch), what the [ControlCharts] component computes from its result
    (the chart width and the y-domains) and the computed parts of the
    report [generateHTML] writes, and states their properties.

    JavaScript numbers are IEEE 754 binary64 values: they are modelled by
    Rocq's primitive [float], whose operations are the same binary64
    operations.  Integers that the code only uses as counters, lengths or
    indices (the sample size, loop indices, bin counts) are modelled in [Z]
    and injected into [float] where the code does arithmetic with them. *)

From Stdlib Require Import String.
From Stdlib Require Import ZArith List Bool Lia Permutation.
From Stdlib Require Uint63.
From Stdlib Require Import Floats.
Import ListNotations.

Set Warnings "-inexact-float".
Local Open Scope Z_scope.

(** ** JavaScript numbers and the built-ins the code calls *)

Module JS.

(** An integer as a number; exact for [|z| <= 2^53]. *)
Definition Z2float (z : Z) : float :=
  if z <? 0 then (- of_uint63 (Uint63.of_Z (- z)))%float
  else of_uint63 (Uint63.of_Z z).

(** A number as an integer, when it is one ([-0] counts as [0]). *)
Definition float2Z (x : float) : option Z :=
  match Prim2SF x with
  | S754_zero _ => Some 0
  | S754_finite s m e =>
      if 0 <=? e then Some (cond_Zopp s (Zpos m * 2 ^ e))
      else if (Zpos m) mod 2 ^ (- e) =? 0
           then Some (cond_Zopp s (Zpos m / 2 ^ (- e)))
           else None
  | _ => None
  end.

(** [Math.floor]: NaN, the infinities and the zeros are returned as they
    are, and so is a number without fractional bits; otherwise the mantissa
    is shifted, which rounds towards minus infinity. *)
Definition Math_floor (x : float) : float :=
  match Prim2SF x with
  | S754_finite s m e =>
      if 0 <=? e then x
      else Z2float (Z.shiftr (cond_Zopp s (Zpos m)) (- e))
  | _ => x
  end.

(** [Math.ceil]: as [Math.floor] towards plus infinity; a number in
    [(-1, 0)] gives [-0]. *)
Definition Math_ceil (x : float) : float :=
  match Prim2SF x with
  | S754_finite s m e =>
      if 0 <=? e then x
      else
        let z := - Z.shiftr (- cond_Zopp s (Zpos m)) (- e) in
        if z =? 0 then neg_zero else Z2float z
  | _ => x
  end.

Definition Math_sqrt (x : float) : float := PrimFloat.sqrt x.

Definition is_pos_zero (x : float) : bool := is_zero x && negb (get_sign x).
Definition is_neg_zero (x : float) : bool := is_zero x && get_sign x.

(** [Math.max(...args)]: starts from [-Infinity]; a NaN argument gives NaN;
    [+0] is larger than [-0]. *)
Fixpoint Math_max_from (highest : float) (args : list float) : float :=
  match args with
  | [] => highest
  | number :: rest =>
      if is_nan number then nan
      else if is_pos_zero number && is_neg_zero highest
           then Math_max_from number rest
           else if (highest <? number)%float
                then Math_max_from number rest
                else Math_max_from highest rest
  end.

Definition Math_max (args : list float) : float :=
  Math_max_from neg_infinity args.

(** [Math.min(...args)]: starts from [+Infinity]; a NaN argument gives NaN;
    [-0] is smaller than [+0]. *)
Fixpoint Math_min_from (lowest : float) (args : list float) : float :=
  match args with
  | [] => lowest
  | number :: rest =>
      if is_nan number then nan
      else if is_neg_zero number && is_pos_zero lowest
           then Math_min_from number rest
           else if (number <? lowest)%float
                then Math_min_from number rest
                else Math_min_from lowest rest
  end.

Definition Math_min (args : list float) : float :=
  Math_min_from infinity args.

(** [Array.prototype.slice(start, end)] with integer arguments: a negative
    index counts from the end, and both are clamped to the array. *)
Definition slice {A : Type} (l : list A) (start stop : Z) : list A :=
  let len := Z.of_nat (length l) in
  let k := if start <? 0 then Z.max (len + start) 0 else Z.min start len in
  let final := if stop <? 0 then Z.max (len + stop) 0 else Z.min stop len in
  firstn (Z.to_nat (final - k)) (skipn (Z.to_nat k) l).

(** The number nearest to [n / d] for positive integers (ties to even), as
    reading a decimal literal gives it. *)
Definition nearest_ratio (n d : positive) : float :=
  SF2Prim (SFdiv prec emax (S754_finite false n 0) (S754_finite false d 0)).

(** [Number(x.toFixed(4))].  [toFixed] writes NaN, the infinities and a
    number of magnitude [10^21] or more as [String(x)] does, which
    [Number] reads back as [x].  Otherwise it writes the sign, when
    [x < 0], and the digits of the integer [n] nearest to [|x| * 10^4]
    (the larger one on a tie) with four of them after the point; [Number]
    reads that literal as the number nearest to [n / 10^4]. *)
Definition toFixed4 (x : float) : float :=
  match Prim2SF x with
  | S754_zero _ => zero
  | S754_finite s m e =>
      if (1e21 <=? abs x)%float then x
      else
        let n :=
          if 0 <=? e then Zpos m * 2 ^ e * 10000
          else (2 * (Zpos m * 10000) + 2 ^ (- e)) / (2 * 2 ^ (- e)) in
        let r := match n with
                 | Zpos p => nearest_ratio p 10000
                 | _ => zero
                 end in
        if s then (- r)%float else r
  | _ => x
  end.

End JS.

(** ** The analysis code *)

Module SPC.
Import JS.

(** Completion of a piece of code that can throw. *)
Inductive exn := TypeError | RangeError.

Inductive completion (A : Type) :=
| Normal (a : A)
| Throw (e : exn).
Arguments Normal {A} a.
Arguments Throw {A} e.

Definition bind {A B : Type} (c : completion A) (k : A -> completion B)
  : completion B :=
  match c with
  | Normal a => k a
  | Throw e => Throw e
  end.

Notation "'let*' a ':=' c 'in' k" := (bind c (fun a => k))
  (at level 10, a name, c at level 100, k at level 200).

(** *** Data *)

(** An inspection record; the three specification strings are held as the
    numbers [parseFloat] reads from them. *)
Record InspectionData := {
  ActualSpecification : float;
  FromSpecification : float;
  ToSpecification : float;
  ShiftCode : Z
}.

Record Subgroup := { mean : float; range : float }.

Module Point.
Record t := make { x : float; y : float }.
End Point.

(** A bin count: what [++] leaves in an array element, a count, or NaN when
    the element was [undefined] before. *)
Inductive count := Count (n : Z) | CountNaN.

Module Bin.
Record t := make { x : float; y : count }.
End Bin.

Record Constants := { A2 : float; D3 : float; D4 : float }.

Record Limits := {
  xBarUcl : float; xBarLcl : float; xBarMean : float;
  rangeUcl : float; rangeLcl : float; rangeMean : float
}.

Record Metrics := {
  xBar : float; stdDevOverall : float; stdDevWithin : float;
  movingRange : float;
  cp : float; cpkUpper : float; cpkLower : float; cpk : float;
  pp : float; ppu : float; ppl : float; ppk : float;
  lsl : float; usl : float
}.

Record ControlChartsData := {
  xBarData : list Point.t;
  rangeData : list Point.t;
  limits : Limits
}.

Record Stats := { stats_mean : float; stats_stdDev : float; target : float }.

(** An array element is [Some] value or a hole ([None]). *)
Record Distribution := {
  data : list (option Bin.t);
  stats : Stats;
  distribution_numberOfBins : float
}.

Record Analysis := {
  metrics : Metrics;
  controlCharts : ControlChartsData;
  distribution : Distribution
}.

(** *** [calculateSubgroups] *)

(** [subgroup.reduce((a, b) => a + b, 0)] *)
Definition sum (l : list float) : float :=
  fold_left (fun a b => (a + b)%float) l 0%float.

(** The [for] loop over [i]; [fuel] bounds the number of iterations, and
    [None] says that it ran out before [i < data.length] failed.  The list
    [subgroups] has no bound on its length, where [subgroups.push] fails
    once an array holds [2^32 - 1] elements: that many subgroups are only
    reached with a [size] of 0, when every pass pushes one and [i] stays
    where it is, so for a [size] of 0 the loop of the code is stopped by
    that failure (or by the memory running out before) and not by [fuel]. *)
Fixpoint calculateSubgroups_loop (fuel : nat) (data : list float) (size : Z)
    (i : Z) (subgroups : list Subgroup) : option (list Subgroup) :=
  if i <? Z.of_nat (length data) then
    match fuel with
    | O => None
    | S fuel' =>
        let subgroup := slice data i (i + size) in
        let subgroups' :=
          if Z.of_nat (length subgroup) =? size then
            subgroups ++
              [ {| mean := (sum subgroup / Z2float size)%float;
                   range := (Math_max subgroup - Math_min subgroup)%float |} ]
          else subgroups in
        calculateSubgroups_loop fuel' data size (i + size) subgroups'
    end
  else Some subgroups.

Definition calculateSubgroups (fuel : nat) (data : list float) (size : Z)
  : option (list Subgroup) :=
  calculateSubgroups_loop fuel data size 0 [].

(** *** [calculateDistributionData] *)

(** [new Array(numberOfBins).fill(0)]: a length that is not an integer in
    [0, 2^32) is a [RangeError]. *)
Definition new_Array_fill0 (len : float) : completion (list (option count)) :=
  match float2Z len with
  | Some n =>
      if (0 <=? n) && (n <? 2 ^ 32)
      then Normal (repeat (Some (Count 0)) (Z.to_nat n))
      else Throw RangeError
  | None => Throw RangeError
  end.

Definition incr (c : option count) : option count :=
  match c with
  | Some (Count n) => Some (Count (n + 1))
  | Some CountNaN | None => Some CountNaN
  end.

Fixpoint update_nth {A : Type} (n : nat) (f : A -> A) (l : list A) : list A :=
  match l, n with
  | [], _ => []
  | a :: l', O => f a :: l'
  | a :: l', S n' => a :: update_nth n' f l'
  end.

(** [binCounts[binIndex]++].  A key that is an index inside the array
    increments that element; an index past the end extends the array with
    holes and stores NaN; any other key (NaN, a fraction, a negative
    number) names an ordinary property and leaves the elements alone. *)
Definition increment_at (binIndex : float) (binCounts : list (option count))
  : list (option count) :=
  match float2Z binIndex with
  | Some i =>
      let len := Z.of_nat (length binCounts) in
      if (0 <=? i) && (i <? len) then update_nth (Z.to_nat i) incr binCounts
      else if (len <=? i) && (i <? 2 ^ 32 - 1)
           then binCounts ++ repeat None (Z.to_nat (i - len)) ++ [Some CountNaN]
           else binCounts
  | None => binCounts
  end.

(** [array.map((v, i) => f(v, i))]; holes stay holes. *)
Fixpoint mapi_from {A B : Type} (i : Z) (f : A -> Z -> B) (l : list (option A))
  : list (option B) :=
  match l with
  | [] => []
  | a :: l' => option_map (fun v => f v i) a :: mapi_from (i + 1) f l'
  end.

Record DistributionData := {
  distributionData_data : list (option Bin.t);
  numberOfBins : float
}.

Definition calculateDistributionData (specifications : list float)
  : completion DistributionData :=
  let numberOfBins :=
    Math_ceil (Math_sqrt (Z2float (Z.of_nat (length specifications)))) in
  let min := Math_min specifications in
  let max := Math_max specifications in
  let binWidth := ((max - min) / numberOfBins)%float in
  let* binCounts := new_Array_fill0 numberOfBins in
  let binCounts :=
    fold_left
      (fun binCounts spec =>
         let binIndex :=
           Math_min [ Math_floor ((spec - min) / binWidth)%float;
                      (numberOfBins - 1)%float ] in
         increment_at binIndex binCounts)
      specifications binCounts in
  Normal {|
    distributionData_data :=
      mapi_from 0
        (fun count i =>
           Bin.make (min + (Z2float i * binWidth) + (binWidth / 2))%float count)
        binCounts;
    numberOfBins := numberOfBins |}.

(** *** [handleAnalyze], from the fetched records on *)

(** The table [constants]; a key outside it reads [undefined]. *)
Definition constants (sampleSize : Z) : option Constants :=
  match sampleSize with
  | 1 => Some {| A2 := 1.880; D3 := 0; D4 := 3.267 |}
  | 2 => Some {| A2 := 1.023; D3 := 0; D4 := 3.267 |}
  | 3 => Some {| A2 := 0.729; D3 := 0; D4 := 2.575 |}
  | 4 => Some {| A2 := 0.577; D3 := 0; D4 := 2.282 |}
  | 5 => Some {| A2 := 0.483; D3 := 0; D4 := 2.115 |}
  | _ => None
  end.

(** [subgroups.map((sg, i) => ({ x: i + 1, y: f(sg) }))] *)
Fixpoint chartData_from (i : Z) (f : Subgroup -> float) (l : list Subgroup)
  : list Point.t :=
  match l with
  | [] => []
  | sg :: l' => Point.make (Z2float (i + 1)) (f sg) :: chartData_from (i + 1) f l'
  end.

(** [subgroups.reduce((a, b) => a + f(b), 0) / subgroups.length] *)
Definition average (f : Subgroup -> float) (subgroups : list Subgroup) : float :=
  (fold_left (fun a b => a + f b) subgroups 0
   / Z2float (Z.of_nat (length subgroups)))%float.

(** The control limits: the constants applied to the two averages, and the
    [limits] object built from them (lines 217-223 and 256-263). *)
Definition controlLimits (c : Constants) (subgroups : list Subgroup) : Limits :=
  let mean := average mean subgroups in
  let rangeMean := average range subgroups in
  let xBarUcl := (mean + (A2 c * rangeMean))%float in
  let xBarLcl := (mean - (A2 c * rangeMean))%float in
  let rangeUcl := (D4 c * rangeMean)%float in
  let rangeLcl := (D3 c * rangeMean)%float in
  {| xBarUcl := toFixed4 xBarUcl;
     xBarLcl := toFixed4 xBarLcl;
     xBarMean := toFixed4 mean;
     rangeUcl := toFixed4 rangeUcl;
     rangeLcl := toFixed4 rangeLcl;
     rangeMean := toFixed4 rangeMean |}.

(** The estimated standard deviation (line 228). *)
Definition stdDev_of (sampleSize : Z) (rangeMean : float) : float :=
  (rangeMean
   / (if (sampleSize =? 1)%Z then 1.128 else Math_sqrt (Z2float sampleSize)))%float.

(** The capability indices and the [metrics] object built from them
    (lines 228-232 and 237-252). *)
Definition capabilityMetrics (sampleSize : Z) (mean rangeMean usl lsl : float)
  : Metrics :=
  let stdDev := stdDev_of sampleSize rangeMean in
  let cp := ((usl - lsl) / (6 * stdDev))%float in
  let cpu := ((usl - mean) / (3 * stdDev))%float in
  let cpl := ((mean - lsl) / (3 * stdDev))%float in
  let cpk := Math_min [cpu; cpl] in
  {| xBar := toFixed4 mean;
     stdDevOverall := toFixed4 stdDev;
     stdDevWithin := toFixed4 stdDev;
     movingRange := toFixed4 rangeMean;
     cp := toFixed4 cp;
     cpkUpper := toFixed4 cpu;
     cpkLower := toFixed4 cpl;
     cpk := toFixed4 cpk;
     pp := toFixed4 cp;
     ppu := toFixed4 cpu;
     ppl := toFixed4 cpl;
     ppk := toFixed4 cpk;
     lsl := toFixed4 lsl;
     usl := toFixed4 usl |}.

(** Reading a property of [filteredData[0]]: a [TypeError] when the array
    is empty. *)
Definition first_record (filteredData : list InspectionData)
  : completion InspectionData :=
  match filteredData with
  | d :: _ => Normal d
  | [] => Throw TypeError
  end.

(** The body of the [try] block from line 200 on.  [None]: the subgroup
    loop did not finish within [fuel] iterations. *)
Definition analyze (fuel : nat) (sampleSize : Z)
    (filteredData : list InspectionData) : option (completion Analysis) :=
  let specifications := map ActualSpecification filteredData in
  match calculateSubgroups fuel specifications sampleSize with
  | None => None
  | Some subgroups =>
      Some (
        let xBarData := chartData_from 0 mean subgroups in
        let rangeData := chartData_from 0 range subgroups in
        let* c :=
          match constants sampleSize with
          | Some c => Normal c
          | None => Throw TypeError
          end in
        let mean := average mean subgroups in
        let rangeMean := average range subgroups in
        let* d0 := first_record filteredData in
        let usl := ToSpecification d0 in
        let lsl := FromSpecification d0 in
        let stdDev := stdDev_of sampleSize rangeMean in
        let* distributionData := calculateDistributionData specifications in
        Normal {|
          metrics := capabilityMetrics sampleSize mean rangeMean usl lsl;
          controlCharts := {|
            xBarData := xBarData;
            rangeData := rangeData;
            limits := controlLimits c subgroups |};
          distribution := {|
            data := distributionData_data distributionData;
            stats := {|
              stats_mean := toFixed4 mean;
              stats_stdDev := toFixed4 stdDev;
              target := toFixed4 ((usl + lsl) / 2)%float |};
            distribution_numberOfBins := numberOfBins distributionData |} |})
  end.

(** What the handler leaves in the component's state. *)
Inductive outcome :=
| SetAnalysisData (analysis : Analysis)
| SetError (message : string)
| OutOfFuel.

(** [inspectionData.filter(data => selectedShifts.includes(data.ShiftCode))] *)
Definition filteredData (selectedShifts : list Z)
    (inspectionData : list InspectionData) : list InspectionData :=
  filter (fun data => existsb (Z.eqb (ShiftCode data)) selectedShifts)
    inspectionData.

(** The [try] statement of [handleAnalyze] once [fetchInspectionData] has
    answered with [inspectionData]: the records of the selected shifts are
    analysed, and whatever the body throws is caught and reported as one
    message. *)
Definition handleAnalyze_try (fuel : nat) (selectedShifts : list Z)
    (sampleSize : Z) (inspectionData : list InspectionData) : outcome :=
  match analyze fuel sampleSize (filteredData selectedShifts inspectionData) with
  | None => OutOfFuel
  | Some (Normal analysis) => SetAnalysisData analysis
  | Some (Throw _) => SetError "Error analyzing data"
  end.

(** [handleAnalyze]: nothing is fetched or analysed before a shift, a
    material, an operation and a gauge are selected. *)
Definition handleAnalyze (fuel : nat) (selectedShifts : list Z)
    (material operation gauge : string) (sampleSize : Z)
    (inspectionData : list InspectionData) : outcome :=
  if (length selectedShifts =? 0)%nat || (material =? EmptyString)%string
     || (operation =? EmptyString)%string || (gauge =? EmptyString)%string
  then SetError "Please select all required fields"
  else handleAnalyze_try fuel selectedShifts sampleSize inspectionData.

(** *** The [ControlCharts] component *)

Module ControlCharts.

Record Constants := { A2 : float; D3 : float; D4 : float; d2 : float }.

(** The component's own table [constants]. *)
Definition constants (sampleSize : Z) : option Constants :=
  match sampleSize with
  | 1 => Some {| A2 := 1.880; D3 := 0; D4 := 3.267; d2 := 1.128 |}
  | 2 => Some {| A2 := 1.023; D3 := 0; D4 := 3.267; d2 := 1.128 |}
  | 3 => Some {| A2 := 0.729; D3 := 0; D4 := 2.575; d2 := 1.693 |}
  | 4 => Some {| A2 := 0.577; D3 := 0; D4 := 2.282; d2 := 2.059 |}
  | 5 => Some {| A2 := 0.483; D3 := 0; D4 := 2.115; d2 := 2.326 |}
  | _ => None
  end.

(** [constants[sampleSize] || constants[1]]: the constants the charts are
    labelled with. *)
Definition current (sampleSize : Z) : Constants :=
  match constants sampleSize with
  | Some c => c
  | None => {| A2 := 1.880; D3 := 0; D4 := 3.267; d2 := 1.128 |}
  end.

(** [Math.max(400, xBarData.length * 60)]: the width of both charts
    (line 30). *)
Definition chartWidth (xBarData : list Point.t) : float :=
  Math_max [400; Z2float (Z.of_nat (length xBarData)) * 60]%float.

(** The object [yPadding]: what is added below and above each chart so
    that the control limits are visible (lines 36-39). *)
Module YPadding.
Record t := make { xBar : float; range : float }.
End YPadding.

Definition yPadding (limits : Limits) : YPadding.t :=
  {| YPadding.xBar := (abs (xBarUcl limits - xBarLcl limits) * 0.15)%float;
     YPadding.range := (abs (rangeUcl limits - rangeLcl limits) * 0.15)%float |}.

(** The [domain] of the y axis of the X-bar chart, lower and upper end:
    [Math.min(limits.xBarLcl, Math.min(...xBarData.map(d => d.y))) -
    yPadding.xBar] and the same with [Math.max], [xBarUcl] and [+]
    (lines 72-77). *)
Definition xBarDomain (xBarData : list Point.t) (limits : Limits)
  : float * float :=
  ((Math_min [xBarLcl limits; Math_min (map Point.y xBarData)]
    - YPadding.xBar (yPadding limits))%float,
   (Math_max [xBarUcl limits; Math_max (map Point.y xBarData)]
    + YPadding.xBar (yPadding limits))%float).

(** The [domain] of the y axis of the range chart (lines 165-170). *)
Definition rangeDomain (rangeData : list Point.t) (limits : Limits)
  : float * float :=
  ((Math_min [rangeLcl limits; Math_min (map Point.y rangeData)]
    - YPadding.range (yPadding limits))%float,
   (Math_max [rangeUcl limits; Math_max (map Point.y rangeData)]
    + YPadding.range (yPadding limits))%float).

End ControlCharts.

(** *** The report of [generateHTML] *)

(** The parts of the report that are computed: the names written for the
    selected material, operation and gauge (lines 407-415), and the four
    sentences of the section "Process Interpretation" (lines 491-494). *)
Module Report.

Record MaterialData := { MaterialCode : string; MaterialName : string }.
Record OperationData := { OperationCode : string; OperationName : string }.
Record GuageData := { GuageCode : string; GuageName : string }.

(** [list.find(x => code(x) === selected)?.name || selected]: the name of
    the first entry with the selected code, and the code itself when there
    is no such entry or its name is the empty string. *)
Definition nameOrCode {A : Type} (code name : A -> string) (list : list A)
    (selected : string) : string :=
  match find (fun x => (code x =? selected)%string) list with
  | Some x => if (name x =? EmptyString)%string then selected else name x
  | None => selected
  end.

Definition materialLabel := nameOrCode MaterialCode MaterialName.
Definition operationLabel := nameOrCode OperationCode OperationName.
Definition gaugeLabel := nameOrCode GuageCode GuageName.

(** One sentence for each of [cp], [cpk], [pp] and [ppk], chosen by
    [metric >= 1.33]. *)
Record Interpretation := {
  shortTermCapability : string;
  shortTermCentered : string;
  longTermPerformance : string;
  longTermCentered : string
}.

Definition interpretation (metrics : Metrics) : Interpretation :=
  {| shortTermCapability :=
       if (1.33 <=? cp metrics)%float then "Process is capable"
       else "Process needs improvement";
     shortTermCentered :=
       if (1.33 <=? cpk metrics)%float then "Process is centered"
       else "Process centering needs improvement";
     longTermPerformance :=
       if (1.33 <=? pp metrics)%float then "Process is performing well"
       else "Long-term performance needs improvement";
     longTermCentered :=
       if (1.33 <=? ppk metrics)%float then "Process is stable"
       else "Long-term stability needs improvement" |}.

End Report.

End SPC.

(** * Vocabulary of the properties *)

Import JS SPC.

(** ** Subgroups *)

(** The [k]-th window of [n] consecutive measurements. *)
Definition window (data : list float) (n k : nat) : list float :=
  firstn n (skipn (k * n) data).

(** The statistics the loop pushes for a window. *)
Definition statistics (size : Z) (w : list float) : Subgroup :=
  {| mean := (sum w / Z2float size)%float;
     range := (Math_max w - Math_min w)%float |}.

(** The left-to-right sum [subgroups.reduce((a, b) => a + f(b), 0)] that
    the averages of the control limits divide. *)
Definition running_sum (f : Subgroup -> float) (subgroups : list Subgroup)
  : float :=
  fold_left (fun a b => (a + f b)%float) subgroups 0%float.

(** ** Values of binary64 numbers *)

(** The value of a number scaled by [2^1074], an integer for every binary64
    number; the infinities are put beyond the finite range. *)
Definition ord (x : spec_float) : Z :=
  match x with
  | S754_zero _ => 0
  | S754_finite s m e => cond_Zopp s (Zpos m * 2 ^ (e + 1074))
  | S754_infinity s => cond_Zopp s (2 ^ 2100)
  | S754_nan => 0
  end.

(** Zero, a positive finite number or plus infinity. *)
Definition nonneg (x : spec_float) : Prop :=
  match x with
  | S754_zero _ | S754_finite false _ _ | S754_infinity false => True
  | _ => False
  end.

(** A zero or a finite number of either sign. *)
Definition finite_or_zero (x : spec_float) : Prop :=
  match x with
  | S754_zero _ | S754_finite _ _ _ => True
  | _ => False
  end.

(** What a division by zero gives. *)
Definition Infinity_or_NaN (x : float) : Prop :=
  x = infinity \/ x = neg_infinity \/ x = nan.

(** ** Sums without rounding *)

(** [x + y] is finite and has the value of the exact sum. *)
Definition exact_add (x y : float) : bool :=
  is_finite (x + y)%float
  && (ord (Prim2SF (x + y)%float) =? ord (Prim2SF x) + ord (Prim2SF y)).

(** No addition of the running sum rounds. *)
Fixpoint exact_from (f : Subgroup -> float) (acc : float)
    (subgroups : list Subgroup) : bool :=
  match subgroups with
  | [] => true
  | b :: rest => exact_add acc (f b) && exact_from f (acc + f b)%float rest
  end.

Definition exact_running_sum (f : Subgroup -> float)
    (subgroups : list Subgroup) : bool :=
  exact_from f 0%float subgroups.

(** The exact sum of the values, scaled like [ord]. *)
Definition ord_sum (f : Subgroup -> float) (subgroups : list Subgroup) : Z :=
  fold_right (fun b acc => ord (Prim2SF (f b)) + acc) 0 subgroups.

(** [+0] or a finite number that is not zero. *)
Definition plain (x : spec_float) : Prop :=
  match x with
  | S754_zero false | S754_finite _ _ _ => True
  | _ => False
  end.

(** ** The specification's words and test inputs *)

(** [d2] as the specification words it. *)
Definition d2 (size : Z) : float :=
  if size =? 1 then 1.128%float else PrimFloat.sqrt (Z2float size).

(** [sum(window)] as the specification words it: the sum of the first
    [n + 1] measurements of the window is the sum of the first [n] plus the
    next one, the sum of none being 0; every addition is a binary64
    addition. *)
Fixpoint partial_sum (window : list float) (n : nat) : float :=
  match n with
  | O => 0%float
  | S n' => (partial_sum window n' + nth n' window nan)%float
  end.

Definition window_sum (window : list float) : float :=
  partial_sum window (length window).

(** Records of one shift with the same specification limits. *)
Definition inspections (shift : Z) (lsl usl : float) (measurements : list float)
  : list InspectionData :=
  map (fun v => {| ActualSpecification := v; FromSpecification := lsl;
                   ToSpecification := usl; ShiftCode := shift |})
      measurements.

(** Four subgroup means whose sum rounds differently in another order. *)
Definition subgroups_in_order : list Subgroup :=
  [ {| mean := 0.551; range := 0.2 |}; {| mean := 2.332; range := 0.2 |};
    {| mean := 0.259; range := 0.2 |}; {| mean := 1.045; range := 0.2 |} ].

(** The same subgroups with the last two exchanged. *)
Definition subgroups_reordered : list Subgroup :=
  [ {| mean := 0.551; range := 0.2 |}; {| mean := 2.332; range := 0.2 |};
    {| mean := 1.045; range := 0.2 |}; {| mean := 0.259; range := 0.2 |} ].

(** ** Bin counts *)

(** The counts of a histogram added up: a hole or a NaN count adds nothing. *)
Definition total_count (data : list (option Bin.t)) : Z :=
  fold_right
    (fun b acc => match b with
                  | Some {| Bin.y := Count n |} => n + acc
                  | _ => acc
                  end)
    0 data.

(** The counts in the array [binCounts] added up. *)
Definition cells_total (binCounts : list (option count)) : Z :=
  fold_right
    (fun c acc => match c with
                  | Some (Count n) => n + acc
                  | _ => acc
                  end)
    0 binCounts.

(** Every element of [binCounts] is a count. *)
Definition all_counts (binCounts : list (option count)) : Prop :=
  Forall (fun c => exists n, c = Some (Count n)) binCounts.

(** * Properties *)

(** ** Subgrouping *)


Section Subgroups.

Variable data : list float.
Variable n : nat.
Hypothesis n_pos : n <> O.

Local Abbreviation size := (Z.of_nat n).

Lemma slice_window (k : nat) :
  (k * n <= length data)%nat ->
  slice data (Z.of_nat (k * n)) (Z.of_nat (k * n) + size) = window data n k.
Proof.
  intros Hk. unfold slice, window.
  destruct (Z.ltb_spec (Z.of_nat (k * n)) 0) as [H|_]; [lia|].
  destruct (Z.ltb_spec (Z.of_nat (k * n) + size) 0) as [H|_]; [lia|].
  rewrite (Z.min_l (Z.of_nat (k * n)) (Z.of_nat (length data))) by lia.
  rewrite Nat2Z.id.
  destruct (Z.min_spec (Z.of_nat (k * n) + size) (Z.of_nat (length data)))
    as [[H ->]|[H ->]].
  - f_equal. lia.
  - rewrite !firstn_all2; [reflexivity| |]; rewrite length_skipn; lia.
Qed.

Lemma length_window (k : nat) :
  length (window data n k) = Nat.min n (length data - k * n).
Proof. unfold window. now rewrite length_firstn, length_skipn. Qed.

Lemma loop_exit fuel i acc :
  Z.of_nat (length data) <= i ->
  calculateSubgroups_loop fuel data size i acc = Some acc.
Proof.
  intros H. destruct fuel; simpl;
    destruct (Z.ltb_spec i (Z.of_nat (length data))); (lia || reflexivity).
Qed.

Lemma full_window_iff (k : nat) :
  (k < length data / n)%nat <-> (S k * n <= length data)%nat.
Proof.
  split; intros H.
  - assert (S k <= length data / n)%nat by lia.
    pose proof (Nat.Div0.mul_div_le (length data) n).
    nia.
  - apply (Nat.div_le_lower_bound (length data) n (S k)); [assumption|lia].
Qed.

Lemma loop_windows fuel : forall (k : nat) acc,
  (k <= length data / n)%nat ->
  (length data <= fuel + k * n)%nat ->
  calculateSubgroups_loop fuel data size (Z.of_nat (k * n)) acc
  = Some (acc ++ map (fun j => statistics size (window data n j))
                     (seq k (length data / n - k))).
Proof.
  induction fuel as [|fuel IH]; intros k acc Hk Hfuel.
  - rewrite loop_exit by lia.
    assert (length data / n <= k)%nat.
    { destruct (Nat.eq_dec (length data / n) k) as [|Hne]; [lia|].
      assert (Hlt : (k < length data / n)%nat) by lia.
      apply full_window_iff in Hlt. simpl in Hlt. lia. }
    replace (length data / n - k)%nat with O by lia.
    simpl. now rewrite app_nil_r.
  - pose proof (Nat.Div0.mul_div_le (length data) n) as Hq.
    assert (Hkn : (k * n <= length data)%nat) by nia.
    cbn [calculateSubgroups_loop].
    destruct (Z.ltb_spec (Z.of_nat (k * n)) (Z.of_nat (length data))) as [Hlt|Hge].
    + rewrite slice_window by assumption.
      rewrite length_window.
      replace (Z.of_nat (k * n) + size) with (Z.of_nat (S k * n)) by lia.
      destruct (Nat.eq_dec (length data / n) k) as [Heq|Hne].
      * (* the partial window at the end *)
        assert (~ (S k * n <= length data)%nat) as Hpart.
        { intros Hc. apply full_window_iff in Hc. lia. }
        destruct (Z.eqb_spec (Z.of_nat (Nat.min n (length data - k * n))) size)
          as [He|_]; [lia|].
        rewrite loop_exit by lia.
        replace (length data / n - k)%nat with O by lia.
        simpl. now rewrite app_nil_r.
      * assert (Hlt' : (k < length data / n)%nat) by lia.
        pose proof (proj1 (full_window_iff k) Hlt') as Hfull.
        destruct (Z.eqb_spec (Z.of_nat (Nat.min n (length data - k * n))) size)
          as [_|He]; [|lia].
        rewrite IH by lia.
        replace (length data / n - k)%nat with (S (length data / n - S k)) by lia.
        cbn [seq map]. rewrite <- app_assoc. reflexivity.
    + assert (length data / n = k)%nat as ->.
      { assert (length data = k * n)%nat as -> by lia.
        now apply Nat.div_mul. }
      rewrite Nat.sub_diag. simpl. now rewrite app_nil_r.
Qed.

End Subgroups.

(** With enough fuel the loop returns the statistics of the complete
    windows, in order. *)
Lemma calculateSubgroups_windows (data : list float) (size : Z) (fuel : nat) :
  1 <= size -> (length data <= fuel)%nat ->
  calculateSubgroups fuel data size
  = Some (map (fun k => statistics size (window data (Z.to_nat size) k))
              (seq 0 (length data / Z.to_nat size))).
Proof.
  intros Hsize Hfuel. unfold calculateSubgroups.
  pose proof (loop_windows data (Z.to_nat size) ltac:(lia) fuel 0 []) as H.
  rewrite Z2Nat.id in H by lia. cbn [Nat.mul Z.of_nat] in H.
  rewrite H by lia. rewrite Nat.sub_0_r. reflexivity.
Qed.

(** With a negative size the loop index only moves backwards from 0 and
    never passes the end of a non-empty array: no amount of fuel is
    enough. *)
Lemma calculateSubgroups_loop_diverges (data : list float) (size : Z) :
  size < 0 -> data <> [] ->
  forall fuel i acc, i <= 0 ->
    calculateSubgroups_loop fuel data size i acc = None.
Proof.
  intros Hsize Hdata.
  assert (0 < Z.of_nat (length data)) by (destruct data; [congruence|simpl; lia]).
  induction fuel as [|fuel IH]; intros i acc Hi; cbn [calculateSubgroups_loop];
    destruct (Z.ltb_spec i (Z.of_nat (length data))); try lia.
  - reflexivity.
  - apply IH. lia.
Qed.

Lemma partial_sum_app (window : list float) (v : float) (n : nat) :
  (n <= length window)%nat ->
  partial_sum (window ++ [v]) n = partial_sum window n.
Proof.
  induction n as [|n IH]; intros Hn; [reflexivity|].
  cbn [partial_sum]. rewrite IH by lia.
  rewrite app_nth1 by lia. reflexivity.
Qed.

(** The [reduce] of the code computes the sum of the window. *)
Lemma sum_window_sum (window : list float) : sum window = window_sum window.
Proof.
  induction window as [|v window IH] using rev_ind; [reflexivity|].
  unfold sum, window_sum in *. rewrite fold_left_app. cbn [fold_left].
  rewrite IH, length_app, Nat.add_1_r. cbn [partial_sum].
  rewrite partial_sum_app by lia.
  rewrite nth_middle. reflexivity.
Qed.

(** C1: for every measurement sequence and every integer size >= 1,
    [calculateSubgroups] returns exactly [floor(count / size)] subgroups;
    the [k]-th one is computed from the [k]-th window of exactly [size]
    consecutive measurements starting at index [k * size] (so a shorter
    window at the end is dropped); its mean is the window's sum divided by
    [size] and its range is the window's maximum minus its minimum. *)
Theorem calculateSubgroups_complete_windows
    (data : list float) (size : Z) (fuel : nat) :
  1 <= size -> (length data <= fuel)%nat ->
  exists subgroups,
    calculateSubgroups fuel data size = Some subgroups /\
    length subgroups = (length data / Z.to_nat size)%nat /\
    forall k, (k < length data / Z.to_nat size)%nat ->
      let w := firstn (Z.to_nat size) (skipn (k * Z.to_nat size) data) in
      length w = Z.to_nat size /\
      exists sg, nth_error subgroups k = Some sg /\
        mean sg = (window_sum w / Z2float size)%float /\
        range sg = (Math_max w - Math_min w)%float.
Proof.
  intros Hsize Hfuel. eexists. split.
  - apply calculateSubgroups_windows; assumption.
  - split.
    + now rewrite length_map, length_seq.
    + intros k Hk w. split.
      * subst w. fold (window data (Z.to_nat size) k).
        rewrite length_window.
        apply full_window_iff in Hk; lia.
      * rewrite nth_error_map, nth_error_seq.
        destruct (Nat.ltb_spec k (length data / Z.to_nat size)); [|lia].
        eexists. split; [reflexivity|].
        cbn [mean range statistics]. fold w.
        rewrite sum_window_sum. split; reflexivity.
Qed.

(** Five measurements in subgroups of two: the means are 3 / 2 and 7 / 2,
    and the fifth measurement is dropped. *)
Lemma calculateSubgroups_complete_windows_witness :
  exists subgroups,
    calculateSubgroups 5 [1; 2; 3; 4; 5]%float 2 = Some subgroups /\
    length subgroups = 2%nat /\
    map mean subgroups = [1.5; 3.5]%float /\
    forall k, (k < 2)%nat ->
      let w := firstn 2 (skipn (k * 2) [1; 2; 3; 4; 5]%float) in
      length w = 2%nat /\
      exists sg, nth_error subgroups k = Some sg /\
        mean sg = (window_sum w / 2)%float /\
        range sg = (Math_max w - Math_min w)%float.
Proof.
  destruct (calculateSubgroups_complete_windows [1; 2; 3; 4; 5]%float 2 5
              ltac:(lia) ltac:(simpl; lia)) as (subgroups & Hsg & Hlen & Hk).
  change (length [1; 2; 3; 4; 5]%float / Z.to_nat 2)%nat with 2%nat in Hlen, Hk.
  change (Z.to_nat 2) with 2%nat in Hk. change (Z2float 2) with 2%float in Hk.
  exists subgroups. split; [exact Hsg|]. split; [exact Hlen|].
  split; [|exact Hk].
  destruct (Hk 0%nat ltac:(lia)) as (_ & sg0 & H0 & Hm0 & _).
  destruct (Hk 1%nat ltac:(lia)) as (_ & sg1 & H1 & Hm1 & _).
  destruct subgroups as [|a [|b [|c rest]]]; try discriminate Hlen.
  cbn in H0, H1. injection H0 as ->. injection H1 as ->.
  cbn [map]. rewrite Hm0, Hm1. reflexivity.
Defined.

(** ** Facts about binary64 arithmetic *)

Module FloatFacts.

Lemma digits2_pos_size p : digits2_pos p = Pos.size p.
Proof. induction p; simpl; congruence. Qed.

(** A positive number between [2^(k-1)] and [2^k] has [k] binary digits. *)
Lemma Zdigits2_bounds (m k : Z) :
  2 ^ (k - 1) <= m < 2 ^ k -> 1 <= k -> Zdigits2 m = k.
Proof.
  intros [Hlo Hhi] Hk.
  assert (0 < m) by (pose proof (Z.pow_pos_nonneg 2 (k - 1)); lia).
  destruct m as [|p|p]; try lia. cbn [Zdigits2].
  rewrite digits2_pos_size.
  pose proof (Pos.size_gt p) as Hgt. pose proof (Pos.size_le p) as Hle.
  apply Pos2Z.pos_lt_pos in Hgt. apply Pos2Z.pos_le_pos in Hle.
  rewrite Pos2Z.inj_pow in Hgt, Hle.
  change (Z.pos p~0) with (2 * Z.pos p) in Hle.
  set (d := Z.pos (Pos.size p)) in *.
  assert (0 < d) by (subst d; lia).
  destruct (Z.lt_trichotomy d k) as [Hlt|[Heq|Hgt']]; [|assumption|].
  - assert (2 ^ d <= 2 ^ (k - 1)) by (apply Z.pow_le_mono_r; lia). lia.
  - assert (2 ^ k <= 2 ^ (d - 1)) by (apply Z.pow_le_mono_r; lia).
    replace d with (Z.succ (d - 1)) in Hle by lia.
    rewrite Z.pow_succ_r in Hle by lia. lia.
Qed.

Lemma Zdigits2_range (p : positive) :
  2 ^ (Zdigits2 (Zpos p) - 1) <= Zpos p < 2 ^ Zdigits2 (Zpos p).
Proof.
  cbn [Zdigits2]. rewrite digits2_pos_size.
  pose proof (Pos.size_gt p) as Hgt. pose proof (Pos.size_le p) as Hle.
  apply Pos2Z.pos_lt_pos in Hgt. apply Pos2Z.pos_le_pos in Hle.
  rewrite Pos2Z.inj_pow in Hgt, Hle.
  change (Z.pos p~0) with (2 * Z.pos p) in Hle.
  set (d := Z.pos (Pos.size p)) in *.
  replace d with (Z.succ (d - 1)) in Hle at 1 by lia.
  rewrite Z.pow_succ_r in Hle by (subst d; lia). lia.
Qed.

Lemma iter_xO_pow (p k : positive) :
  Zpos (Pos.iter xO p k) = Zpos p * 2 ^ Zpos k.
Proof.
  revert p. induction k using Pos.peano_ind; intros p.
  - simpl. lia.
  - rewrite Pos.iter_succ. rewrite Pos2Z.inj_succ, Z.pow_succ_r by lia.
    change (Z.pos (Pos.iter xO p k)~0) with (2 * Z.pos (Pos.iter xO p k)).
    rewrite IHk. lia.
Qed.

(** Rounding a mantissa of exactly 53 bits that is known exactly leaves it
    as it is. *)
Lemma binary_round_aux_exact (s : bool) (m : positive) (e : Z) :
  2 ^ 52 <= Zpos m < 2 ^ 53 -> -1074 <= e <= 971 ->
  binary_round_aux prec emax s (Zpos m) e loc_Exact = S754_finite s m e.
Proof.
  intros Hm He.
  assert (Hd : Zdigits2 (Zpos m) = 53) by (apply Zdigits2_bounds; lia).
  unfold binary_round_aux, shr_fexp. rewrite Hd.
  unfold fexp, emin, prec, emax.
  replace (Z.max (53 + e - 53) (3 - 1024 - 53) - e) with 0 by lia.
  cbn [shr shr_record_of_loc shr_m loc_of_shr_record round_nearest_even].
  rewrite Hd.
  replace (Z.max (53 + e - 53) (3 - 1024 - 53) - e) with 0 by lia.
  cbn [shr shr_record_of_loc shr_m].
  destruct (Z.leb_spec e (1024 - 53)); [reflexivity|lia].
Qed.

(** The binary64 value of a positive integer below [2^53]: the integer
    shifted to a 53-bit mantissa. *)
Lemma binary_normalize_small (p : positive) :
  Zpos p < 2 ^ 53 ->
  exists m : positive,
    binary_normalize prec emax (Zpos p) 0 false
    = S754_finite false m (Zdigits2 (Zpos p) - 53) /\
    Zpos m = Zpos p * 2 ^ (53 - Zdigits2 (Zpos p)) /\
    2 ^ 52 <= Zpos m < 2 ^ 53.
Proof.
  intros Hp.
  pose proof (Zdigits2_range p) as Hr.
  set (d := Zdigits2 (Zpos p)) in *.
  assert (Hd1 : 1 <= d) by (subst d; cbn [Zdigits2]; lia).
  assert (Hd : d <= 53).
  { destruct (Z.le_gt_cases d 53) as [|Hgt]; [assumption|].
    assert (2 ^ 53 <= 2 ^ (d - 1)) by (apply Z.pow_le_mono_r; lia). lia. }
  cbn [binary_normalize]. unfold binary_round.
  change (Z.pos (digits2_pos p)) with d.
  unfold fexp at 1, emin, prec, emax.
  replace (Z.max (d + 0 - 53) (3 - 1024 - 53)) with (d - 53) by lia.
  unfold shl_align. rewrite Z.sub_0_r.
  destruct (d - 53) as [|q|q] eqn:Hq; [|lia|].
  - exists p. replace (53 - d) with 0 by lia. rewrite Z.mul_1_r.
    assert (Hb : 2 ^ 52 <= Zpos p < 2 ^ 53).
    { replace d with 53 in Hr by lia. exact Hr. }
    split; [|split; [reflexivity|exact Hb]].
    apply binary_round_aux_exact; [exact Hb|lia].
  - exists (Pos.iter xO p q).
    assert (Hm : Zpos (Pos.iter xO p q) = Zpos p * 2 ^ (53 - d)).
    { rewrite iter_xO_pow. f_equal. f_equal. lia. }
    assert (Hb : 2 ^ 52 <= Zpos (Pos.iter xO p q) < 2 ^ 53).
    { rewrite Hm.
      assert (H52 : 2 ^ 52 = 2 ^ (d - 1) * 2 ^ (53 - d)).
      { rewrite <- Z.pow_add_r by lia. f_equal. lia. }
      assert (H53 : 2 ^ 53 = 2 ^ d * 2 ^ (53 - d)).
      { rewrite <- Z.pow_add_r by lia. f_equal. lia. }
      rewrite H52, H53.
      assert (0 < 2 ^ (53 - d)) by (apply Z.pow_pos_nonneg; lia).
      split; [apply Z.mul_le_mono_nonneg_r|apply Z.mul_lt_mono_pos_r]; lia. }
    split; [|split; [exact Hm|exact Hb]].
    apply binary_round_aux_exact; [exact Hb|lia].
Qed.

Lemma Prim2SF_Z2float_pos (p : positive) :
  Zpos p < 2 ^ 53 ->
  Prim2SF (Z2float (Zpos p)) = binary_normalize prec emax (Zpos p) 0 false.
Proof.
  intros Hp. unfold Z2float. cbn [Z.ltb Z.compare].
  rewrite of_uint63_spec, Uint63.of_Z_spec.
  rewrite Z.mod_small; [reflexivity|].
  change Uint63Axioms.wB with (2 ^ 63).
  assert (2 ^ 53 < 2 ^ 63) by (apply Z.pow_lt_mono_r; lia). lia.
Qed.

Lemma Prim2SF_Z2float_small (p : positive) :
  Zpos p < 2 ^ 53 ->
  exists m : positive,
    Prim2SF (Z2float (Zpos p)) = S754_finite false m (Zdigits2 (Zpos p) - 53) /\
    Zpos m = Zpos p * 2 ^ (53 - Zdigits2 (Zpos p)) /\
    2 ^ 52 <= Zpos m < 2 ^ 53 /\
    1 <= Zdigits2 (Zpos p) <= 53.
Proof.
  intros Hp. rewrite Prim2SF_Z2float_pos by assumption.
  destruct (binary_normalize_small p Hp) as (m & H1 & H2 & H3).
  exists m. repeat split; try assumption; try lia.
  - cbn [Zdigits2]. lia.
  - pose proof (Zdigits2_range p) as Hr.
    destruct (Z.le_gt_cases (Zdigits2 (Zpos p)) 53) as [|Hgt]; [assumption|].
    assert (2 ^ 53 <= 2 ^ (Zdigits2 (Zpos p) - 1))
      by (apply Z.pow_le_mono_r; lia).
    lia.
Qed.

(** An integer below [2^53] survives the trip through a number. *)
Lemma float2Z_Z2float (z : Z) :
  0 <= z < 2 ^ 53 -> float2Z (Z2float z) = Some z.
Proof.
  intros Hz. destruct z as [|p|p]; [reflexivity| |lia].
  destruct (Prim2SF_Z2float_small p (proj2 Hz)) as (m & H1 & H2 & H3 & H4).
  unfold float2Z. rewrite H1.
  set (d := Zdigits2 (Zpos p)) in *.
  destruct (Z.leb_spec 0 (d - 53)) as [H0|H0].
  - replace (d - 53) with 0 by lia. replace (53 - d) with 0 in H2 by lia.
    cbn [cond_Zopp]. f_equal. rewrite H2. lia.
  - replace (- (d - 53)) with (53 - d) by lia. rewrite H2.
    assert (2 ^ (53 - d) <> 0) by (apply Z.pow_nonzero; lia).
    rewrite Z.mod_mul by assumption. cbn [Z.eqb cond_Zopp].
    rewrite Z.div_mul by assumption. reflexivity.
Qed.

(** Rounding a 53-bit mantissa with any remainder keeps it, adds one, or
    carries into the next binade. *)
Lemma binary_round_aux_53 (q e : Z) (l : location) :
  2 ^ 52 <= q < 2 ^ 53 -> -1074 <= e <= 970 ->
  exists (m : positive) (e' : Z),
    binary_round_aux prec emax false q e l = S754_finite false m e' /\
    ((e' = e /\ 2 ^ 52 <= Zpos m < 2 ^ 53) \/ (e' = e + 1 /\ Zpos m = 2 ^ 52)).
Proof.
  intros Hq He.
  assert (Hd : Zdigits2 q = 53) by (apply Zdigits2_bounds; lia).
  unfold binary_round_aux, shr_fexp. rewrite Hd.
  unfold fexp, emin, prec, emax.
  replace (Z.max (53 + e - 53) (3 - 1024 - 53) - e) with 0 by lia.
  cbn [shr].
  assert (Hm : shr_m (shr_record_of_loc q l) = q)
    by (destruct l as [|[ | | ]]; reflexivity).
  assert (Hl : loc_of_shr_record (shr_record_of_loc q l) = l)
    by (destruct l as [|[ | | ]]; reflexivity).
  rewrite Hm, Hl.
  set (q' := round_nearest_even q l).
  assert (Hq' : q <= q' <= q + 1).
  { subst q'. destruct l as [|[ | | ]]; cbn [round_nearest_even];
      try destruct (Z.even q); lia. }
  destruct (Z.eq_dec q' (2 ^ 53)) as [Heq|Hne].
  - rewrite Heq.
    change (Zdigits2 (2 ^ 53)) with 54.
    replace (Z.max (54 + e - 53) (3 - 1024 - 53) - e) with 1 by lia.
    cbn -[Z.leb Z.add Z.sub].
    destruct (Z.leb_spec (e + 1) (1024 - 53)); [|lia].
    eexists _, _. split; [reflexivity|]. right. split; reflexivity.
  - assert (Hb : 2 ^ 52 <= q' < 2 ^ 53) by lia.
    assert (Hd' : Zdigits2 q' = 53) by (apply Zdigits2_bounds; lia).
    rewrite Hd'.
    replace (Z.max (53 + e - 53) (3 - 1024 - 53) - e) with 0 by lia.
    cbn [shr shr_record_of_loc shr_m].
    destruct q' as [|m|m]; try lia.
    destruct (Z.leb_spec e (1024 - 53)); [|lia].
    exists m, e. split; [reflexivity|]. left. split; [reflexivity|exact Hb].
Qed.

(** The square root of a number with a 53-bit mantissa and an exponent in
    the range of the integers below [2^32]. *)
Lemma SFsqrt_small (mx : positive) (ex : Z) :
  2 ^ 52 <= Zpos mx < 2 ^ 53 -> -52 <= ex <= -21 ->
  exists (m : positive) (e : Z),
    SFsqrt prec emax (S754_finite false mx ex) = S754_finite false m e /\
    -60 <= e < 0 /\ Zpos m <= 2 ^ (16 - e).
Proof.
  intros Hm He.
  assert (Hd : Zdigits2 (Zpos mx) = 53) by (apply Zdigits2_bounds; lia).
  cbn [SFsqrt]. unfold SFsqrt_core_binary. rewrite Hd.
  rewrite !Z.div2_div. unfold fexp, emin, prec, emax.
  set (e' := Z.min (Z.max ((53 + ex + 1) / 2 - 53) (3 - 1024 - 53)) (ex / 2)).
  assert (He' : e' = (ex + 54) / 2 - 53).
  { subst e'. replace (53 + ex + 1) with (ex + 54) by lia.
    replace (ex + 54) with (ex + 27 * 2) by lia.
    rewrite Z.div_add by lia. Z.div_mod_to_equations. lia. }
  assert (Hs : ex - 2 * e' = 52 \/ ex - 2 * e' = 53)
    by (rewrite He'; Z.div_mod_to_equations; lia).
  assert (Hrange : -52 <= e' <= -37)
    by (rewrite He'; Z.div_mod_to_equations; lia).
  set (m' := match ex - 2 * e' with
             | 0 => Z.pos mx
             | Z.pos _ => Z.shiftl (Z.pos mx) (ex - 2 * e')
             | Z.neg _ => 0
             end).
  assert (Hm' : 2 ^ 104 <= m' < 2 ^ 106).
  { subst m'. destruct Hs as [-> | ->]; rewrite Z.shiftl_mul_pow2 by lia; lia. }
  pose proof (Z.sqrtrem_sqrt m') as Hsq.
  destruct (Z.sqrtrem m') as [q r] eqn:Hqr. cbn [fst] in Hsq. subst q.
  assert (Hq : 2 ^ 52 <= Z.sqrt m' < 2 ^ 53).
  { pose proof (Z.sqrt_spec m' ltac:(lia)) as Hspec. cbv zeta in Hspec.
    split.
    - change (2 ^ 52) with (Z.sqrt (2 ^ 104)). apply Z.sqrt_le_mono. lia.
    - apply Z.sqrt_lt_square; lia. }
  destruct (binary_round_aux_53 (Z.sqrt m') e'
              (if r =? 0 then loc_Exact
               else loc_Inexact (if r <=? Z.sqrt m' then Lt else Gt))
              Hq ltac:(lia)) as (m & e & Hres & Hcases).
  exists m, e. split; [exact Hres|].
  destruct Hcases as [[-> Hb]|[-> Hb]].
  - split; [lia|].
    assert (2 ^ 53 <= 2 ^ (16 - e')) by (apply Z.pow_le_mono_r; lia). lia.
  - split; [lia|]. rewrite Hb. apply Z.pow_le_mono_r; lia.
Qed.

(** [Math.ceil(Math.sqrt(n))] for an array length [n] is a small integer,
    positive when [n] is. *)
Lemma ceil_sqrt_length (n : Z) :
  0 <= n < 2 ^ 32 ->
  exists k, Math_ceil (Math_sqrt (Z2float n)) = Z2float k /\
            0 <= k <= 2 ^ 16 /\ (0 < n -> 1 <= k).
Proof.
  intros Hn. destruct n as [|p|p]; [| |lia].
  - exists 0. split; [reflexivity|lia].
  - assert (Hp : Zpos p < 2 ^ 53) by lia.
    destruct (Prim2SF_Z2float_small p Hp) as (mx & Hx & _ & Hmx & Hd).
    pose proof (Zdigits2_range p) as Hr.
    set (d := Zdigits2 (Zpos p)) in *.
    assert (Hd32 : d <= 32).
    { destruct (Z.le_gt_cases d 32) as [|Hgt]; [assumption|].
      assert (2 ^ 32 <= 2 ^ (d - 1)) by (apply Z.pow_le_mono_r; lia). lia. }
    destruct (SFsqrt_small mx (d - 53) Hmx ltac:(lia)) as (m & e & Hs & He & Hm).
    assert (Hy : Prim2SF (Math_sqrt (Z2float (Zpos p))) = S754_finite false m e).
    { unfold Math_sqrt. rewrite sqrt_spec, Hx. exact Hs. }
    unfold Math_ceil. rewrite Hy.
    destruct (Z.leb_spec 0 e) as [|_]; [lia|].
    cbn [cond_Zopp]. rewrite Z.shiftr_div_pow2 by lia.
    set (z := - (- Z.pos m / 2 ^ (- e))).
    assert (Hpow : 0 < 2 ^ (- e)) by (apply Z.pow_pos_nonneg; lia).
    assert (Hz : 1 <= z <= 2 ^ 16).
    { subst z. split.
      - assert (- Z.pos m / 2 ^ (- e) < 0); [|lia].
        apply Z.div_lt_upper_bound; [exact Hpow|]. rewrite Z.mul_0_r. lia.
      - assert (- 2 ^ 16 <= - Z.pos m / 2 ^ (- e)); [|lia].
        apply Z.div_le_lower_bound; [exact Hpow|].
        replace (16 - e) with (- e + 16) in Hm by lia.
        rewrite Z.pow_add_r in Hm by lia.
        rewrite Z.mul_opp_r. lia. }
    destruct (Z.eqb_spec z 0) as [|_]; [lia|].
    exists z. split; [reflexivity|]. split; lia.
Qed.

(** *** Special values *)

Lemma Prim2SF_eq (x : float) (sf : spec_float) :
  Prim2SF x = sf -> x = SF2Prim sf.
Proof. intros <-. symmetry. apply SF2Prim_Prim2SF. Qed.

(** What [is_finite] says about the value. *)
Lemma is_finite_cases (x : float) :
  is_finite x = true ->
  (exists s, Prim2SF x = S754_zero s) \/
  (exists s m e, Prim2SF x = S754_finite s m e).
Proof.
  unfold is_finite, is_nan, is_infinity.
  rewrite !eqb_spec, abs_spec.
  change (Prim2SF infinity) with (S754_infinity false).
  destruct (Prim2SF x) as [s|s| |s m e] eqn:Hx.
  - eauto.
  - destruct s; cbv; discriminate.
  - cbv; discriminate.
  - eauto 6.
Qed.

Lemma not_finite_cases (x : float) :
  is_finite x = false ->
  x = infinity \/ x = neg_infinity \/ x = nan.
Proof.
  unfold is_finite, is_nan, is_infinity.
  rewrite !eqb_spec, abs_spec.
  change (Prim2SF infinity) with (S754_infinity false).
  destruct (Prim2SF x) as [s|s| |s m e] eqn:Hx.
  - destruct s; cbv; discriminate.
  - intros _. apply Prim2SF_eq in Hx. destruct s; auto.
  - intros _. apply Prim2SF_eq in Hx. auto.
  - unfold SFeqb, SFcompare, SFabs.
    rewrite Z.compare_refl, Pos.compare_cont_refl.
    destruct s; cbn; discriminate.
Qed.

(** A finite number minus itself is [+0]. *)
Lemma sub_diag_finite (x : float) :
  is_finite x = true -> (x - x)%float = zero.
Proof.
  intros Hx. change zero with (SF2Prim (S754_zero false)).
  apply Prim2SF_eq. rewrite sub_spec.
  destruct (is_finite_cases x Hx) as [[s ->]|(s & m & e & ->)].
  - destruct s; reflexivity.
  - unfold SF64sub, SFsub. rewrite Z.sub_diag. reflexivity.
Qed.

(** [Math.max] and [Math.min] of one finite number. *)
Lemma Math_max_singleton (x : float) :
  is_finite x = true -> Math_max [x] = x.
Proof.
  intros Hx. unfold Math_max. cbn [Math_max_from].
  assert (Hnan : is_nan x = false).
  { unfold is_finite in Hx. destruct (is_nan x); [discriminate|reflexivity]. }
  rewrite Hnan.
  change (is_neg_zero neg_infinity) with false. rewrite andb_false_r.
  rewrite ltb_spec. change (Prim2SF neg_infinity) with (S754_infinity true).
  destruct (is_finite_cases x Hx) as [[s ->]|(s & m & e & ->)]; reflexivity.
Qed.

Lemma Math_min_singleton (x : float) :
  is_finite x = true -> Math_min [x] = x.
Proof.
  intros Hx. unfold Math_min. cbn [Math_min_from].
  assert (Hnan : is_nan x = false).
  { unfold is_finite in Hx. destruct (is_nan x); [discriminate|reflexivity]. }
  rewrite Hnan.
  change (is_pos_zero infinity) with false. rewrite andb_false_r.
  rewrite ltb_spec. change (Prim2SF infinity) with (S754_infinity false).
  destruct (is_finite_cases x Hx) as [[s ->]|(s & m & e & ->)]; reflexivity.
Qed.

(** Zero divided by a positive integer below [2^53] is [+0]. *)
Lemma zero_div_Z2float (n : Z) :
  0 < n < 2 ^ 53 -> (zero / Z2float n)%float = zero.
Proof.
  intros Hn. destruct n as [|p|p]; try lia.
  destruct (Prim2SF_Z2float_small p (proj2 Hn)) as (m & H1 & _).
  change zero with (SF2Prim (S754_zero false)) at 2.
  apply Prim2SF_eq. rewrite div_spec, H1. reflexivity.
Qed.

(** Any number divided by [+0] is an infinity or NaN. *)
Lemma div_zero_not_finite (t : float) :
  is_finite (t / zero)%float = false.
Proof.
  assert (H : exists sf, Prim2SF (t / zero)%float = sf /\
            (sf = S754_nan \/ exists s, sf = S754_infinity s)).
  { eexists. split; [reflexivity|]. rewrite div_spec.
    change (Prim2SF zero) with (S754_zero false).
    destruct (Prim2SF t) as [s|s| |s m e]; cbn; eauto. }
  destruct H as (sf & Hsf & Hc). apply Prim2SF_eq in Hsf. rewrite Hsf.
  destruct Hc as [->|[[|] ->]]; reflexivity.
Qed.

(** Zero times a number: a zero when the number is finite, NaN otherwise. *)
Lemma zero_mul (x : float) :
  toFixed4 (zero * x)%float = if is_finite x then zero else nan.
Proof.
  destruct (is_finite x) eqn:Hx.
  - unfold toFixed4. rewrite mul_spec.
    change (Prim2SF zero) with (S754_zero false).
    destruct (is_finite_cases x Hx) as [[s ->]|(s & m & e & ->)]; reflexivity.
  - destruct (not_finite_cases x Hx) as [->|[->| ->]]; reflexivity.
Qed.

(** Addition is commutative. *)
Lemma SFadd_comm (x y : spec_float) :
  SFadd prec emax x y = SFadd prec emax y x.
Proof.
  destruct x as [sx|sx| |sx mx ex], y as [sy|sy| |sy my ey];
    try reflexivity; try (destruct sx, sy; reflexivity).
  cbn [SFadd]. rewrite (Z.min_comm ey ex), Z.add_comm. reflexivity.
Qed.

(** The first two terms of a sum that starts from [+0] can be exchanged;
    [+0] absorbs the sign of a zero term. *)
Lemma SFadd_start_swap (x y : spec_float) :
  SFadd prec emax (SFadd prec emax (S754_zero false) x) y
  = SFadd prec emax (SFadd prec emax (S754_zero false) y) x.
Proof.
  destruct x as [sx|sx| |sx mx ex], y as [sy|sy| |sy my ey];
    try reflexivity; try (destruct sx, sy; reflexivity);
    try (destruct sx; reflexivity); try (destruct sy; reflexivity).
  cbn [SFadd]. rewrite (Z.min_comm ey ex), Z.add_comm. reflexivity.
Qed.

End FloatFacts.

(** ** Order and sign of binary64 values *)

Module FloatOrder.
Import FloatFacts.

Lemma valid_finite_bounds (s : bool) (m : positive) (e : Z) :
  valid_binary (S754_finite s m e) = true ->
  -1074 <= e <= 971 /\ Zpos m < 2 ^ 53 /\ (e = -1074 \/ 2 ^ 52 <= Zpos m).
Proof.
  cbn [SpecFloat.valid_binary]. unfold bounded, canonical_mantissa, fexp, emin,
    prec, emax.
  intros H. apply andb_true_iff in H as [Hc He].
  apply Z.eqb_eq in Hc. apply Z.leb_le in He.
  assert (Hd1 : 1 <= Z.pos (digits2_pos m)) by lia.
  pose proof (Zdigits2_range m) as Hr. cbn [Zdigits2] in Hr.
  set (d := Z.pos (digits2_pos m)) in *.
  destruct (Z.max_spec (d + e - 53) (3 - 1024 - 53)) as [[Hlt Hmax]|[Hge Hmax]];
    rewrite Hmax in Hc.
  - assert (d <= 53) by lia.
    assert (2 ^ d <= 2 ^ 53) by (apply Z.pow_le_mono_r; lia). lia.
  - assert (d = 53) by lia. replace (d - 1) with 52 in Hr by lia.
    replace d with 53 in Hr by lia. lia.
Qed.

Lemma pos_value_bounds (m : positive) (e : Z) :
  -1074 <= e <= 971 -> Zpos m < 2 ^ 53 ->
  0 < Zpos m * 2 ^ (e + 1074) < 2 ^ 2100.
Proof.
  intros He Hm.
  assert (0 < 2 ^ (e + 1074)) by (apply Z.pow_pos_nonneg; lia).
  split; [lia|].
  assert (2 ^ (e + 1074) <= 2 ^ 2045) by (apply Z.pow_le_mono_r; lia).
  assert (Zpos m * 2 ^ (e + 1074) < 2 ^ 53 * 2 ^ 2045).
  { apply Z.le_lt_trans with (Zpos m * 2 ^ 2045).
    - apply Z.mul_le_mono_nonneg_l; lia.
    - apply Z.mul_lt_mono_pos_r; lia. }
  assert (2 ^ 53 * 2 ^ 2045 < 2 ^ 2100)
    by (rewrite <- Z.pow_add_r by lia; apply Z.pow_lt_mono_r; lia).
  lia.
Qed.

(** Comparing exponents, then mantissas, compares the values. *)
Lemma pos_value_compare (m1 m2 : positive) (e1 e2 : Z) :
  valid_binary (S754_finite false m1 e1) = true ->
  valid_binary (S754_finite false m2 e2) = true ->
  match e1 ?= e2 with
  | Lt => Lt
  | Gt => Gt
  | Eq => Pos.compare_cont Eq m1 m2
  end = (Zpos m1 * 2 ^ (e1 + 1074) ?= Zpos m2 * 2 ^ (e2 + 1074)).
Proof.
  intros H1 H2.
  apply valid_finite_bounds in H1 as (He1 & Hm1 & Hn1).
  apply valid_finite_bounds in H2 as (He2 & Hm2 & Hn2).
  assert (Hlt : forall ma mb ea eb,
             -1074 <= ea -> ea < eb -> Zpos ma < 2 ^ 53 -> 2 ^ 52 <= Zpos mb ->
             Zpos ma * 2 ^ (ea + 1074) < Zpos mb * 2 ^ (eb + 1074)).
  { intros ma mb ea eb Hea Hlt Hma Hmb.
    assert (0 < 2 ^ (ea + 1074)) by (apply Z.pow_pos_nonneg; lia).
    assert (2 * 2 ^ (ea + 1074) <= 2 ^ (eb + 1074)).
    { rewrite <- Z.pow_succ_r by lia. apply Z.pow_le_mono_r; lia. }
    apply Z.lt_le_trans with (2 ^ 53 * 2 ^ (ea + 1074)).
    - apply Z.mul_lt_mono_pos_r; lia.
    - apply Z.le_trans with (2 ^ 52 * 2 ^ (eb + 1074)).
      + change (2 ^ 53) with (2 ^ 52 * 2). rewrite <- Z.mul_assoc.
        apply Z.mul_le_mono_nonneg_l; lia.
      + apply Z.mul_le_mono_nonneg_r; [|lia].
        apply Z.pow_nonneg; lia. }
  destruct (Z.compare_spec e1 e2) as [Heq|Hlt'|Hgt'].
  - subst e2. assert (0 < 2 ^ (e1 + 1074)) by (apply Z.pow_pos_nonneg; lia).
    change (Pos.compare_cont Eq m1 m2) with (Zpos m1 ?= Zpos m2).
    apply Zmult_compare_compat_r. lia.
  - symmetry. apply Z.compare_lt_iff. apply Hlt; lia.
  - symmetry. apply Z.compare_gt_iff. apply Hlt; lia.
Qed.

Lemma SFcompare_ord (x y : spec_float) :
  valid_binary x = true -> valid_binary y = true ->
  x <> S754_nan -> y <> S754_nan ->
  SFcompare x y = Some (ord x ?= ord y).
Proof.
  intros Hx Hy Hnx Hny.
  destruct x as [sx|sx| |sx mx ex]; [| |congruence|];
    destruct y as [sy|sy| |sy my ey]; try congruence.
  - reflexivity.
  - destruct sy; reflexivity.
  - pose proof (valid_finite_bounds _ _ _ Hy) as (He & Hm & _).
    pose proof (pos_value_bounds my ey He Hm).
    cbn [SFcompare ord]. destruct sy; cbn [cond_Zopp]; f_equal; symmetry.
    + apply Z.compare_gt_iff. lia.
    + apply Z.compare_lt_iff. lia.
  - destruct sx; reflexivity.
  - destruct sx, sy; reflexivity.
  - pose proof (valid_finite_bounds _ _ _ Hy) as (He & Hm & _).
    pose proof (pos_value_bounds my ey He Hm).
    cbn [SFcompare ord]. destruct sx, sy; cbn [cond_Zopp]; f_equal; symmetry;
      first [apply Z.compare_lt_iff; lia | apply Z.compare_gt_iff; lia].
  - pose proof (valid_finite_bounds _ _ _ Hx) as (He & Hm & _).
    pose proof (pos_value_bounds mx ex He Hm).
    cbn [SFcompare ord]. destruct sx; cbn [cond_Zopp]; f_equal; symmetry.
    + apply Z.compare_lt_iff. lia.
    + apply Z.compare_gt_iff. lia.
  - pose proof (valid_finite_bounds _ _ _ Hx) as (He & Hm & _).
    pose proof (pos_value_bounds mx ex He Hm).
    cbn [SFcompare ord]. destruct sx, sy; cbn [cond_Zopp]; f_equal; symmetry;
      first [apply Z.compare_lt_iff; lia | apply Z.compare_gt_iff; lia].
  - pose proof (valid_finite_bounds _ _ _ Hx) as (Hex & Hmx & _).
    pose proof (valid_finite_bounds _ _ _ Hy) as (Hey & Hmy & _).
    pose proof (pos_value_bounds mx ex Hex Hmx).
    pose proof (pos_value_bounds my ey Hey Hmy).
    cbn [SFcompare ord]. f_equal.
    destruct sx, sy; cbn [cond_Zopp].
    + rewrite Z.compare_opp.
      rewrite <- (pos_value_compare my mx ey ex) by assumption.
      rewrite (Z.compare_antisym ey ex).
      destruct (ey ?= ex); cbn [CompOpp]; try reflexivity.
      change (Pos.compare_cont Eq mx my) with (Pos.compare mx my).
      change (Pos.compare_cont Eq my mx) with (Pos.compare my mx).
      symmetry. apply Pos.compare_antisym.
    + symmetry. apply Z.compare_lt_iff. lia.
    + symmetry. apply Z.compare_gt_iff. lia.
    + now apply pos_value_compare.
Qed.

(** *** Signs *)

Lemma iter_pos_invariant {A : Type} (P : A -> Prop) (f : A -> A) :
  (forall x, P x -> P (f x)) ->
  forall n x, P x -> P (iter_pos f n x).
Proof.
  intros Hf. induction n as [n IH|n IH|]; intros x Hx; cbn [iter_pos]; auto.
Qed.

Lemma shr_1_nonneg (mrs : shr_record) :
  0 <= shr_m mrs -> 0 <= shr_m (shr_1 mrs).
Proof.
  destruct mrs as [m r s]. cbn [shr_m].
  destruct m as [|[p|p|]|p]; cbn; lia.
Qed.

Lemma shr_nonneg (mrs : shr_record) (e n : Z) :
  0 <= shr_m mrs -> 0 <= shr_m (fst (shr mrs e n)).
Proof.
  intros H. destruct n as [|p|p]; cbn [shr fst]; try assumption.
  apply (iter_pos_invariant (fun mrs => 0 <= shr_m mrs)); [|assumption].
  apply shr_1_nonneg.
Qed.

Lemma shr_m_of_loc (m : Z) (l : location) : shr_m (shr_record_of_loc m l) = m.
Proof. destruct l as [|[ | | ]]; reflexivity. Qed.

Lemma round_nearest_even_nonneg (m : Z) (l : location) :
  0 <= m -> 0 <= round_nearest_even m l.
Proof.
  intros H. destruct l as [|[ | | ]]; cbn [round_nearest_even];
    try destruct (Z.even m); lia.
Qed.

(** Rounding a non-negative mantissa with a positive sign gives a
    non-negative number, never NaN. *)
Lemma binary_round_aux_nonneg (m e : Z) (l : location) :
  0 <= m -> nonneg (binary_round_aux prec emax false m e l).
Proof.
  intros Hm. unfold binary_round_aux, shr_fexp.
  set (n1 := fexp prec emax (Zdigits2 m + e) - e).
  pose proof (shr_nonneg (shr_record_of_loc m l) e n1) as H1.
  rewrite shr_m_of_loc in H1. specialize (H1 Hm).
  destruct (shr (shr_record_of_loc m l) e n1) as [mrs' e']. cbn [fst] in H1.
  set (m2 := round_nearest_even (shr_m mrs') (loc_of_shr_record mrs')).
  assert (H2 : 0 <= m2) by (now apply round_nearest_even_nonneg).
  set (n2 := fexp prec emax (Zdigits2 m2 + e') - e').
  pose proof (shr_nonneg (shr_record_of_loc m2 loc_Exact) e' n2) as H3.
  rewrite shr_m_of_loc in H3. specialize (H3 H2).
  destruct (shr (shr_record_of_loc m2 loc_Exact) e' n2) as [mrs'' e''].
  cbn [fst] in H3.
  destruct (shr_m mrs'') as [|p|p]; [exact I| |lia].
  destruct (e'' <=? emax - prec); exact I.
Qed.

Lemma shl_align_value (m : positive) (e e' : Z) :
  e' <= e -> Zpos (fst (shl_align m e e')) = Zpos m * 2 ^ (e - e').
Proof.
  intros H. unfold shl_align.
  destruct (e' - e) as [|d|d] eqn:Hd; cbn [fst]; try lia.
  - replace (e - e') with 0 by lia. lia.
  - rewrite iter_xO_pow. f_equal. f_equal. lia.
Qed.

Lemma binary_normalize_nonneg (z e : Z) :
  0 <= z -> nonneg (binary_normalize prec emax z e false).
Proof.
  intros Hz. destruct z as [|p|p]; [exact I| |lia].
  cbn [binary_normalize]. unfold binary_round.
  destruct (shl_align p e (fexp prec emax (Z.pos (digits2_pos p) + e)))
    as [mz ez].
  apply binary_round_aux_nonneg. lia.
Qed.

(** A finite number minus a smaller or equal one is non-negative. *)
Lemma SFsub_nonneg (x y : spec_float) :
  valid_binary x = true -> valid_binary y = true ->
  finite_or_zero x -> finite_or_zero y ->
  ord y <= ord x ->
  nonneg (SFsub prec emax x y).
Proof.
  intros Hvx Hvy Hfx Hfy Hle.
  destruct x as [sx|sx| |sx mx ex]; try contradiction;
    destruct y as [sy|sy| |sy my ey]; try contradiction.
  - destruct sx, sy; exact I.
  - pose proof (valid_finite_bounds _ _ _ Hvy) as (He & Hm & _).
    pose proof (pos_value_bounds my ey He Hm).
    cbn [ord] in Hle. destruct sy; cbn [cond_Zopp] in Hle; [exact I|lia].
  - pose proof (valid_finite_bounds _ _ _ Hvx) as (He & Hm & _).
    pose proof (pos_value_bounds mx ex He Hm).
    cbn [ord] in Hle. destruct sx; cbn [cond_Zopp] in Hle; [lia|exact I].
  - cbn [SFsub]. apply binary_normalize_nonneg.
    pose proof (valid_finite_bounds _ _ _ Hvx) as (Hex & _).
    pose proof (valid_finite_bounds _ _ _ Hvy) as (Hey & _).
    set (ez := Z.min ex ey).
    rewrite !shl_align_value by (subst ez; lia).
    cbn [ord] in Hle.
    assert (Hx : Zpos mx * 2 ^ (ex + 1074)
                 = Zpos mx * 2 ^ (ex - ez) * 2 ^ (ez + 1074)).
    { rewrite <- Z.mul_assoc, <- Z.pow_add_r by (subst ez; lia).
      f_equal. f_equal. lia. }
    assert (Hy : Zpos my * 2 ^ (ey + 1074)
                 = Zpos my * 2 ^ (ey - ez) * 2 ^ (ez + 1074)).
    { rewrite <- Z.mul_assoc, <- Z.pow_add_r by (subst ez; lia).
      f_equal. f_equal. lia. }
    rewrite Hx, Hy in Hle.
    assert (Hp : 0 < 2 ^ (ez + 1074))
      by (apply Z.pow_pos_nonneg; subst ez; lia).
    set (a := Zpos mx * 2 ^ (ex - ez)) in *.
    set (b := Zpos my * 2 ^ (ey - ez)) in *.
    set (w := 2 ^ (ez + 1074)) in *.
    destruct sx, sy; cbn [cond_Zopp] in *; nia.
Qed.

(** A non-negative number divided by a positive finite one is
    non-negative. *)
Lemma SFdiv_nonneg (x : spec_float) (my : positive) (ey : Z) :
  nonneg x -> nonneg (SFdiv prec emax x (S754_finite false my ey)).
Proof.
  intros Hx. destruct x as [sx|[|]| |[|] mx ex]; try contradiction.
  - exact I.
  - exact I.
  - cbn [SFdiv]. unfold SFdiv_core_binary.
    set (m' := match _ - _ - _ with
               | 0 => Z.pos mx
               | Z.pos _ => Z.shiftl (Z.pos mx) _
               | Z.neg _ => 0
               end).
    assert (Hm' : 0 <= m').
    { subst m'. destruct (_ - _ - _); try lia. apply Z.shiftl_nonneg. lia. }
    pose proof (Z.div_pos m' (Z.pos my) Hm' ltac:(lia)) as Hq.
    unfold Z.div in Hq.
    destruct (Z.div_eucl m' (Z.pos my)) as [q r].
    apply binary_round_aux_nonneg. exact Hq.
Qed.

(** *** Integers as numbers *)

(** The scaled value of an integer-valued number. *)
Lemma float2Z_ord (x : float) (i : Z) :
  float2Z x = Some i -> ord (Prim2SF x) = i * 2 ^ 1074.
Proof.
  assert (Hinj : forall a b : Z, Some a = Some b -> a = b)
    by (intros a b H; congruence).
  unfold float2Z. pose proof (Prim2SF_valid x) as Hv.
  destruct (Prim2SF x) as [s|s| |s m e]; try discriminate.
  - intros H. apply Hinj in H. subst i. reflexivity.
  - pose proof (valid_finite_bounds _ _ _ Hv) as (He & _).
    cbn [ord]. destruct (Z.leb_spec 0 e) as [H0|H0].
    + intros H. apply Hinj in H. subst i. rewrite Z.pow_add_r by lia.
      destruct s; cbn [cond_Zopp]; ring.
    + destruct (Z.eqb_spec (Z.pos m mod 2 ^ (- e)) 0) as [Hmod|]; [|discriminate].
      intros H. apply Hinj in H. subst i.
      assert (Hp : 0 < 2 ^ (- e)) by (apply Z.pow_pos_nonneg; lia).
      pose proof (Z.div_mod (Z.pos m) (2 ^ (- e)) ltac:(lia)) as Hdm.
      rewrite Hmod, Z.add_0_r in Hdm.
      assert (H1074 : 2 ^ 1074 = 2 ^ (- e) * 2 ^ (e + 1074)).
      { rewrite <- Z.pow_add_r by lia. f_equal. lia. }
      rewrite H1074.
      set (q := Z.pos m / 2 ^ (- e)) in *.
      destruct s; cbn [cond_Zopp]; rewrite Hdm at 1; ring.
Qed.

(** [Math.floor] of a non-negative number is plus infinity or a
    non-negative integer. *)
Lemma Math_floor_nonneg (q : float) :
  nonneg (Prim2SF q) ->
  Math_floor q = infinity \/
  exists i, float2Z (Math_floor q) = Some i /\ 0 <= i.
Proof.
  intros Hq. unfold Math_floor. pose proof (Prim2SF_valid q) as Hv.
  destruct (Prim2SF q) as [s|[|]| |[|] m e] eqn:Hp; try contradiction.
  - right. exists 0. unfold float2Z. rewrite Hp. split; [reflexivity|lia].
  - left. now apply Prim2SF_eq in Hp.
  - right. pose proof (valid_finite_bounds _ _ _ Hv) as (He & Hm & _).
    destruct (Z.leb_spec 0 e) as [H0|H0].
    + exists (Z.pos m * 2 ^ e). unfold float2Z. rewrite Hp.
      destruct (Z.leb_spec 0 e); [|lia]. split; [reflexivity|].
      assert (0 < 2 ^ e) by (apply Z.pow_pos_nonneg; lia). lia.
    + cbn [cond_Zopp]. rewrite Z.shiftr_div_pow2 by lia.
      assert (Hp2 : 0 < 2 ^ (- e)) by (apply Z.pow_pos_nonneg; lia).
      assert (0 <= Z.pos m / 2 ^ (- e)) by (apply Z.div_pos; lia).
      assert (Z.pos m / 2 ^ (- e) <= Z.pos m)
        by (apply Z.div_le_upper_bound; nia).
      eexists. split; [apply float2Z_Z2float; lia|assumption].
Qed.

Lemma shr_1_double (a : Z) :
  0 < a ->
  shr_1 {| shr_m := 2 * a; shr_r := false; shr_s := false |}
  = {| shr_m := a; shr_r := false; shr_s := false |}.
Proof. intros H. destruct a as [|p|p]; try lia. reflexivity. Qed.

(** Shifting out zero bits loses nothing. *)
Lemma iter_shr_1_exact (n : positive) :
  forall a, 0 < a ->
    iter_pos shr_1 n {| shr_m := a * 2 ^ Zpos n; shr_r := false; shr_s := false |}
    = {| shr_m := a; shr_r := false; shr_s := false |}.
Proof.
  induction n as [n IH|n IH|]; intros a Ha; cbn [iter_pos].
  - assert (Hp : 0 < 2 ^ Z.pos n) by (apply Z.pow_pos_nonneg; lia).
    replace (a * 2 ^ Z.pos n~1) with (2 * (a * 2 ^ Z.pos n * 2 ^ Z.pos n)).
    + rewrite shr_1_double by nia. rewrite IH by nia. apply IH. exact Ha.
    + replace (Z.pos n~1) with (Z.pos n + Z.pos n + 1) by lia.
      rewrite !Z.pow_add_r by lia. change (2 ^ 1) with 2. ring.
  - assert (Hp : 0 < 2 ^ Z.pos n) by (apply Z.pow_pos_nonneg; lia).
    replace (a * 2 ^ Z.pos n~0) with (a * 2 ^ Z.pos n * 2 ^ Z.pos n).
    + rewrite IH by nia. apply IH. exact Ha.
    + replace (Z.pos n~0) with (Z.pos n + Z.pos n) by lia.
      rewrite !Z.pow_add_r by lia. ring.
  - change (2 ^ 1) with 2. rewrite Z.mul_comm. now apply shr_1_double.
Qed.

(** An integer below [2^53] with [s] zero bits appended and the exponent
    [-s] is the same number. *)
Lemma binary_normalize_scaled (p : positive) (s : Z) :
  0 <= s <= 1000 -> Zpos p < 2 ^ 53 ->
  binary_normalize prec emax (Zpos p * 2 ^ s) (- s) false
  = binary_normalize prec emax (Zpos p) 0 false.
Proof.
  intros Hs Hp.
  destruct (binary_normalize_small p Hp) as (m & Hr & Hm & Hb). rewrite Hr.
  pose proof (Zdigits2_range p) as Hd.
  set (d := Zdigits2 (Zpos p)) in *.
  assert (Hd1 : 1 <= d) by (subst d; cbn [Zdigits2]; lia).
  assert (Hd53 : d <= 53).
  { destruct (Z.le_gt_cases d 53) as [|Hgt]; [assumption|].
    assert (2 ^ 53 <= 2 ^ (d - 1)) by (apply Z.pow_le_mono_r; lia). lia. }
  assert (Hps : 0 < 2 ^ s) by (apply Z.pow_pos_nonneg; lia).
  destruct (Zpos p * 2 ^ s) as [|P|P] eqn:HP; try lia.
  assert (HdP : Zdigits2 (Zpos P) = d + s).
  { apply Zdigits2_bounds; [|lia]. rewrite <- HP.
    replace (d + s - 1) with (d - 1 + s) by lia.
    rewrite !Z.pow_add_r by lia. nia. }
  cbn [binary_normalize]. unfold binary_round.
  change (Z.pos (digits2_pos P)) with (Zdigits2 (Zpos P)). rewrite HdP.
  unfold fexp at 1, emin, prec, emax.
  replace (Z.max (d + s + - s - 53) (3 - 1024 - 53)) with (d - 53) by lia.
  unfold shl_align.
  destruct (d - 53 - - s) as [|n|n] eqn:Hn.
  - (* exactly 53 bits *)
    assert (HPm : P = m).
    { apply Pos2Z.inj. rewrite <- HP, Hm. f_equal. f_equal. lia. }
    rewrite HPm. replace (- s) with (d - 53) by lia.
    apply binary_round_aux_exact; [exact Hb|lia].
  - (* more than 53 bits: the zero bits are shifted out *)
    unfold binary_round_aux, shr_fexp. rewrite HdP.
    unfold fexp, emin, prec, emax.
    replace (Z.max (d + s + - s - 53) (3 - 1024 - 53) - - s) with (Z.pos n)
      by lia.
    cbn [shr shr_record_of_loc].
    assert (HPn : Zpos P = Zpos m * 2 ^ Zpos n).
    { rewrite <- HP, Hm, <- Z.mul_assoc, <- Z.pow_add_r by lia.
      f_equal. f_equal. lia. }
    rewrite HPn, iter_shr_1_exact by lia.
    cbn [shr_m loc_of_shr_record round_nearest_even].
    assert (Hdm : Zdigits2 (Zpos m) = 53) by (apply Zdigits2_bounds; lia).
    rewrite Hdm.
    replace (Z.max (53 + (- s + Z.pos n) - 53) (3 - 1024 - 53) - (- s + Z.pos n))
      with 0 by lia.
    cbn [shr shr_record_of_loc shr_m].
    destruct (Z.leb_spec (- s + Z.pos n) (1024 - 53)); [|lia].
    f_equal. lia.
  - (* fewer than 53 bits: shifted left *)
    assert (HPm : Pos.iter xO P n = m).
    { apply Pos2Z.inj. rewrite iter_xO_pow, <- HP, Hm.
      rewrite <- Z.mul_assoc, <- Z.pow_add_r by lia. f_equal. f_equal. lia. }
    rewrite HPm. apply binary_round_aux_exact; [exact Hb|lia].
Qed.

(** Subtracting one from a positive integer below [2^53] is exact. *)
Lemma Z2float_sub_one (k : Z) :
  1 <= k < 2 ^ 53 -> (Z2float k - 1)%float = Z2float (k - 1).
Proof.
  intros Hk. destruct k as [|p|p]; try lia.
  destruct (Prim2SF_Z2float_small p (proj2 Hk)) as (m & Hx & Hm & Hb & Hd).
  set (d := Zdigits2 (Zpos p)) in *.
  assert (Hsub : Prim2SF (Z2float (Z.pos p) - 1)%float
                 = binary_normalize prec emax (Z.pos p - 1) 0 false).
  { rewrite sub_spec, Hx.
    change (Prim2SF 1%float) with (S754_finite false 4503599627370496 (-52)).
    unfold SF64sub, SFsub.
    replace (Z.min (d - 53) (-52)) with (-52) by lia.
    rewrite !shl_align_value by lia. cbn [cond_Zopp].
    replace (-52 - -52) with 0 by lia.
    change (Z.pos 4503599627370496 * 2 ^ 0) with (1 * 2 ^ 52).
    assert (Hv : Z.pos m * 2 ^ (d - 53 - -52) = Z.pos p * 2 ^ 52).
    { rewrite Hm, <- Z.mul_assoc, <- Z.pow_add_r by lia. f_equal. f_equal. lia. }
    rewrite Hv, <- Z.mul_sub_distr_r.
    destruct (Z.pos p - 1) as [|q|q] eqn:Hq; try lia.
    - reflexivity.
    - change (-52) with (- 52). apply binary_normalize_scaled; lia. }
  destruct (Z.eq_dec (Z.pos p) 1) as [H1|H1].
  - rewrite H1. reflexivity.
  - apply Prim2SF_inj. rewrite Hsub.
    destruct (Z.pos p - 1) as [|q|q] eqn:Hq; try lia.
    symmetry. apply Prim2SF_Z2float_pos. lia.
Qed.

End FloatOrder.

(** ** The handler *)

(** Once a shift, a material, an operation and a gauge are selected,
    [handleAnalyze] is its [try] statement. *)
Lemma handleAnalyze_selected (fuel : nat) (selectedShifts : list Z)
    (material operation gauge : string) (sampleSize : Z)
    (inspectionData : list InspectionData) :
  selectedShifts <> [] ->
  material <> EmptyString -> operation <> EmptyString ->
  gauge <> EmptyString ->
  handleAnalyze fuel selectedShifts material operation gauge sampleSize
    inspectionData
  = handleAnalyze_try fuel selectedShifts sampleSize inspectionData.
Proof.
  intros Hs Hm Ho Hg. unfold handleAnalyze.
  destruct selectedShifts; [congruence|].
  apply String.eqb_neq in Hm, Ho, Hg. rewrite Hm, Ho, Hg. reflexivity.
Qed.

(** ** The pipeline returns *)

(** The histogram of an array never throws. *)
Lemma calculateDistributionData_normal (specifications : list float) :
  Z.of_nat (length specifications) < 2 ^ 32 ->
  exists distributionData,
    calculateDistributionData specifications = Normal distributionData.
Proof.
  intros Hlen. unfold calculateDistributionData.
  destruct (FloatFacts.ceil_sqrt_length (Z.of_nat (length specifications))
              ltac:(lia)) as (k & Hk & Hrange & _).
  unfold new_Array_fill0. rewrite Hk.
  rewrite FloatFacts.float2Z_Z2float
    by (assert (2 ^ 16 < 2 ^ 53) by (apply Z.pow_lt_mono_r; lia); lia).
  destruct (Z.leb_spec 0 k); [|lia].
  destruct (Z.ltb_spec k (2 ^ 32)); [|lia].
  cbn [andb bind]. eexists. reflexivity.
Qed.

Lemma constants_domain (sampleSize : Z) :
  1 <= sampleSize <= 5 -> exists c, constants sampleSize = Some c /\ D3 c = 0%float.
Proof.
  intros H.
  assert (sampleSize = 1 \/ sampleSize = 2 \/ sampleSize = 3 \/
          sampleSize = 4 \/ sampleSize = 5) as [->|[->|[->|[->| ->]]]] by lia;
    eexists; split; reflexivity.
Qed.

Lemma constants_undefined (sampleSize : Z) :
  ~ (1 <= sampleSize <= 5) -> constants sampleSize = None.
Proof.
  intros H. destruct sampleSize as [|p|p]; try reflexivity.
  assert (6 <= Zpos p) by lia.
  do 3 (destruct p as [p|p|]; try reflexivity; try lia).
Qed.

(** With a tabulated sample size, at least one record and enough fuel, the
    body of the handler runs to its end. *)
Lemma analyze_normal (fuel : nat) (sampleSize : Z)
    (filteredData : list InspectionData) :
  1 <= sampleSize <= 5 ->
  filteredData <> [] ->
  Z.of_nat (length filteredData) < 2 ^ 32 ->
  (length filteredData <= fuel)%nat ->
  exists subgroups c d0 distributionData,
    calculateSubgroups fuel (map ActualSpecification filteredData) sampleSize
      = Some subgroups /\
    constants sampleSize = Some c /\
    hd_error filteredData = Some d0 /\
    calculateDistributionData (map ActualSpecification filteredData)
      = Normal distributionData /\
    analyze fuel sampleSize filteredData
    = Some (Normal {|
        metrics :=
          capabilityMetrics sampleSize (average mean subgroups)
            (average range subgroups) (ToSpecification d0) (FromSpecification d0);
        controlCharts := {|
          xBarData := chartData_from 0 mean subgroups;
          rangeData := chartData_from 0 range subgroups;
          limits := controlLimits c subgroups |};
        distribution := {|
          data := distributionData_data distributionData;
          stats := {|
            stats_mean := toFixed4 (average mean subgroups);
            stats_stdDev :=
              toFixed4 (stdDev_of sampleSize (average range subgroups));
            target :=
              toFixed4 ((ToSpecification d0 + FromSpecification d0) / 2)%float |};
          distribution_numberOfBins := numberOfBins distributionData |} |}).
Proof.
  intros Hsize Hne Hlen Hfuel.
  destruct (constants_domain sampleSize Hsize) as (c & Hc & _).
  destruct (calculateDistributionData_normal (map ActualSpecification filteredData))
    as (dd & Hdd); [rewrite length_map; exact Hlen|].
  destruct filteredData as [|d0 rest]; [congruence|].
  eexists _, c, d0, dd.
  split; [apply calculateSubgroups_windows; [lia|now rewrite length_map]|].
  split; [exact Hc|].
  split; [reflexivity|].
  split; [exact Hdd|].
  unfold analyze.
  rewrite calculateSubgroups_windows by (try rewrite length_map; lia).
  rewrite Hc, Hdd. cbn [bind first_record]. reflexivity.
Qed.

(** ** Small facts *)

Lemma float_neq (x y : float) : Leibniz.eqb x y = false -> x <> y.
Proof.
  intros H Heq. apply Leibniz.eqb_spec in Heq. congruence.
Qed.

Lemma toFixed4_not_finite (x : float) : Infinity_or_NaN x -> toFixed4 x = x.
Proof. intros [->|[->| ->]]; reflexivity. Qed.

Lemma Math_min_pair_not_finite (a b : float) :
  Infinity_or_NaN a -> Infinity_or_NaN b -> Infinity_or_NaN (Math_min [a; b]).
Proof.
  unfold Infinity_or_NaN.
  intros [->|[->| ->]] [->|[->| ->]]; vm_compute; auto.
Qed.

Lemma div_zero_Infinity_or_NaN (t : float) : Infinity_or_NaN (t / zero)%float.
Proof. apply FloatFacts.not_finite_cases, FloatFacts.div_zero_not_finite. Qed.

(** With size 1 every measurement is its own window. *)
Lemma windows_of_one {B : Type} (f : list float -> B) (l : list float) :
  map (fun k => f (window l 1 k)) (seq 0 (length l)) = map (fun v => f [v]) l.
Proof.
  induction l as [|a l IH]; [reflexivity|].
  cbn [length seq map]. f_equal.
  rewrite <- seq_shift, map_map. rewrite <- IH.
  apply map_ext. intros k. unfold window. f_equal.
Qed.

Lemma calculateSubgroups_size_one (fuel : nat) (data : list float) :
  (length data <= fuel)%nat ->
  calculateSubgroups fuel data 1 = Some (map (fun v => statistics 1 [v]) data).
Proof.
  intros Hfuel. rewrite calculateSubgroups_windows by (assumption || lia).
  change (Z.to_nat 1) with 1%nat. rewrite Nat.div_1_r.
  now rewrite windows_of_one.
Qed.

Lemma sum_zero_ranges (subgroups : list Subgroup) :
  Forall (fun sg => range sg = zero) subgroups ->
  fold_left (fun a b => (a + range b)%float) subgroups zero = zero.
Proof.
  induction 1 as [|sg l Hsg _ IH]; [reflexivity|].
  cbn [fold_left]. rewrite Hsg. exact IH.
Qed.

(** ** Capability and performance indices *)

(** C2: for a sample size in 1..5 and at least one complete subgroup the
    analysis is returned, with the standard deviation estimated as
    [rangeMean / d2(size)], where [d2(1) = 1.128] and [d2(size) =
    sqrt(size)] otherwise, [cp = (usl - lsl) / (6 * stdDev)],
    [cpu = (usl - xBarMean) / (3 * stdDev)],
    [cpl = (xBarMean - lsl) / (3 * stdDev)] and [cpk = min(cpu, cpl)]; the
    metrics hold these values rounded to four decimals.  The order of [usl]
    and [lsl] plays no part. *)
Theorem capability_indices (fuel : nat) (selectedShifts : list Z)
    (sampleSize : Z) (inspectionData : list InspectionData) :
  let records := filteredData selectedShifts inspectionData in
  let measurements := map ActualSpecification records in
  1 <= sampleSize <= 5 ->
  sampleSize <= Z.of_nat (length measurements) < 2 ^ 32 ->
  (length measurements <= fuel)%nat ->
  exists subgroups d0 analysis,
    calculateSubgroups fuel measurements sampleSize = Some subgroups /\
    hd_error records = Some d0 /\
    handleAnalyze_try fuel selectedShifts sampleSize inspectionData
      = SetAnalysisData analysis /\
    let usl := ToSpecification d0 in
    let lsl := FromSpecification d0 in
    let xBarMean := average mean subgroups in
    let rangeMean := average range subgroups in
    let stdDev := (rangeMean / d2 sampleSize)%float in
    let cp' := ((usl - lsl) / (6 * stdDev))%float in
    let cpu := ((usl - xBarMean) / (3 * stdDev))%float in
    let cpl := ((xBarMean - lsl) / (3 * stdDev))%float in
    let cpk' := Math_min [cpu; cpl] in
    stdDevWithin (metrics analysis) = toFixed4 stdDev /\
    cp (metrics analysis) = toFixed4 cp' /\
    cpkUpper (metrics analysis) = toFixed4 cpu /\
    cpkLower (metrics analysis) = toFixed4 cpl /\
    cpk (metrics analysis) = toFixed4 cpk'.
Proof.
  intros records measurements Hsize Hlen Hfuel.
  subst measurements. rewrite length_map in Hlen, Hfuel.
  destruct (analyze_normal fuel sampleSize records Hsize)
    as (subgroups & c & d0 & dd & Hsg & _ & Hd0 & _ & Han);
    [destruct records; [simpl in Hlen; lia|discriminate]|lia|lia|].
  exists subgroups, d0. eexists.
  split; [exact Hsg|]. split; [exact Hd0|].
  unfold handleAnalyze_try. fold records. rewrite Han.
  split; [reflexivity|].
  repeat split.
Qed.

Lemma capability_indices_witness :
  exists subgroups d0 analysis,
    calculateSubgroups 4 [10; 12; 11; 13]%float 2 = Some subgroups /\
    hd_error (inspections 1 5 15 [10; 12; 11; 13]%float) = Some d0 /\
    handleAnalyze_try 4 [1] 2 (inspections 1 5 15 [10; 12; 11; 13]%float)
      = SetAnalysisData analysis /\
    cp (metrics analysis)
    = toFixed4 ((ToSpecification d0 - FromSpecification d0)
                / (6 * (average range subgroups / d2 2)))%float.
Proof.
  destruct (capability_indices 4 [1] 2 (inspections 1 5 15 [10; 12; 11; 13]%float)
              ltac:(lia) ltac:(vm_compute; split; [discriminate|reflexivity])
              ltac:(vm_compute; lia))
    as (subgroups & d0 & analysis & H1 & H2 & H3 & _ & H4 & _).
  exists subgroups, d0, analysis. repeat split; assumption.
Defined.

(** C7: in the returned metrics [pp], [ppu], [ppl] and [ppk] are the same
    numbers as [cp], [cpu] ([cpkUpper]), [cpl] ([cpkLower]) and [cpk], and
    the overall standard deviation is the within-subgroup one. *)
Theorem performance_indices_alias_capability (fuel : nat)
    (selectedShifts : list Z) (sampleSize : Z)
    (inspectionData : list InspectionData) :
  let measurements :=
    map ActualSpecification (filteredData selectedShifts inspectionData) in
  1 <= sampleSize <= 5 ->
  sampleSize <= Z.of_nat (length measurements) < 2 ^ 32 ->
  (length measurements <= fuel)%nat ->
  exists analysis,
    handleAnalyze_try fuel selectedShifts sampleSize inspectionData
      = SetAnalysisData analysis /\
    pp (metrics analysis) = cp (metrics analysis) /\
    ppu (metrics analysis) = cpkUpper (metrics analysis) /\
    ppl (metrics analysis) = cpkLower (metrics analysis) /\
    ppk (metrics analysis) = cpk (metrics analysis) /\
    stdDevOverall (metrics analysis) = stdDevWithin (metrics analysis).
Proof.
  intros measurements Hsize Hlen Hfuel.
  subst measurements. rewrite length_map in Hlen, Hfuel.
  set (records := filteredData selectedShifts inspectionData) in *.
  destruct (analyze_normal fuel sampleSize records Hsize)
    as (subgroups & c & d0 & dd & _ & _ & _ & _ & Han);
    [destruct records; [simpl in Hlen; lia|discriminate]|lia|lia|].
  eexists. unfold handleAnalyze_try. fold records. rewrite Han.
  split; [reflexivity|]. repeat split.
Qed.

Lemma performance_indices_alias_capability_witness :
  exists analysis,
    handleAnalyze_try 3 [7] 3 (inspections 7 5 15 [10; 12; 11]%float)
      = SetAnalysisData analysis /\
    pp (metrics analysis) = cp (metrics analysis) /\
    ppu (metrics analysis) = cpkUpper (metrics analysis) /\
    ppl (metrics analysis) = cpkLower (metrics analysis) /\
    ppk (metrics analysis) = cpk (metrics analysis) /\
    stdDevOverall (metrics analysis) = stdDevWithin (metrics analysis).
Proof.
  exact (performance_indices_alias_capability 3 [7] 3
           (inspections 7 5 15 [10; 12; 11]%float)
           ltac:(lia) ltac:(vm_compute; split; [discriminate|reflexivity])
           ltac:(vm_compute; lia)).
Defined.

(** ** Scenario A *)

(** C3: measurements [10,12,11,13,9,11,10,12] with subgroup size 2 give the
    subgroups (11,2), (12,2), (10,2), (11,2), [xBarMean = 11],
    [rangeMean = 2] and, with [A2(2) = 1.023], [xBarUcl = 13.046] and
    [xBarLcl = 8.954], whatever the specification limits are. *)
Theorem scenario_A (lsl usl : float) :
  let measurements := [10; 12; 11; 13; 9; 11; 10; 12]%float in
  calculateSubgroups 8 measurements 2
  = Some [ {| mean := 11; range := 2 |}; {| mean := 12; range := 2 |};
           {| mean := 10; range := 2 |}; {| mean := 11; range := 2 |} ] /\
  option_map A2 (constants 2) = Some 1.023%float /\
  exists analysis,
    handleAnalyze_try 8 [1] 2 (inspections 1 lsl usl measurements)
      = SetAnalysisData analysis /\
    xBarMean (limits (controlCharts analysis)) = 11%float /\
    rangeMean (limits (controlCharts analysis)) = 2%float /\
    xBarUcl (limits (controlCharts analysis)) = 13.046%float /\
    xBarLcl (limits (controlCharts analysis)) = 8.954%float.
Proof.
  intros measurements.
  assert (Hsg : calculateSubgroups 8 measurements 2
                = Some [ {| mean := 11; range := 2 |}; {| mean := 12; range := 2 |};
                         {| mean := 10; range := 2 |}; {| mean := 11; range := 2 |} ])
    by (vm_compute; reflexivity).
  split; [exact Hsg|]. split; [reflexivity|].
  destruct (analyze_normal 8 2 (inspections 1 lsl usl measurements))
    as (subgroups & c & d0 & dd & Hsg' & Hc & _ & _ & Han);
    [lia|discriminate|vm_compute; reflexivity|vm_compute; lia|].
  change (map ActualSpecification (inspections 1 lsl usl measurements))
    with measurements in Hsg'.
  rewrite Hsg in Hsg'. injection Hsg' as <-.
  injection Hc as <-.
  eexists. split.
  - unfold handleAnalyze_try.
    change (filteredData [1] (inspections 1 lsl usl measurements))
      with (inspections 1 lsl usl measurements).
    rewrite Han. reflexivity.
  - cbn [limits controlCharts]. repeat split; vm_compute; reflexivity.
Qed.

(** X3, scenario B: with [lsl = 5] and [usl = 15] the measurements of
    scenario A give the standard deviation [2 / sqrt(2)], reported as
    1.4142, and [cp = 1.1785]. *)
Theorem scenario_B :
  exists analysis,
    handleAnalyze_try 8 [1] 2
      (inspections 1 5 15 [10; 12; 11; 13; 9; 11; 10; 12]%float)
      = SetAnalysisData analysis /\
    stdDev_of 2 2 = (2 / PrimFloat.sqrt 2)%float /\
    stdDevWithin (metrics analysis) = 1.4142%float /\
    cp (metrics analysis) = 1.1785%float.
Proof.
  eexists. split; [vm_compute; reflexivity|]. repeat split.
Qed.

(** ** Sample size 1 *)

Lemma statistics_one_range (v : float) :
  is_finite v = true -> range (statistics 1 [v]) = zero.
Proof.
  intros Hv. cbn [statistics range].
  rewrite FloatFacts.Math_max_singleton, FloatFacts.Math_min_singleton
    by assumption.
  now apply FloatFacts.sub_diag_finite.
Qed.

Lemma average_range_size_one (data : list float) :
  data <> [] -> Z.of_nat (length data) < 2 ^ 32 ->
  forallb is_finite data = true ->
  Forall (fun sg => range sg = zero) (map (fun v => statistics 1 [v]) data) /\
  average range (map (fun v => statistics 1 [v]) data) = zero.
Proof.
  intros Hne Hlen Hfin.
  assert (HF : Forall (fun sg => range sg = zero)
                 (map (fun v => statistics 1 [v]) data)).
  { apply Forall_map. rewrite forallb_forall in Hfin.
    apply Forall_forall. intros v Hv. apply statistics_one_range. auto. }
  split; [exact HF|].
  unfold average. rewrite sum_zero_ranges by exact HF.
  apply FloatFacts.zero_div_Z2float. rewrite length_map.
  assert (2 ^ 32 < 2 ^ 53) by (apply Z.pow_lt_mono_r; lia).
  destruct data; [congruence|]. cbn [length] in *. lia.
Qed.

(** C10, as amended: with sample size 1 and finite measurements every
    subgroup has range 0, so the range average and the estimated standard
    deviation are 0, the analysis is returned without an error, and [cp],
    [cpu], [cpl] and [cpk] in its metrics are each an infinity or NaN. *)
Theorem sample_size_one_divides_by_zero (fuel : nat) (selectedShifts : list Z)
    (inspectionData : list InspectionData) :
  let measurements :=
    map ActualSpecification (filteredData selectedShifts inspectionData) in
  measurements <> [] ->
  Z.of_nat (length measurements) < 2 ^ 32 ->
  forallb is_finite measurements = true ->
  (length measurements <= fuel)%nat ->
  exists subgroups analysis,
    calculateSubgroups fuel measurements 1 = Some subgroups /\
    length subgroups = length measurements /\
    Forall (fun sg => range sg = 0%float) subgroups /\
    average range subgroups = 0%float /\
    stdDev_of 1 (average range subgroups) = 0%float /\
    handleAnalyze_try fuel selectedShifts 1 inspectionData
      = SetAnalysisData analysis /\
    stdDevWithin (metrics analysis) = 0%float /\
    Infinity_or_NaN (cp (metrics analysis)) /\
    Infinity_or_NaN (cpkUpper (metrics analysis)) /\
    Infinity_or_NaN (cpkLower (metrics analysis)) /\
    Infinity_or_NaN (cpk (metrics analysis)).
Proof.
  intros measurements Hne Hlen Hfin Hfuel.
  set (records := filteredData selectedShifts inspectionData) in *.
  assert (Hrec : length records = length measurements)
    by (subst measurements; now rewrite length_map).
  destruct (analyze_normal fuel 1 records)
    as (subgroups & c & d0 & dd & Hsg & _ & _ & _ & Han);
    [lia|intros ->; now apply Hne|lia|lia|].
  fold measurements in Hsg.
  rewrite calculateSubgroups_size_one in Hsg by assumption.
  injection Hsg as <-.
  destruct (average_range_size_one measurements Hne Hlen Hfin) as [HF Havg].
  eexists _, _.
  split; [now apply calculateSubgroups_size_one|].
  split; [now rewrite length_map|].
  split; [exact HF|]. split; [exact Havg|].
  split; [rewrite Havg; reflexivity|].
  unfold handleAnalyze_try. fold records. rewrite Han.
  split; [reflexivity|].
  cbn [metrics capabilityMetrics stdDevWithin cp cpkUpper cpkLower cpk].
  rewrite Havg.
  change (stdDev_of 1 zero) with zero.
  change (6 * zero)%float with zero. change (3 * zero)%float with zero.
  split; [reflexivity|].
  assert (Hq : forall t, Infinity_or_NaN (toFixed4 (t / zero)%float)).
  { intros t. rewrite toFixed4_not_finite; apply div_zero_Infinity_or_NaN. }
  split; [apply Hq|]. split; [apply Hq|]. split; [apply Hq|].
  rewrite toFixed4_not_finite;
    apply Math_min_pair_not_finite; apply div_zero_Infinity_or_NaN.
Qed.

Lemma sample_size_one_divides_by_zero_witness :
  exists subgroups analysis,
    calculateSubgroups 3 [10; 12; 11]%float 1 = Some subgroups /\
    Forall (fun sg => range sg = 0%float) subgroups /\
    handleAnalyze_try 3 [1] 1 (inspections 1 5 15 [10; 12; 11]%float)
      = SetAnalysisData analysis /\
    Infinity_or_NaN (cp (metrics analysis)) /\
    Infinity_or_NaN (cpk (metrics analysis)).
Proof.
  destruct (sample_size_one_divides_by_zero 3 [1]
              (inspections 1 5 15 [10; 12; 11]%float)
              ltac:(discriminate) ltac:(vm_compute; reflexivity)
              ltac:(vm_compute; reflexivity) ltac:(vm_compute; lia))
    as (subgroups & analysis & H1 & _ & H2 & _ & _ & H3 & _ & H4 & _ & _ & H5).
  exists subgroups, analysis. repeat split; assumption.
Defined.

(** A measurement that is not a finite number does not give range 0. *)
Lemma sample_size_one_counterexample :
  calculateSubgroups 1 [nan] 1 = Some [ {| mean := nan; range := nan |} ] /\
  range {| mean := nan; range := nan |} <> 0%float.
Proof.
  split; [vm_compute; reflexivity|].
  apply float_neq. vm_compute. reflexivity.
Qed.

(** ** Control limits *)

(** C8, as amended: for a sample size in 1..5 the lower range limit is
    [D3 * rangeMean] rounded, with [D3 = 0]; it is 0 when the range average
    is finite and NaN otherwise. *)
Theorem rangeLcl_zero (sampleSize : Z) (subgroups : list Subgroup) :
  1 <= sampleSize <= 5 ->
  exists c,
    constants sampleSize = Some c /\
    D3 c = 0%float /\
    rangeLcl (controlLimits c subgroups)
    = toFixed4 (D3 c * average range subgroups)%float /\
    rangeLcl (controlLimits c subgroups)
    = if is_finite (average range subgroups) then 0%float else nan.
Proof.
  intros Hsize.
  destruct (constants_domain sampleSize Hsize) as (c & Hc & HD3).
  exists c. repeat split; try assumption.
  cbn [rangeLcl controlLimits]. rewrite HD3. apply FloatFacts.zero_mul.
Qed.

Lemma rangeLcl_zero_witness :
  exists c,
    constants 2 = Some c /\
    rangeLcl (controlLimits c [ {| mean := 11; range := 2 |};
                                {| mean := 12; range := 2 |} ]) = 0%float.
Proof.
  destruct (rangeLcl_zero 2 [ {| mean := 11; range := 2 |};
                              {| mean := 12; range := 2 |} ] ltac:(lia))
    as (c & Hc & _ & _ & H).
  exists c. split; [exact Hc|]. rewrite H. reflexivity.
Defined.

(** Two finite measurements whose difference overflows: the range average
    is infinite and the lower range limit is NaN. *)
Lemma rangeLcl_counterexample :
  exists analysis,
    handleAnalyze_try 2 [1] 2 (inspections 1 5 15 [1e308; -1e308]%float)
      = SetAnalysisData analysis /\
    rangeMean (limits (controlCharts analysis)) = infinity /\
    rangeLcl (limits (controlCharts analysis)) = nan /\
    rangeLcl (limits (controlCharts analysis)) <> 0%float.
Proof.
  eexists. split; [vm_compute; reflexivity|].
  cbn [limits controlCharts rangeMean rangeLcl].
  repeat split. apply float_neq. reflexivity.
Qed.

(** The limits are a function of the length and the two running sums. *)
Lemma controlLimits_of_sums (c : Constants)
    (subgroups subgroups' : list Subgroup) :
  length subgroups = length subgroups' ->
  running_sum mean subgroups = running_sum mean subgroups' ->
  running_sum range subgroups = running_sum range subgroups' ->
  controlLimits c subgroups = controlLimits c subgroups'.
Proof.
  intros Hlen Hmean Hrange.
  unfold controlLimits, average. fold (running_sum mean subgroups).
  fold (running_sum mean subgroups'). fold (running_sum range subgroups).
  fold (running_sum range subgroups').
  rewrite Hmean, Hrange, Hlen. reflexivity.
Qed.

(** The same four subgroups in two orders: the sum of the means rounds
    differently, and the grand mean differs in its last decimal. *)
Lemma controlLimits_permutation_counterexample :
  Permutation subgroups_in_order subgroups_reordered /\
  xBarMean (controlLimits {| A2 := 1.880; D3 := 0; D4 := 3.267 |}
              subgroups_in_order) = 1.0467%float /\
  xBarMean (controlLimits {| A2 := 1.880; D3 := 0; D4 := 3.267 |}
              subgroups_reordered) = 1.0468%float /\
  controlLimits {| A2 := 1.880; D3 := 0; D4 := 3.267 |} subgroups_in_order
  <> controlLimits {| A2 := 1.880; D3 := 0; D4 := 3.267 |} subgroups_reordered.
Proof.
  split; [do 2 apply perm_skip; apply perm_swap|].
  split; [vm_compute; reflexivity|]. split; [vm_compute; reflexivity|].
  intros H. apply (f_equal xBarMean) in H. revert H.
  apply float_neq. vm_compute. reflexivity.
Qed.

Lemma running_sum_swap (f : Subgroup -> float) (a b : Subgroup)
    (subgroups : list Subgroup) :
  running_sum f (a :: b :: subgroups) = running_sum f (b :: a :: subgroups).
Proof.
  unfold running_sum. cbn [fold_left]. f_equal.
  apply Prim2SF_inj. rewrite !add_spec.
  change (Prim2SF 0%float) with (S754_zero false).
  apply FloatFacts.SFadd_start_swap.
Qed.

(** X2: exchanging the first two subgroups leaves both running sums as
    they are: it changes none of the six limits, whatever the numbers
    are. *)
Theorem controlLimits_swap_first_two (c : Constants) (a b : Subgroup)
    (subgroups : list Subgroup) :
  controlLimits c (a :: b :: subgroups) = controlLimits c (b :: a :: subgroups).
Proof.
  apply controlLimits_of_sums; [reflexivity| |]; apply running_sum_swap.
Qed.

(** *** Sums without rounding *)

Section ExactSums.
Import FloatFacts FloatOrder.

Lemma ord_finite_nonzero (s : bool) (m : positive) (e : Z) :
  valid_binary (S754_finite s m e) = true ->
  ord (S754_finite s m e) <> 0 /\
  (0 < ord (S754_finite s m e) <-> s = false).
Proof.
  intros Hv. pose proof (valid_finite_bounds _ _ _ Hv) as (He & Hm & _).
  pose proof (pos_value_bounds m e He Hm).
  cbn [ord]. destruct s; cbn [cond_Zopp]; split; try lia;
    split; intros; (lia || discriminate || reflexivity).
Qed.

(** Numbers of the same value are the same number, the sign of zero
    apart. *)
Lemma ord_injective (x y : spec_float) :
  valid_binary x = true -> valid_binary y = true ->
  plain x -> plain y -> ord x = ord y -> x = y.
Proof.
  intros Hvx Hvy Hpx Hpy Heq.
  assert (Hc : SFcompare x y = Some Eq).
  { rewrite SFcompare_ord; try assumption.
    - now rewrite Heq, Z.compare_refl.
    - destruct x; (contradiction || discriminate).
    - destruct y; (contradiction || discriminate). }
  destruct x as [[|]|sx| |sx mx ex]; try contradiction;
    destruct y as [[|]|sy| |sy my ey]; try contradiction.
  - reflexivity.
  - destruct sy; discriminate.
  - destruct sx; discriminate.
  - pose proof (ord_finite_nonzero _ _ _ Hvx) as [_ Hsx].
    pose proof (ord_finite_nonzero _ _ _ Hvy) as [_ Hsy].
    assert (Hs : sx = sy).
    { destruct sx, sy; try reflexivity.
      - assert (0 < ord (S754_finite false my ey)) by (now apply Hsy).
        assert (~ 0 < ord (S754_finite true mx ex))
          by (intros Hp; apply Hsx in Hp; discriminate).
        lia.
      - assert (0 < ord (S754_finite false mx ex)) by (now apply Hsx).
        assert (~ 0 < ord (S754_finite true my ey))
          by (intros Hp; apply Hsy in Hp; discriminate).
        lia. }
    subst sy. cbn [SFcompare] in Hc.
    assert (He : ex = ey /\ mx = my).
    { destruct sx; destruct (Z.compare_spec ex ey) as [He| |]; try discriminate;
        (split; [exact He|]); apply Pos.compare_eq;
        change (Pos.compare_cont Eq mx my) with (Pos.compare mx my) in Hc;
        destruct (Pos.compare mx my); (reflexivity || discriminate). }
    destruct He as [-> ->]. reflexivity.
Qed.

(** An exact addition of plain numbers gives a plain number, never [-0]. *)
Lemma exact_add_plain (x y : float) :
  plain (Prim2SF x) -> exact_add x y = true ->
  plain (Prim2SF (x + y)%float) /\
  ord (Prim2SF (x + y)%float) = ord (Prim2SF x) + ord (Prim2SF y).
Proof.
  intros Hx He. unfold exact_add in He.
  apply andb_true_iff in He as [Hfin Hord]. apply Z.eqb_eq in Hord.
  split; [|exact Hord].
  destruct (is_finite_cases _ Hfin) as [[s Hs]|(s & m & e & Hs)];
    [|rewrite Hs; exact I].
  rewrite Hs. destruct s; [|exact I].
  (* the sum is [-0]: impossible from a plain [x] *)
  exfalso. rewrite Hs in Hord. cbn [ord] in Hord.
  pose proof (Prim2SF_valid x) as Hvx. pose proof (Prim2SF_valid y) as Hvy.
  rewrite add_spec in Hs. unfold SF64add in Hs.
  destruct (Prim2SF x) as [[|]|sx| |sx mx ex]; try contradiction;
    destruct (Prim2SF y) as [sy|sy| |sy my ey]; cbn [SFadd] in Hs;
    try discriminate.
  - destruct sy; discriminate.
  - pose proof (valid_finite_bounds _ _ _ Hvx) as (Hex & _).
    pose proof (valid_finite_bounds _ _ _ Hvy) as (Hey & _).
    set (ez := Z.min ex ey) in *.
    rewrite !shl_align_value in Hs by (subst ez; lia).
    cbn [ord] in Hord.
    assert (Hxv : Zpos mx * 2 ^ (ex + 1074)
                  = Zpos mx * 2 ^ (ex - ez) * 2 ^ (ez + 1074)).
    { rewrite <- Z.mul_assoc, <- Z.pow_add_r by (subst ez; lia).
      f_equal. f_equal. lia. }
    assert (Hyv : Zpos my * 2 ^ (ey + 1074)
                  = Zpos my * 2 ^ (ey - ez) * 2 ^ (ez + 1074)).
    { rewrite <- Z.mul_assoc, <- Z.pow_add_r by (subst ez; lia).
      f_equal. f_equal. lia. }
    rewrite Hxv, Hyv in Hord.
    assert (Hp : 0 < 2 ^ (ez + 1074))
      by (apply Z.pow_pos_nonneg; subst ez; lia).
    set (a := Zpos mx * 2 ^ (ex - ez)) in *.
    set (b := Zpos my * 2 ^ (ey - ez)) in *.
    set (w := 2 ^ (ez + 1074)) in *.
    assert (Hz : cond_Zopp sx a + cond_Zopp sy b = 0)
      by (destruct sx, sy; cbn [cond_Zopp] in *; nia).
    rewrite Hz in Hs. discriminate.
Qed.

Lemma exact_from_value (f : Subgroup -> float) (subgroups : list Subgroup) :
  forall acc,
    plain (Prim2SF acc) -> exact_from f acc subgroups = true ->
    plain (Prim2SF (fold_left (fun a b => (a + f b)%float) subgroups acc)) /\
    ord (Prim2SF (fold_left (fun a b => (a + f b)%float) subgroups acc))
    = ord (Prim2SF acc) + ord_sum f subgroups.
Proof.
  induction subgroups as [|b rest IH]; intros acc Hacc He.
  - cbn [fold_left ord_sum fold_right]. split; [exact Hacc|lia].
  - cbn [exact_from] in He. apply andb_true_iff in He as [He1 He2].
    destruct (exact_add_plain acc (f b) Hacc He1) as [Hp Ho].
    destruct (IH _ Hp He2) as [Hp' Ho'].
    cbn [fold_left]. split; [exact Hp'|].
    rewrite Ho', Ho.
    change (ord_sum f (b :: rest)) with (ord (Prim2SF (f b)) + ord_sum f rest).
    lia.
Qed.

Lemma ord_sum_permutation (f : Subgroup -> float)
    (subgroups subgroups' : list Subgroup) :
  Permutation subgroups subgroups' -> ord_sum f subgroups = ord_sum f subgroups'.
Proof.
  induction 1 as [|b l l' _ IH|a b l|l l' l'' _ IH1 _ IH2].
  - reflexivity.
  - change (ord (Prim2SF (f b)) + ord_sum f l = ord (Prim2SF (f b)) + ord_sum f l').
    lia.
  - change (ord (Prim2SF (f b)) + (ord (Prim2SF (f a)) + ord_sum f l)
            = ord (Prim2SF (f a)) + (ord (Prim2SF (f b)) + ord_sum f l)).
    lia.
  - lia.
Qed.

(** Sums that do not round do not depend on the order. *)
Lemma exact_running_sum_permutation (f : Subgroup -> float)
    (subgroups subgroups' : list Subgroup) :
  Permutation subgroups subgroups' ->
  exact_running_sum f subgroups = true ->
  exact_running_sum f subgroups' = true ->
  running_sum f subgroups = running_sum f subgroups'.
Proof.
  intros Hperm He He'.
  destruct (exact_from_value f subgroups 0%float I He) as [Hp Ho].
  destruct (exact_from_value f subgroups' 0%float I He') as [Hp' Ho'].
  unfold running_sum. apply Prim2SF_inj.
  apply ord_injective; try apply Prim2SF_valid; try assumption.
  rewrite Ho, Ho'. f_equal. now apply ord_sum_permutation.
Qed.

End ExactSums.

(** C9, as amended: the control limits are the same for a subgroup sequence
    and a permutation of it, in all six fields, whenever the left-to-right
    sums of the subgroup means and of the subgroup ranges are computed
    without rounding in both orders; and exchanging the first two subgroups
    never changes them, whatever the numbers are. *)
Theorem controlLimits_permutation (c : Constants)
    (subgroups subgroups' : list Subgroup) :
  Permutation subgroups subgroups' ->
  (exact_running_sum mean subgroups = true ->
   exact_running_sum mean subgroups' = true ->
   exact_running_sum range subgroups = true ->
   exact_running_sum range subgroups' = true ->
   xBarUcl (controlLimits c subgroups) = xBarUcl (controlLimits c subgroups') /\
   xBarLcl (controlLimits c subgroups) = xBarLcl (controlLimits c subgroups') /\
   xBarMean (controlLimits c subgroups) = xBarMean (controlLimits c subgroups') /\
   rangeUcl (controlLimits c subgroups) = rangeUcl (controlLimits c subgroups') /\
   rangeLcl (controlLimits c subgroups) = rangeLcl (controlLimits c subgroups') /\
   rangeMean (controlLimits c subgroups)
   = rangeMean (controlLimits c subgroups')) /\
  (forall a b rest,
      subgroups = a :: b :: rest -> subgroups' = b :: a :: rest ->
      controlLimits c subgroups = controlLimits c subgroups').
Proof.
  intros Hperm. split.
  - intros Hm Hm' Hr Hr'.
    assert (H : controlLimits c subgroups = controlLimits c subgroups').
    { apply controlLimits_of_sums.
      - now apply Permutation_length.
      - now apply exact_running_sum_permutation.
      - now apply exact_running_sum_permutation. }
    rewrite H. repeat split.
  - intros a b rest -> ->.
    apply controlLimits_of_sums; [reflexivity| |]; apply running_sum_swap.
Qed.

(** Four subgroups and the reverse order: no sum rounds, and the limits
    are the same. *)
Lemma controlLimits_permutation_witness :
  xBarMean (controlLimits {| A2 := 1.023; D3 := 0; D4 := 3.267 |}
              [ {| mean := 11; range := 2 |}; {| mean := 12.5; range := 3 |};
                {| mean := 10; range := 1 |}; {| mean := 11.75; range := 2.5 |} ])
  = xBarMean (controlLimits {| A2 := 1.023; D3 := 0; D4 := 3.267 |}
                [ {| mean := 11.75; range := 2.5 |}; {| mean := 10; range := 1 |};
                  {| mean := 12.5; range := 3 |}; {| mean := 11; range := 2 |} ]) /\
  rangeUcl (controlLimits {| A2 := 1.023; D3 := 0; D4 := 3.267 |}
              [ {| mean := 11; range := 2 |}; {| mean := 12.5; range := 3 |};
                {| mean := 10; range := 1 |}; {| mean := 11.75; range := 2.5 |} ])
  = rangeUcl (controlLimits {| A2 := 1.023; D3 := 0; D4 := 3.267 |}
                [ {| mean := 11.75; range := 2.5 |}; {| mean := 10; range := 1 |};
                  {| mean := 12.5; range := 3 |}; {| mean := 11; range := 2 |} ]).
Proof.
  destruct (controlLimits_permutation {| A2 := 1.023; D3 := 0; D4 := 3.267 |}
              [ {| mean := 11; range := 2 |}; {| mean := 12.5; range := 3 |};
                {| mean := 10; range := 1 |}; {| mean := 11.75; range := 2.5 |} ]
              [ {| mean := 11.75; range := 2.5 |}; {| mean := 10; range := 1 |};
                {| mean := 12.5; range := 3 |}; {| mean := 11; range := 2 |} ]
              ltac:(exact (Permutation_rev
                             [ {| mean := 11; range := 2 |};
                               {| mean := 12.5; range := 3 |};
                               {| mean := 10; range := 1 |};
                               {| mean := 11.75; range := 2.5 |} ])))
    as [H _].
  destruct (H ltac:(vm_compute; reflexivity) ltac:(vm_compute; reflexivity)
              ltac:(vm_compute; reflexivity) ltac:(vm_compute; reflexivity))
    as (_ & _ & Hmean & Hucl & _).
  split; assumption.
Defined.

(** X4: the control limits do not depend on the order of the subgroups
    when, in both orders, the sums of the means and of the ranges are
    computed without rounding. *)
Theorem controlLimits_permutation_exact (c : Constants)
    (subgroups subgroups' : list Subgroup) :
  Permutation subgroups subgroups' ->
  exact_running_sum mean subgroups = true ->
  exact_running_sum mean subgroups' = true ->
  exact_running_sum range subgroups = true ->
  exact_running_sum range subgroups' = true ->
  controlLimits c subgroups = controlLimits c subgroups'.
Proof.
  intros Hperm Hm Hm' Hr Hr'.
  apply controlLimits_of_sums.
  - now apply Permutation_length.
  - now apply exact_running_sum_permutation.
  - now apply exact_running_sum_permutation.
Qed.

Lemma controlLimits_permutation_exact_witness :
  controlLimits {| A2 := 0.729; D3 := 0; D4 := 2.575 |}
    [ {| mean := 10.5; range := 2 |}; {| mean := 12.25; range := 3 |};
      {| mean := 9.75; range := 1.5 |} ]
  = controlLimits {| A2 := 0.729; D3 := 0; D4 := 2.575 |}
    [ {| mean := 9.75; range := 1.5 |}; {| mean := 10.5; range := 2 |};
      {| mean := 12.25; range := 3 |} ].
Proof.
  apply controlLimits_permutation_exact.
  - apply Permutation_sym. apply perm_trans with
      [ {| mean := 10.5; range := 2 |}; {| mean := 9.75; range := 1.5 |};
        {| mean := 12.25; range := 3 |} ]; [apply perm_swap|].
    apply perm_skip, perm_swap.
  - vm_compute. reflexivity.
  - vm_compute. reflexivity.
  - vm_compute. reflexivity.
  - vm_compute. reflexivity.
Defined.

(** ** Inputs the specification rejects *)

(** C5, as amended: a sample size outside 1..5 never gives a result.  The
    table of constants has no entry for it; when the size is 6 or more, or
    when there is no record, the subgroups are computed and the handler
    then reports its one error message; with a negative size and at least
    one record the subgroup loop does not end, whatever the fuel.  The
    chart component labels its charts with the constants of size 1 for such
    a size.  The order of the specification limits is not looked at
    anywhere. *)
Theorem invalid_sample_size (fuel : nat) (selectedShifts : list Z)
    (sampleSize : Z) (inspectionData : list InspectionData) :
  let records := filteredData selectedShifts inspectionData in
  ~ (1 <= sampleSize <= 5) ->
  (forall analysis,
      handleAnalyze_try fuel selectedShifts sampleSize inspectionData
      <> SetAnalysisData analysis) /\
  constants sampleSize = None /\
  (6 <= sampleSize -> (length records <= fuel)%nat ->
   (exists subgroups,
      calculateSubgroups fuel (map ActualSpecification records) sampleSize
      = Some subgroups) /\
   handleAnalyze_try fuel selectedShifts sampleSize inspectionData
   = SetError "Error analyzing data") /\
  (records = [] ->
   calculateSubgroups fuel (map ActualSpecification records) sampleSize
   = Some [] /\
   handleAnalyze_try fuel selectedShifts sampleSize inspectionData
   = SetError "Error analyzing data") /\
  (sampleSize < 0 -> records <> [] ->
   calculateSubgroups fuel (map ActualSpecification records) sampleSize = None /\
   handleAnalyze_try fuel selectedShifts sampleSize inspectionData = OutOfFuel) /\
  Some (ControlCharts.current sampleSize) = ControlCharts.constants 1.
Proof.
  intros records Hsize.
  pose proof (constants_undefined sampleSize Hsize) as Hc.
  assert (Hshape : forall subgroups,
             calculateSubgroups fuel (map ActualSpecification records) sampleSize
             = Some subgroups ->
             handleAnalyze_try fuel selectedShifts sampleSize inspectionData
             = SetError "Error analyzing data").
  { intros subgroups Hsg. unfold handleAnalyze_try, analyze. fold records.
    rewrite Hsg, Hc. reflexivity. }
  split; [|split; [|split; [|split; [|split]]]].
  - intros analysis. unfold handleAnalyze_try, analyze. fold records.
    destruct (calculateSubgroups fuel (map ActualSpecification records)
                sampleSize); [rewrite Hc; discriminate|discriminate].
  - exact Hc.
  - intros H6 Hfuel.
    assert (Hsg : calculateSubgroups fuel (map ActualSpecification records)
                    sampleSize
                  = Some (map (fun k => statistics sampleSize
                                 (window (map ActualSpecification records)
                                    (Z.to_nat sampleSize) k))
                            (seq 0 (length (map ActualSpecification records)
                                    / Z.to_nat sampleSize))))
      by (apply calculateSubgroups_windows; [lia|now rewrite length_map]).
    split; [eexists; exact Hsg|]. exact (Hshape _ Hsg).
  - intros Hnil.
    assert (Hsg : calculateSubgroups fuel (map ActualSpecification records)
                    sampleSize = Some [])
      by (rewrite Hnil; destruct fuel; reflexivity).
    split; [exact Hsg|]. exact (Hshape _ Hsg).
  - intros H0 Hne.
    assert (Hsg : calculateSubgroups fuel (map ActualSpecification records)
                    sampleSize = None).
    { unfold calculateSubgroups.
      apply calculateSubgroups_loop_diverges; [assumption| |lia].
      destruct records; [congruence|discriminate]. }
    split; [exact Hsg|].
    unfold handleAnalyze_try, analyze. fold records. rewrite Hsg. reflexivity.
  - unfold ControlCharts.current.
    replace (ControlCharts.constants sampleSize) with (@None ControlCharts.Constants);
      [reflexivity|].
    destruct sampleSize as [|p|p]; try reflexivity.
    assert (6 <= Zpos p) by lia.
    do 3 (destruct p as [p|p|]; try reflexivity; try lia).
Qed.

(** Seven records and sample size 6: one subgroup is computed, and the
    handler reports its error. *)
Lemma invalid_sample_size_witness :
  constants 6 = None /\
  (exists subgroups,
     calculateSubgroups 7 [1; 2; 3; 4; 5; 6; 7]%float 6 = Some subgroups) /\
  handleAnalyze_try 7 [1] 6 (inspections 1 5 15 [1; 2; 3; 4; 5; 6; 7]%float)
  = SetError "Error analyzing data".
Proof.
  destruct (invalid_sample_size 7 [1] 6
              (inspections 1 5 15 [1; 2; 3; 4; 5; 6; 7]%float)
              ltac:(lia)) as (_ & Hc & H6 & _).
  split; [exact Hc|].
  exact (H6 ltac:(lia) ltac:(vm_compute; lia)).
Defined.

(** Specification limits in the wrong order are analysed like any others. *)
Lemma invalid_configuration_counterexample :
  (5 <=? 15)%float = true /\
  exists analysis,
    handleAnalyze_try 4 [1] 2 (inspections 1 15 5 [10; 12; 11; 13]%float)
      = SetAnalysisData analysis /\
    usl (metrics analysis) = 5%float /\
    lsl (metrics analysis) = 15%float /\
    cp (metrics analysis) = (-1.1785)%float.
Proof.
  split; [reflexivity|].
  eexists. split; [vm_compute; reflexivity|]. repeat split.
Qed.

(** C6, as amended: without any record the subgrouping returns no
    subgroup and does not fail; the body of the handler then throws a
    [TypeError], which the handler catches and reports as its one error
    message, storing no result, whatever the sample size; and the
    histogram of no measurement is the empty series with
    [numberOfBins = 0], not a failure. *)
Theorem insufficient_data (fuel : nat) (selectedShifts : list Z)
    (sampleSize : Z) (inspectionData : list InspectionData) :
  let records := filteredData selectedShifts inspectionData in
  (records = [] ->
   calculateSubgroups fuel (map ActualSpecification records) sampleSize
   = Some [] /\
   analyze fuel sampleSize records = Some (Throw TypeError) /\
   handleAnalyze_try fuel selectedShifts sampleSize inspectionData
   = SetError "Error analyzing data") /\
  calculateDistributionData []
  = Normal {| distributionData_data := []; numberOfBins := 0 |}.
Proof.
  intros records. split; [|reflexivity].
  intros Hnil.
  assert (Hsg : calculateSubgroups fuel (map ActualSpecification records)
                  sampleSize = Some [])
    by (rewrite Hnil; destruct fuel; reflexivity).
  assert (Han : analyze fuel sampleSize records = Some (Throw TypeError)).
  { unfold analyze. rewrite Hsg, Hnil.
    destruct (constants sampleSize); reflexivity. }
  split; [exact Hsg|]. split; [exact Han|].
  unfold handleAnalyze_try. fold records. rewrite Han. reflexivity.
Qed.

(** One measurement and sample size 2: no subgroup, no failure, NaN in the
    result; and the histogram of no measurement does not fail. *)
Lemma insufficient_data_counterexample :
  calculateSubgroups 1 [10]%float 2 = Some [] /\
  (exists analysis,
     handleAnalyze_try 1 [1] 2 (inspections 1 5 15 [10]%float)
       = SetAnalysisData analysis /\
     xBar (metrics analysis) = nan /\
     cpk (metrics analysis) = nan /\
     xBarUcl (limits (controlCharts analysis)) = nan) /\
  exists distributionData,
    calculateDistributionData [] = Normal distributionData.
Proof.
  split; [reflexivity|]. split.
  - eexists. split; [vm_compute; reflexivity|]. repeat split.
  - eexists. reflexivity.
Qed.

(** Records of another shift only: nothing is left to analyse. *)
Lemma insufficient_data_witness :
  filteredData [1] (inspections 2 5 15 [10; 12]%float) = [] /\
  analyze 2 2 (filteredData [1] (inspections 2 5 15 [10; 12]%float))
  = Some (Throw TypeError) /\
  handleAnalyze_try 2 [1] 2 (inspections 2 5 15 [10; 12]%float)
  = SetError "Error analyzing data".
Proof.
  split; [reflexivity|].
  destruct (proj1 (insufficient_data 2 [1] 2
                     (inspections 2 5 15 [10; 12]%float)) eq_refl)
    as (_ & H1 & H2).
  split; assumption.
Defined.

(** ** Histogram *)

(** C4 at the zero-variance input of scenario D: eight copies of 10.  The
    bin width is 0, every bin index is NaN, and no measurement is counted
    in any of the three bins. *)
Theorem histogram_zero_variance :
  let measurements := [10; 10; 10; 10; 10; 10; 10; 10]%float in
  ((Math_max measurements - Math_min measurements) / 3 = 0)%float /\
  Math_min [ Math_floor ((10 - Math_min measurements) / 0)%float; (3 - 1)%float ]
  = nan /\
  calculateDistributionData measurements
  = Normal {| distributionData_data :=
                [ Some (Bin.make 10 (Count 0)); Some (Bin.make 10 (Count 0));
                  Some (Bin.make 10 (Count 0)) ];
              numberOfBins := 3 |} /\
  total_count
    [ Some (Bin.make 10 (Count 0)); Some (Bin.make 10 (Count 0));
      Some (Bin.make 10 (Count 0)) ] = 0 /\
  Z.of_nat (length measurements) = 8.
Proof.
  cbv zeta. repeat split; vm_compute; reflexivity.
Qed.

(** With distinct minimum and maximum the counts of scenario A add up, the
    maximum being clamped into the last bin. *)
Example histogram_scenario_A :
  exists distributionData,
    calculateDistributionData [10; 12; 11; 13; 9; 11; 10; 12]%float
      = Normal distributionData /\
    map (option_map Bin.y) (distributionData_data distributionData)
      = [ Some (Count 3); Some (Count 2); Some (Count 3) ] /\
    total_count (distributionData_data distributionData) = 8.
Proof.
  eexists. split; [vm_compute; reflexivity|]. split; reflexivity.
Qed.

(** ** The histogram with a positive bin width *)

Section Histogram.
Import FloatFacts FloatOrder.

Lemma finite_Prim2SF (x : float) :
  is_finite x = true -> finite_or_zero (Prim2SF x).
Proof.
  intros H. destruct (is_finite_cases x H) as [[s ->]|(s & m & e & ->)]; exact I.
Qed.

Lemma finite_or_zero_not_nan (x : spec_float) :
  finite_or_zero x -> x <> S754_nan.
Proof. destruct x; (contradiction || discriminate). Qed.

Lemma Prim2SF_not_nan (x : float) :
  Prim2SF x <> S754_nan -> is_nan x = false.
Proof.
  intros H. unfold is_nan. rewrite eqb_spec. unfold SFeqb.
  rewrite SFcompare_ord; try apply Prim2SF_valid; try assumption.
  now rewrite Z.compare_refl.
Qed.

(** [<] on numbers that are not NaN is [<] on their scaled values. *)
Lemma ltb_ord (x y : float) :
  Prim2SF x <> S754_nan -> Prim2SF y <> S754_nan ->
  (x <? y)%float = (ord (Prim2SF x) <? ord (Prim2SF y)).
Proof.
  intros Hx Hy. rewrite ltb_spec. unfold SFltb.
  rewrite SFcompare_ord; try apply Prim2SF_valid; try assumption.
  unfold Z.ltb. destruct (ord (Prim2SF x) ?= ord (Prim2SF y)); reflexivity.
Qed.

Lemma finite_ord_bound (x : float) :
  finite_or_zero (Prim2SF x) -> - 2 ^ 2100 < ord (Prim2SF x) < 2 ^ 2100.
Proof.
  intros H. pose proof (Prim2SF_valid x) as Hv.
  destruct (Prim2SF x) as [s|s| |s m e]; try contradiction.
  - cbn [ord]. split; [apply Z.opp_neg_pos|]; apply Z.pow_pos_nonneg; lia.
  - pose proof (valid_finite_bounds _ _ _ Hv) as (He & Hm & _).
    pose proof (pos_value_bounds m e He Hm).
    cbn [ord]. destruct s; cbn [cond_Zopp]; lia.
Qed.

Lemma is_zero_ord (x : float) :
  PrimFloat.is_zero x = true -> Prim2SF x <> S754_nan /\ ord (Prim2SF x) = 0.
Proof.
  unfold PrimFloat.is_zero. rewrite eqb_spec.
  change (Prim2SF zero) with (S754_zero false).
  destruct (Prim2SF x) as [s|s| |s m e]; cbn.
  - intros _. split; [discriminate|reflexivity].
  - destruct s; discriminate.
  - discriminate.
  - destruct s; discriminate.
Qed.

(** [Math.min] of finite numbers, from a lower bound that is not NaN on:
    the result is the bound or an argument, and it is below both. *)
Lemma Math_min_from_lower (args : list float) :
  forall lowest,
    Forall (fun v => is_finite v = true) args ->
    Prim2SF lowest <> S754_nan ->
    (Math_min_from lowest args = lowest \/ In (Math_min_from lowest args) args) /\
    ord (Prim2SF (Math_min_from lowest args)) <= ord (Prim2SF lowest) /\
    Forall (fun v => ord (Prim2SF (Math_min_from lowest args)) <= ord (Prim2SF v))
      args.
Proof.
  induction args as [|number rest IH]; intros lowest Hfin Hlow.
  - cbn [Math_min_from]. split; [now left|]. split; [lia|constructor].
  - inversion Hfin as [|? ? Hnum Hrest]; subst.
    pose proof (finite_or_zero_not_nan _ (finite_Prim2SF _ Hnum)) as Hnn.
    cbn [Math_min_from]. rewrite (Prim2SF_not_nan _ Hnn).
    assert (Hstep : forall next,
               Prim2SF next <> S754_nan ->
               ord (Prim2SF next) <= ord (Prim2SF lowest) ->
               ord (Prim2SF next) <= ord (Prim2SF number) ->
               (next = lowest \/ next = number) ->
               (Math_min_from next rest = lowest \/
                In (Math_min_from next rest) (number :: rest)) /\
               ord (Prim2SF (Math_min_from next rest)) <= ord (Prim2SF lowest) /\
               Forall (fun v => ord (Prim2SF (Math_min_from next rest))
                                <= ord (Prim2SF v)) (number :: rest)).
    { intros next Hn Hl Hv Hor.
      destruct (IH next Hrest Hn) as (Hin & Hle & Hall).
      split; [|split].
      - destruct Hin as [->|Hin]; [|right; now right].
        destruct Hor as [->| ->]; [now left|right; now left].
      - lia.
      - constructor; [lia|exact Hall]. }
    destruct (is_neg_zero number && is_pos_zero lowest) eqn:Hz.
    + apply andb_true_iff in Hz as [Hz1 Hz2].
      apply andb_true_iff in Hz1 as [Hz1 _]. apply andb_true_iff in Hz2 as [Hz2 _].
      apply is_zero_ord in Hz1 as [_ Hz1]. apply is_zero_ord in Hz2 as [_ Hz2].
      apply Hstep; [assumption|lia|lia|now right].
    + rewrite (ltb_ord number lowest) by assumption.
      destruct (Z.ltb_spec (ord (Prim2SF number)) (ord (Prim2SF lowest))).
      * apply Hstep; [assumption|lia|lia|now right].
      * apply Hstep; [assumption|lia|lia|now left].
Qed.

(** The minimum of a non-empty array of finite numbers is one of them and
    is below all of them. *)
Lemma Math_min_lower (specifications : list float) :
  specifications <> [] ->
  Forall (fun v => is_finite v = true) specifications ->
  is_finite (Math_min specifications) = true /\
  Forall (fun v => ord (Prim2SF (Math_min specifications)) <= ord (Prim2SF v))
    specifications.
Proof.
  intros Hne Hfin.
  destruct (Math_min_from_lower specifications infinity Hfin ltac:(discriminate))
    as (Hin & _ & Hall).
  fold (Math_min specifications) in *.
  split; [|exact Hall].
  destruct Hin as [Hinf|Hin].
  - destruct specifications as [|v rest]; [congruence|].
    inversion Hfin as [|? ? Hv _]; subst. inversion Hall as [|? ? Hle _]; subst.
    pose proof (finite_ord_bound v (finite_Prim2SF v Hv)) as Hb.
    rewrite Hinf in Hle. change (ord (Prim2SF infinity)) with (2 ^ 2100) in Hle.
    lia.
  - rewrite Forall_forall in Hfin. now apply Hfin.
Qed.

Lemma float2Z_finite (x : float) (i : Z) :
  float2Z x = Some i -> finite_or_zero (Prim2SF x).
Proof.
  unfold float2Z. destruct (Prim2SF x); (discriminate || intros _; exact I).
Qed.

Lemma finite_lt_infinity (x : float) :
  finite_or_zero (Prim2SF x) -> (x <? infinity)%float = true.
Proof.
  intros H. rewrite ltb_ord;
    [|now apply finite_or_zero_not_nan|discriminate].
  pose proof (finite_ord_bound x H).
  change (ord (Prim2SF infinity)) with (2 ^ 2100).
  apply Z.ltb_lt. lia.
Qed.

(** The clamped bin index of a measurement is an index of the array. *)
Lemma bin_index_in_range (spec min binWidth : float) (k : Z) :
  is_finite spec = true -> is_finite min = true ->
  ord (Prim2SF min) <= ord (Prim2SF spec) ->
  is_finite binWidth = true -> (0 <? binWidth)%float = true ->
  1 <= k <= 2 ^ 16 ->
  exists i,
    float2Z (Math_min [ Math_floor ((spec - min) / binWidth)%float;
                        (Z2float k - 1)%float ]) = Some i /\
    0 <= i < k.
Proof.
  intros Hspec Hmin Hle Hbw Hpos Hk.
  assert (H53 : 2 ^ 16 < 2 ^ 53) by (apply Z.pow_lt_mono_r; lia).
  (* the difference and the quotient are not negative *)
  assert (Hd : nonneg (Prim2SF (spec - min)%float)).
  { rewrite sub_spec.
    apply SFsub_nonneg; try apply Prim2SF_valid; try apply finite_Prim2SF;
      assumption. }
  assert (Hw : exists mb eb, Prim2SF binWidth = S754_finite false mb eb).
  { rewrite ltb_spec in Hpos. change (Prim2SF 0%float) with (S754_zero false) in Hpos.
    destruct (is_finite_cases binWidth Hbw) as [[s Hs]|(s & m & e & Hs)];
      rewrite Hs in Hpos.
    - discriminate.
    - destruct s; [discriminate|eauto]. }
  destruct Hw as (mb & eb & Hw).
  assert (Hq : nonneg (Prim2SF ((spec - min) / binWidth)%float)).
  { rewrite div_spec, Hw. now apply SFdiv_nonneg. }
  (* the clamp *)
  rewrite Z2float_sub_one by lia.
  set (fl := Math_floor ((spec - min) / binWidth)%float).
  set (r := Z2float (k - 1)).
  assert (Hr : float2Z r = Some (k - 1)) by (apply float2Z_Z2float; lia).
  pose proof (float2Z_finite r _ Hr) as Hrf.
  pose proof (Prim2SF_not_nan r (finite_or_zero_not_nan _ Hrf)) as Hrn.
  pose proof (finite_lt_infinity r Hrf) as Hri.
  unfold Math_min. cbn [Math_min_from].
  change (is_pos_zero infinity) with false. rewrite andb_false_r.
  destruct (Math_floor_nonneg _ Hq) as [Hinf|(i & Hi & Hi0)]; fold fl in Hinf || fold fl in Hi.
  - rewrite Hinf. change (is_nan infinity) with false.
    change (infinity <? infinity)%float with false. cbv iota.
    rewrite Hrn. change (is_pos_zero infinity) with false. rewrite andb_false_r.
    rewrite Hri. exists (k - 1). split; [exact Hr|lia].
  - pose proof (float2Z_finite fl _ Hi) as Hff.
    rewrite (Prim2SF_not_nan fl (finite_or_zero_not_nan _ Hff)).
    rewrite (finite_lt_infinity fl Hff). rewrite Hrn.
    destruct (is_neg_zero r && is_pos_zero fl);
      [exists (k - 1); split; [exact Hr|lia]|].
    rewrite (ltb_ord r fl) by (now apply finite_or_zero_not_nan).
    destruct (Z.ltb_spec (ord (Prim2SF r)) (ord (Prim2SF fl))) as [Hlt|Hge];
      [exists (k - 1); split; [exact Hr|lia]|].
    exists i. split; [exact Hi|].
    rewrite (float2Z_ord _ _ Hi), (float2Z_ord _ _ Hr) in Hge.
    assert (0 < 2 ^ 1074) by (apply Z.pow_pos_nonneg; lia).
    nia.
Qed.

(** *** Counting *)

Lemma cells_total_cons (n : Z) (binCounts : list (option count)) :
  cells_total (Some (Count n) :: binCounts) = n + cells_total binCounts.
Proof. reflexivity. Qed.

Lemma update_nth_incr (binCounts : list (option count)) :
  forall i, (i < length binCounts)%nat -> all_counts binCounts ->
    all_counts (update_nth i incr binCounts) /\
    length (update_nth i incr binCounts) = length binCounts /\
    cells_total (update_nth i incr binCounts) = cells_total binCounts + 1.
Proof.
  induction binCounts as [|c rest IH]; intros i Hi Hall; [simpl in Hi; lia|].
  inversion Hall as [|? ? [n ->] Hrest]; subst.
  destruct i as [|i]; cbn [update_nth incr].
  - split; [constructor; eauto|]. split; [reflexivity|].
    rewrite !cells_total_cons. lia.
  - cbn [length] in Hi. destruct (IH i ltac:(lia) Hrest) as (Ha & Hl & Ht).
    split; [constructor; eauto|]. split; [cbn [length]; lia|].
    rewrite !cells_total_cons. lia.
Qed.

Lemma increment_at_counted (binIndex : float) (binCounts : list (option count))
    (i : Z) :
  float2Z binIndex = Some i -> 0 <= i < Z.of_nat (length binCounts) ->
  all_counts binCounts ->
  all_counts (increment_at binIndex binCounts) /\
  length (increment_at binIndex binCounts) = length binCounts /\
  cells_total (increment_at binIndex binCounts) = cells_total binCounts + 1.
Proof.
  intros Hi Hrange Hall. unfold increment_at. rewrite Hi.
  destruct (Z.leb_spec 0 i); [|lia].
  destruct (Z.ltb_spec i (Z.of_nat (length binCounts))); [|lia].
  cbn [andb]. apply update_nth_incr; [lia|assumption].
Qed.

Lemma forEach_counted (index : float -> float) (k : nat)
    (specifications : list float) :
  Forall (fun spec => exists i, float2Z (index spec) = Some i /\
                                0 <= i < Z.of_nat k) specifications ->
  forall binCounts,
    all_counts binCounts -> length binCounts = k ->
    let result :=
      fold_left (fun binCounts spec => increment_at (index spec) binCounts)
        specifications binCounts in
    all_counts result /\ length result = k /\
    cells_total result
    = cells_total binCounts + Z.of_nat (length specifications).
Proof.
  induction 1 as [|spec rest (i & Hi & Hrange) _ IH]; intros binCounts Hall Hlen.
  - cbv zeta. cbn [fold_left length].
    split; [assumption|]. split; [assumption|]. change (Z.of_nat 0) with 0. lia.
  - cbv zeta. cbn [fold_left length].
    destruct (increment_at_counted (index spec) binCounts i Hi
                ltac:(rewrite Hlen; exact Hrange) Hall) as (Ha & Hl & Ht).
    destruct (IH (increment_at (index spec) binCounts) Ha ltac:(lia))
      as (Ha' & Hl' & Ht').
    split; [exact Ha'|]. split; [exact Hl'|]. rewrite Ht', Ht. lia.
Qed.

Lemma mapi_from_counts (f : Z -> float) (binCounts : list (option count)) :
  all_counts binCounts ->
  forall i,
    Forall (fun b => exists x n, b = Some (Bin.make x (Count n)))
      (mapi_from i (fun count j => Bin.make (f j) count) binCounts) /\
    length (mapi_from i (fun count j => Bin.make (f j) count) binCounts)
    = length binCounts /\
    total_count (mapi_from i (fun count j => Bin.make (f j) count) binCounts)
    = cells_total binCounts.
Proof.
  induction 1 as [|c rest [n ->] _ IH]; intros i.
  - cbn. split; [constructor|]. split; reflexivity.
  - destruct (IH (i + 1)) as (Ha & Hl & Ht).
    cbn [mapi_from option_map length].
    split; [constructor; eauto|]. split; [lia|].
    rewrite cells_total_cons, <- Ht. reflexivity.
Qed.

Lemma repeat_counts (n : nat) :
  all_counts (repeat (Some (Count 0)) n) /\
  cells_total (repeat (Some (Count 0)) n) = 0.
Proof.
  induction n as [|n [IH1 IH2]]; cbn [repeat].
  - split; [constructor|reflexivity].
  - split; [constructor; eauto|]. rewrite cells_total_cons. lia.
Qed.

End Histogram.

(** X1: when the bin width is a positive finite number, every measurement
    is counted in exactly one of the [numberOfBins] bins: its clamped bin
    index is an index of the array, and the counts add up to the number of
    measurements. *)
Theorem histogram_counts_every_measurement (specifications : list float) :
  specifications <> [] ->
  Z.of_nat (length specifications) < 2 ^ 32 ->
  forallb is_finite specifications = true ->
  let bins :=
    Math_ceil (Math_sqrt (Z2float (Z.of_nat (length specifications)))) in
  let binWidth :=
    ((Math_max specifications - Math_min specifications) / bins)%float in
  is_finite binWidth = true ->
  (0 <? binWidth)%float = true ->
  exists distributionData,
    calculateDistributionData specifications = Normal distributionData /\
    numberOfBins distributionData = bins /\
    float2Z bins
    = Some (Z.of_nat (length (distributionData_data distributionData))) /\
    Forall (fun b => exists x n, b = Some (Bin.make x (Count n)))
      (distributionData_data distributionData) /\
    Forall (fun spec => exists i,
              float2Z (Math_min
                         [ Math_floor
                             ((spec - Math_min specifications) / binWidth)%float;
                           (bins - 1)%float ]) = Some i /\
              0 <= i < Z.of_nat (length (distributionData_data distributionData)))
      specifications /\
    total_count (distributionData_data distributionData)
    = Z.of_nat (length specifications).
Proof.
  intros Hne Hlen Hfin bins binWidth Hbwf Hbwp.
  assert (Hn : 0 < Z.of_nat (length specifications))
    by (destruct specifications; [congruence|cbn [length]; lia]).
  destruct (FloatFacts.ceil_sqrt_length (Z.of_nat (length specifications))
              ltac:(lia)) as (k & Hk & Hk16 & Hk1).
  specialize (Hk1 Hn).
  assert (H53 : 2 ^ 16 < 2 ^ 53) by (apply Z.pow_lt_mono_r; lia).
  assert (Hfk : float2Z (Z2float k) = Some k)
    by (apply FloatFacts.float2Z_Z2float; lia).
  assert (Hall : Forall (fun v => is_finite v = true) specifications).
  { apply Forall_forall. rewrite forallb_forall in Hfin. exact Hfin. }
  destruct (Math_min_lower specifications Hne Hall) as (Hminf & Hminle).
  subst binWidth bins. rewrite Hk in *.
  set (binWidth :=
         ((Math_max specifications - Math_min specifications) / Z2float k)%float)
    in *.
  set (index := fun spec : float =>
         Math_min [ Math_floor ((spec - Math_min specifications) / binWidth)%float;
                    (Z2float k - 1)%float ]).
  assert (Hindex : Forall (fun spec => exists i, float2Z (index spec) = Some i /\
                                0 <= i < Z.of_nat (Z.to_nat k)) specifications).
  { rewrite Forall_forall in *. intros spec Hin.
    rewrite Z2Nat.id by lia.
    apply bin_index_in_range; auto; lia. }
  destruct (repeat_counts (Z.to_nat k)) as (Hrep & Hrep0).
  destruct (forEach_counted index (Z.to_nat k) specifications Hindex
              (repeat (Some (Count 0)) (Z.to_nat k)) Hrep (repeat_length _ _))
    as (Hc & Hl & Ht).
  unfold calculateDistributionData. rewrite Hk.
  unfold new_Array_fill0. rewrite Hfk.
  destruct (Z.leb_spec 0 k); [|lia].
  destruct (Z.ltb_spec k (2 ^ 32)); [|lia].
  cbn [andb bind]. fold binWidth. fold index.
  eexists. split; [reflexivity|].
  cbn [numberOfBins distributionData_data].
  set (binCounts := fold_left _ specifications _) in *.
  destruct (mapi_from_counts
              (fun i => (Math_min specifications + Z2float i * binWidth
                         + binWidth / 2)%float) binCounts Hc 0)
    as (Hm1 & Hm2 & Hm3).
  split; [reflexivity|]. split; [|split; [|split]].
  - rewrite Hm2, Hl. f_equal. lia.
  - exact Hm1.
  - rewrite Hm2, Hl. exact Hindex.
  - rewrite Hm3, Ht, Hrep0. lia.
Qed.

Lemma histogram_counts_every_measurement_witness :
  exists distributionData,
    calculateDistributionData [10; 12; 11; 13; 9; 11; 10; 12]%float
      = Normal distributionData /\
    total_count (distributionData_data distributionData) = 8.
Proof.
  destruct (histogram_counts_every_measurement
              [10; 12; 11; 13; 9; 11; 10; 12]%float
              ltac:(discriminate) ltac:(vm_compute; reflexivity)
              ltac:(vm_compute; reflexivity) ltac:(vm_compute; reflexivity)
              ltac:(vm_compute; reflexivity))
    as (distributionData & H1 & _ & _ & _ & _ & H2).
  exists distributionData. split; assumption.
Defined.

(** * The charts, the report and further properties of the analysis *)

(** ** Rounding to nearest *)

Module FloatRounding.
Import FloatFacts FloatOrder.

Lemma iter_pos_nat {A : Type} (f : A -> A) (n : positive) :
  forall x, iter_pos f n x = Nat.iter (Pos.to_nat n) f x.
Proof.
  induction n as [n IH|n IH|]; intros x; cbn [iter_pos].
  - rewrite !IH. rewrite Pos2Nat.inj_xI.
    replace (S (2 * Pos.to_nat n)) with (Pos.to_nat n + (Pos.to_nat n + 1))%nat by lia.
    rewrite !Nat.iter_add. reflexivity.
  - rewrite !IH. rewrite Pos2Nat.inj_xO.
    replace (2 * Pos.to_nat n)%nat with (Pos.to_nat n + Pos.to_nat n)%nat by lia.
    rewrite Nat.iter_add. reflexivity.
  - reflexivity.
Qed.

Lemma shr_1_spec (m : Z) (r s : bool) :
  0 <= m ->
  shr_1 {| shr_m := m; shr_r := r; shr_s := s |}
  = {| shr_m := m / 2; shr_r := Z.odd m; shr_s := r || s |}.
Proof.
  intros Hm. destruct m as [|[p|p|]|p]; try lia; cbn [shr_1].
  - reflexivity.
  - f_equal. change (Z.pos p~1) with (1 + 2 * Z.pos p).
    rewrite Z.add_comm, Z.mul_comm, Z.div_add_l by lia. reflexivity.
  - f_equal. change (Z.pos p~0) with (2 * Z.pos p).
    rewrite Z.mul_comm, Z.div_mul by lia. reflexivity.
  - reflexivity.
Qed.

(** Shifting an exactly known mantissa right by [k] bits leaves its
    quotient by [2^k]; the round and sticky bits are both clear exactly
    when nothing was shifted out. *)
Lemma iter_shr_1_spec (M : Z) (k : nat) :
  0 <= M ->
  let mrs := Nat.iter k shr_1 {| shr_m := M; shr_r := false; shr_s := false |} in
  shr_m mrs = M / 2 ^ Z.of_nat k /\
  (shr_r mrs || shr_s mrs = false <-> M mod 2 ^ Z.of_nat k = 0).
Proof.
  intros HM. induction k as [|k IH].
  - cbn. rewrite Z.div_1_r, Z.mod_1_r. split; [reflexivity|]. split; reflexivity.
  - cbv zeta in *. rewrite Nat.iter_succ.
    destruct (Nat.iter k shr_1 _) as [m r s]. cbn [shr_m shr_r shr_s] in IH.
    destruct IH as [Hm Hf].
    assert (Hpow : 0 < 2 ^ Z.of_nat k) by (apply Z.pow_pos_nonneg; lia).
    assert (Hm0 : 0 <= m) by (rewrite Hm; apply Z.div_pos; lia).
    rewrite shr_1_spec by assumption. cbn [shr_m shr_r shr_s].
    rewrite Nat2Z.inj_succ, Z.pow_succ_r by lia.
    split.
    + rewrite Hm. rewrite Z.div_div by lia. f_equal. lia.
    + rewrite orb_false_iff. rewrite Hf.
      rewrite <- Z.negb_even, negb_false_iff, Z.even_spec.
      subst m. clear Hf Hm0.
      split.
      * intros [[c Hc] Hr].
        pose proof (Z.div_mod M (2 ^ Z.of_nat k) ltac:(lia)) as E.
        rewrite Hc, Hr in E.
        apply Z.mod_divide; [lia|]. exists c. lia.
      * intros H0. apply Z.mod_divide in H0; [|lia]. destruct H0 as [c Hc].
        split.
        -- exists c. rewrite Hc.
           replace (c * (2 * 2 ^ Z.of_nat k)) with (2 * c * 2 ^ Z.of_nat k) by lia.
           rewrite Z.div_mul by lia. reflexivity.
        -- rewrite Hc.
           replace (c * (2 * 2 ^ Z.of_nat k)) with (2 * c * 2 ^ Z.of_nat k) by lia.
           apply Z.mod_mul. lia.
Qed.

Lemma round_nearest_even_bounds (mrs : shr_record) :
  let q := round_nearest_even (shr_m mrs) (loc_of_shr_record mrs) in
  shr_m mrs <= q <= shr_m mrs + 1 /\
  (shr_r mrs || shr_s mrs = false -> q = shr_m mrs).
Proof.
  destruct mrs as [m [|] [|]]; cbn; try destruct (Z.even m); split; (lia || discriminate || reflexivity).
Qed.


Lemma shl_align_snd (m : positive) (e e' : Z) :
  e' <= e -> snd (shl_align m e e') = e'.
Proof.
  intros H. unfold shl_align.
  destruct (e' - e) as [|d|d] eqn:E; cbn [snd]; lia.
Qed.

Lemma fexp_eq (d : Z) : fexp prec emax d = Z.max (d - 53) (-1074).
Proof. reflexivity. Qed.

(** The second normalisation step of [binary_round_aux]: a mantissa of 53
    bits stays, and [2^53] becomes [2^52] with the exponent raised. *)
Lemma round_stage2 (q1 e1 : Z) :
  2 ^ 52 <= q1 <= 2 ^ 53 -> -1074 <= e1 ->
  exists (mrs : shr_record) (e2 : Z) (m2 : positive),
    shr_fexp prec emax q1 e1 loc_Exact = (mrs, e2) /\
    shr_m mrs = Zpos m2 /\
    Zpos m2 * 2 ^ (e2 + 1074) = q1 * 2 ^ (e1 + 1074) /\
    2 ^ 52 <= Zpos m2 < 2 ^ 53 /\ e1 <= e2.
Proof.
  intros Hq He. unfold shr_fexp. rewrite fexp_eq.
  destruct (Z.eq_dec q1 (2 ^ 53)) as [->|Hne].
  - change (Zdigits2 (2 ^ 53)) with 54.
    replace (Z.max (54 + e1 - 53) (-1074) - e1) with 1 by lia.
    eexists _, _, _. split; [reflexivity|].
    cbn [shr_record_of_loc shr iter_pos shr_1 shr_m].
    change (2 ^ 53) with (Zpos (xO (Z.to_pos (2 ^ 52)))).
    cbn [shr_1 shr_m].
    split; [reflexivity|].
    split.
    + replace (e1 + 1 + 1074) with (Z.succ (e1 + 1074)) by lia.
      rewrite Z.pow_succ_r by lia.
      change (Z.pos (Z.to_pos (2 ^ 52))~0) with (2 * Z.pos (Z.to_pos (2 ^ 52))).
      lia.
    + split; [|lia]. change (Z.pos (Z.to_pos (2 ^ 52))) with (2 ^ 52). lia.
  - assert (Hd : Zdigits2 q1 = 53) by (apply Zdigits2_bounds; lia).
    rewrite Hd.
    replace (Z.max (53 + e1 - 53) (-1074) - e1) with 0 by lia.
    destruct q1 as [|m|m]; try lia.
    exists {| shr_m := Zpos m; shr_r := false; shr_s := false |}, e1, m.
    split; [reflexivity|]. split; [reflexivity|]. split; [reflexivity|]. lia.
Qed.

(** What rounding to nearest does to a positive integer multiple of a
    power of two: the value is kept when the mantissa has at most 53 bits,
    and otherwise replaced by one of the two neighbouring multiples of the
    quantum, the value itself when it is such a multiple.  Values are
    scaled by [2^1074]. *)
Lemma binary_round_spec (p : positive) (e : Z) :
  -1074 <= e ->
  exists V',
    ((binary_round prec emax false p e = S754_infinity false /\ 2 ^ 2098 <= V') \/
     (exists m2 e2,
        binary_round prec emax false p e = S754_finite false m2 e2 /\
        Zpos m2 * 2 ^ (e2 + 1074) = V' /\ -1074 <= e2 <= 971)) /\
    (V' = Zpos p * 2 ^ (e + 1074) \/
     exists n q1,
       0 < n /\ n = Zdigits2 (Zpos p) - 53 /\
       2 ^ 52 <= Zpos p / 2 ^ n /\
       Zpos p / 2 ^ n <= q1 <= Zpos p / 2 ^ n + 1 /\
       (Zpos p mod 2 ^ n = 0 -> q1 = Zpos p / 2 ^ n) /\
       V' = q1 * 2 ^ (e + n + 1074)).
Proof.
  intros He.
  pose proof (Zdigits2_range p) as Hr.
  remember (binary_round prec emax false p e) as R eqn:HR.
  set (dp := Zdigits2 (Zpos p)) in *.
  assert (Hdp : 1 <= dp) by (subst dp; cbn [Zdigits2]; lia).
  unfold binary_round in HR. change (Z.pos (digits2_pos p)) with dp in HR.
  rewrite fexp_eq in HR.
  destruct (Z.le_gt_cases dp 53) as [Hsmall|Hbig].
  - (* no bit is lost *)
    set (fe := Z.max (dp + e - 53) (-1074)) in *.
    assert (Hfe : fe <= e) by (subst fe; lia).
    pose proof (shl_align_value p e fe Hfe) as Hv.
    pose proof (shl_align_snd p e fe Hfe) as Hs.
    destruct (shl_align p e fe) as [p' e']. cbn [fst snd] in Hv, Hs. subst e'.
    assert (Hpow : 0 < 2 ^ (e - fe)) by (apply Z.pow_pos_nonneg; lia).
    assert (Hd' : Zdigits2 (Zpos p') = dp + (e - fe)).
    { apply Zdigits2_bounds; [|lia]. rewrite Hv.
      replace (dp + (e - fe) - 1) with (dp - 1 + (e - fe)) by lia.
      rewrite !Z.pow_add_r by lia. split.
      - apply Z.mul_le_mono_nonneg_r; lia.
      - apply Z.mul_lt_mono_pos_r; lia. }
    assert (HV : Zpos p' * 2 ^ (fe + 1074) = Zpos p * 2 ^ (e + 1074)).
    { rewrite Hv. rewrite <- Z.mul_assoc, <- Z.pow_add_r by lia.
      f_equal. f_equal. lia. }
    exists (Zpos p * 2 ^ (e + 1074)). split; [|left; reflexivity].
    unfold binary_round_aux, shr_fexp in HR. rewrite Hd', fexp_eq in HR.
    replace (Z.max (dp + (e - fe) + fe - 53) (-1074) - fe) with 0 in HR
      by (subst fe; lia).
    cbn [shr shr_record_of_loc shr_m loc_of_shr_record round_nearest_even] in HR.
    rewrite Hd', fexp_eq in HR.
    replace (Z.max (dp + (e - fe) + fe - 53) (-1074) - fe) with 0 in HR
      by (subst fe; lia).
    cbn [shr shr_record_of_loc shr_m] in HR.
    change (emax - prec) with 971 in HR.
    destruct (Z.leb_spec fe 971) as [Hle|Hgt].
    + right. exists p', fe. split; [exact HR|]. split; [exact HV|]. subst fe; lia.
    + left. split; [exact HR|]. rewrite <- HV.
      assert (Hfe' : fe = dp + e - 53) by (subst fe; lia).
      assert (Hp' : 2 ^ 52 <= Zpos p').
      { rewrite Hv. replace 52 with (dp - 1 + (e - fe)) by lia.
        rewrite Z.pow_add_r by lia. apply Z.mul_le_mono_nonneg_r; lia. }
      assert (2 ^ 2046 <= 2 ^ (fe + 1074)) by (apply Z.pow_le_mono_r; lia).
      change (2 ^ 2098) with (2 ^ 52 * 2 ^ 2046).
      apply Z.mul_le_mono_nonneg; lia.
  - (* the mantissa is too long: it is shifted and rounded *)
    set (n := dp - 53) in *.
    assert (Hn : 0 < n) by (subst n; lia).
    replace (Z.max (dp + e - 53) (-1074)) with (e + n) in HR by (subst n; lia).
    assert (Hal : shl_align p e (e + n) = (p, e)).
    { unfold shl_align. destruct (e + n - e) eqn:E; try lia; reflexivity. }
    rewrite Hal in HR.
    unfold binary_round_aux in HR. unfold shr_fexp at 1 in HR.
    change (Zdigits2 (Zpos p)) with dp in HR. rewrite fexp_eq in HR.
    replace (Z.max (dp + e - 53) (-1074) - e) with n in HR by (subst n; lia).
    destruct n as [|n'|n'] eqn:En; try lia.
    cbn [shr shr_record_of_loc] in HR. rewrite iter_pos_nat in HR.
    pose proof (iter_shr_1_spec (Zpos p) (Pos.to_nat n') ltac:(lia)) as Hit.
    cbv zeta in Hit. rewrite positive_nat_Z in Hit.
    set (mrs := Nat.iter (Pos.to_nat n') shr_1 _) in *.
    destruct Hit as [Hm Hf].
    pose proof (round_nearest_even_bounds mrs) as Hq. cbv zeta in Hq.
    set (q1 := round_nearest_even (shr_m mrs) (loc_of_shr_record mrs)) in *.
    rewrite Hm in Hq. destruct Hq as [Hq Hex].
    assert (Hpn : 0 < 2 ^ Zpos n') by (apply Z.pow_pos_nonneg; lia).
    assert (Hm1 : 2 ^ 52 <= Zpos p / 2 ^ Zpos n' < 2 ^ 53).
    { assert (E1 : 2 ^ (dp - 1) = 2 ^ 52 * 2 ^ Zpos n').
      { rewrite <- Z.pow_add_r by lia. f_equal. lia. }
      assert (E2 : 2 ^ dp = 2 ^ 53 * 2 ^ Zpos n').
      { rewrite <- Z.pow_add_r by lia. f_equal. lia. }
      split.
      - apply Z.div_le_lower_bound; [lia|]. lia.
      - apply Z.div_lt_upper_bound; [lia|]. lia. }
    destruct (round_stage2 q1 (e + Zpos n') ltac:(lia) ltac:(lia))
      as (mrs2 & e2 & m2 & Hst & Hm2 & Hval & Hb2 & He2).
    rewrite Hst, Hm2 in HR.
    exists (q1 * 2 ^ (e + Zpos n' + 1074)). split.
    + change (emax - prec) with 971 in HR.
      destruct (Z.leb_spec e2 971) as [Hle|Hgt].
      * right. exists m2, e2. split; [exact HR|]. split; [exact Hval|lia].
      * left. split; [exact HR|]. rewrite <- Hval.
        assert (2 ^ 2046 <= 2 ^ (e2 + 1074)) by (apply Z.pow_le_mono_r; lia).
        change (2 ^ 2098) with (2 ^ 52 * 2 ^ 2046).
        apply Z.mul_le_mono_nonneg; lia.
    + right. exists (Zpos n'), q1. split; [lia|]. split; [lia|].
      split; [lia|]. split; [lia|]. split; [|reflexivity].
      intros H0. apply Hex, Hf, H0.
Qed.


Lemma finite_value_lt (m : positive) (e : Z) :
  valid_binary (S754_finite false m e) = true ->
  0 < Zpos m * 2 ^ (e + 1074) < 2 ^ 2098.
Proof.
  intros Hv. destruct (valid_finite_bounds _ _ _ Hv) as (He & Hm & _).
  assert (0 < 2 ^ (e + 1074)) by (apply Z.pow_pos_nonneg; lia).
  assert (2 ^ (e + 1074) <= 2 ^ 2045) by (apply Z.pow_le_mono_r; lia).
  split; [lia|].
  change (2 ^ 2098) with (2 ^ 53 * 2 ^ 2045).
  apply Z.le_lt_trans with (Zpos m * 2 ^ 2045).
  - apply Z.mul_le_mono_nonneg_l; lia.
  - apply Z.mul_lt_mono_pos_r; lia.
Qed.

(** A number at or above the exact value is at or above the rounded one:
    rounding never jumps over a binary64 number. *)
Lemma binary_round_upper (p : positive) (e : Z) (mA : positive) (eA : Z) :
  -1074 <= e ->
  valid_binary (S754_finite false mA eA) = true ->
  Zpos p * 2 ^ (e + 1074) <= Zpos mA * 2 ^ (eA + 1074) ->
  exists m2 e2,
    binary_round prec emax false p e = S754_finite false m2 e2 /\
    Zpos m2 * 2 ^ (e2 + 1074) <= Zpos mA * 2 ^ (eA + 1074).
Proof.
  intros He HvA Hle.
  pose proof (finite_value_lt mA eA HvA) as Ha.
  destruct (valid_finite_bounds _ _ _ HvA) as (HeA & HmA & Hcan).
  destruct (binary_round_spec p e He) as (V' & Hres & Hval).
  assert (HV' : V' <= Zpos mA * 2 ^ (eA + 1074)).
  { destruct Hval as [->|(n & q1 & Hn & Hdn & Hm1 & Hq & Hex & ->)]; [exact Hle|].
    pose proof (Zdigits2_range p) as Hr.
    replace (Zdigits2 (Z.pos p)) with (n + 53) in Hr by lia.
    set (T := 2 ^ (e + 1074)) in *.
    assert (HT : 0 < T) by (apply Z.pow_pos_nonneg; lia).
    assert (HN : 0 < 2 ^ n) by (apply Z.pow_pos_nonneg; lia).
    replace (n + 53 - 1) with (n + 52) in Hr by lia.
    rewrite Z.pow_add_r in Hr by lia.
    assert (HeA' : e + n <= eA).
    { destruct Hcan as [->|Hm52].
      - exfalso. change (2 ^ (-1074 + 1074)) with 1 in Hle, Ha.
        assert (2 ^ 1 <= 2 ^ n) by (apply Z.pow_le_mono_r; lia).
        assert (1 <= T) by lia.
        assert (2 ^ 53 <= 2 ^ n * 2 ^ 52) by (change (2 ^ 53) with (2 ^ 1 * 2 ^ 52); nia).
        nia.
      - destruct (Z.le_gt_cases (e + n) eA) as [|Hlt]; [assumption|exfalso].
        assert (2 ^ (eA + 1074 + 1) <= 2 ^ (e + n + 1074))
          by (apply Z.pow_le_mono_r; lia).
        rewrite (Z.pow_add_r 2 (eA + 1074) 1) in H by lia.
        replace (e + n + 1074) with (n + (e + 1074)) in H by lia.
        rewrite (Z.pow_add_r 2 n (e + 1074)) in H by lia. fold T in H.
        assert (0 < 2 ^ (eA + 1074)) by (apply Z.pow_pos_nonneg; lia).
        change (2 ^ 1) with 2 in H.
        change (2 ^ 53) with (2 * 2 ^ 52) in HmA.
        set (TA := 2 ^ (eA + 1074)) in *.
        assert (Zpos mA * TA < 2 ^ 52 * (2 * TA)) by nia.
        assert (2 ^ 52 * (2 ^ n * T) <= Zpos p * T) by nia.
        nia. }
    replace (e + n + 1074) with (n + (e + 1074)) by lia.
    rewrite (Z.pow_add_r 2 n (e + 1074)) by lia. fold T.
    set (K := Zpos mA * 2 ^ (eA - e - n)).
    assert (HK : Zpos mA * 2 ^ (eA + 1074) = K * 2 ^ n * T).
    { subst K T. rewrite <- !Z.mul_assoc, <- !Z.pow_add_r by lia.
      f_equal. f_equal. lia. }
    rewrite HK in *.
    assert (HKN : Zpos p <= K * 2 ^ n) by nia.
    pose proof (Z.div_mod (Zpos p) (2 ^ n) ltac:(lia)) as Hdm.
    pose proof (Z.mod_pos_bound (Zpos p) (2 ^ n) HN) as Hmb.
    set (m1 := Zpos p / 2 ^ n) in *. set (r := Zpos p mod 2 ^ n) in *.
    assert (q1 <= K).
    { destruct (Z.eq_dec r 0) as [H0|H0].
      - rewrite (Hex H0). nia.
      - assert (m1 < K) by nia. lia. }
    assert (q1 * (2 ^ n * T) <= K * (2 ^ n * T))
      by (apply Z.mul_le_mono_nonneg_r; nia).
    lia. }
  destruct Hres as [[_ Hinf]|(m2 & e2 & HR & Hv2 & _)]; [lia|].
  exists m2, e2. split; [exact HR|lia].
Qed.

(** A number at or below the exact value is at or below the rounded one. *)
Lemma binary_round_lower (p : positive) (e : Z) (mA : positive) (eA : Z) :
  -1074 <= e ->
  valid_binary (S754_finite false mA eA) = true ->
  Zpos mA * 2 ^ (eA + 1074) <= Zpos p * 2 ^ (e + 1074) ->
  binary_round prec emax false p e = S754_infinity false \/
  exists m2 e2,
    binary_round prec emax false p e = S754_finite false m2 e2 /\
    Zpos mA * 2 ^ (eA + 1074) <= Zpos m2 * 2 ^ (e2 + 1074).
Proof.
  intros He HvA Hle.
  destruct (valid_finite_bounds _ _ _ HvA) as (HeA & HmA & Hcan).
  destruct (binary_round_spec p e He) as (V' & Hres & Hval).
  destruct Hres as [[Hinf _]|(m2 & e2 & HR & Hv2 & _)]; [left; exact Hinf|].
  right. exists m2, e2. split; [exact HR|]. rewrite Hv2.
  destruct Hval as [->|(n & q1 & Hn & Hdn & Hm1 & Hq & Hex & ->)]; [exact Hle|].
  set (T := 2 ^ (e + 1074)) in *.
  assert (HT : 0 < T) by (apply Z.pow_pos_nonneg; lia).
  assert (HN : 0 < 2 ^ n) by (apply Z.pow_pos_nonneg; lia).
  replace (e + n + 1074) with (n + (e + 1074)) by lia.
  rewrite (Z.pow_add_r 2 n (e + 1074)) by lia. fold T.
  set (m1 := Zpos p / 2 ^ n) in *.
  apply Z.le_trans with (m1 * (2 ^ n * T)); [|apply Z.mul_le_mono_nonneg_r; nia].
  destruct (Z.le_gt_cases (e + n) eA) as [Hge|Hlt].
  - set (K := Zpos mA * 2 ^ (eA - e - n)).
    assert (HK : Zpos mA * 2 ^ (eA + 1074) = K * 2 ^ n * T).
    { subst K T. rewrite <- !Z.mul_assoc, <- !Z.pow_add_r by lia.
      f_equal. f_equal. lia. }
    rewrite HK in *.
    assert (HKN : K * 2 ^ n <= Zpos p) by nia.
    assert (K <= m1) by (subst m1; apply Z.div_le_lower_bound; lia).
    assert (K * (2 ^ n * T) <= m1 * (2 ^ n * T))
      by (apply Z.mul_le_mono_nonneg_r; nia).
    lia.
  - assert (H : 2 ^ (eA + 1074 + 1) <= 2 ^ (e + n + 1074))
      by (apply Z.pow_le_mono_r; lia).
    rewrite (Z.pow_add_r 2 (eA + 1074) 1) in H by lia.
    replace (e + n + 1074) with (n + (e + 1074)) in H by lia.
    rewrite (Z.pow_add_r 2 n (e + 1074)) in H by lia. fold T in H.
    assert (0 < 2 ^ (eA + 1074)) by (apply Z.pow_pos_nonneg; lia).
    change (2 ^ 1) with 2 in H.
    change (2 ^ 53) with (2 * 2 ^ 52) in HmA.
    set (TA := 2 ^ (eA + 1074)) in *.
    assert (Zpos mA * TA <= 2 ^ 52 * (2 * TA)) by nia.
    assert (2 ^ 52 * (2 ^ n * T) <= m1 * (2 ^ n * T))
      by (apply Z.mul_le_mono_nonneg_r; nia).
    nia.
Qed.


Lemma binary_round_true (p : positive) (e : Z) :
  binary_round prec emax true p e = SFopp (binary_round prec emax false p e).
Proof.
  unfold binary_round, binary_round_aux.
  destruct (shl_align _ _ _) as [mz ez].
  destruct (shr_fexp _ _ _ _ _) as [mrs' e'].
  destruct (shr_fexp _ _ _ _ _) as [mrs'' e''].
  destruct (shr_m mrs'') as [|m|m]; try reflexivity.
  destruct (e'' <=? emax - prec); reflexivity.
Qed.

Lemma ord_SFopp (x : spec_float) : ord (SFopp x) = - ord x.
Proof. destruct x as [s|[|]| |[|] m e]; cbn; lia. Qed.

Lemma pow2100_pos : 0 < 2 ^ 2100.
Proof. apply Z.pow_pos_nonneg; lia. Qed.

(** The rounded value of a positive integer is positive. *)
Lemma binary_round_positive (p : positive) (e : Z) :
  -1074 <= e ->
  binary_round prec emax false p e <> S754_nan /\
  0 < ord (binary_round prec emax false p e).
Proof.
  intros He.
  destruct (binary_round_spec p e He) as (V' & [[-> _]|(m2 & e2 & -> & _ & He2)] & _).
  - split; [discriminate|]. cbn [ord cond_Zopp]. apply pow2100_pos.
  - split; [discriminate|]. cbn [ord cond_Zopp].
    assert (0 < 2 ^ (e2 + 1074)) by (apply Z.pow_pos_nonneg; lia). lia.
Qed.

(** Rounding is monotone with respect to every binary64 number: the
    rounded value of [z * 2^e] is on the same side of a finite number [A]
    as the exact value. *)
Lemma binary_normalize_bounds (z e : Z) (A : spec_float) :
  -1074 <= e -> valid_binary A = true -> finite_or_zero A ->
  binary_normalize prec emax z e false <> S754_nan /\
  (z * 2 ^ (e + 1074) <= ord A ->
   ord (binary_normalize prec emax z e false) <= ord A) /\
  (ord A <= z * 2 ^ (e + 1074) ->
   ord A <= ord (binary_normalize prec emax z e false)).
Proof.
  intros He HvA HfA.
  assert (HT : 0 < 2 ^ (e + 1074)) by (apply Z.pow_pos_nonneg; lia).
  pose proof pow2100_pos as H2100.
  destruct z as [|p|p]; cbn [binary_normalize].
  - split; [discriminate|]. cbn [ord]. lia.
  - destruct (binary_round_positive p e He) as [Hnan Hpos].
    split; [exact Hnan|]. split; intros Hle.
    + destruct A as [s|s| |[|] mA eA]; try contradiction; cbn [ord cond_Zopp] in *.
      * lia.
      * pose proof (finite_value_lt mA eA HvA). lia.
      * destruct (binary_round_upper p e mA eA He HvA Hle) as (m2 & e2 & -> & H).
        exact H.
    + destruct A as [s|s| |[|] mA eA]; try contradiction; cbn [ord cond_Zopp] in *.
      * lia.
      * pose proof (finite_value_lt mA eA HvA). lia.
      * destruct (binary_round_lower p e mA eA He HvA Hle) as [->|(m2 & e2 & -> & H)].
        -- cbn [ord cond_Zopp]. pose proof (finite_value_lt mA eA HvA).
           assert (2 ^ 2098 < 2 ^ 2100) by (apply Z.pow_lt_mono_r; lia). lia.
        -- exact H.
  - rewrite binary_round_true.
    destruct (binary_round_positive p e He) as [Hnan Hpos].
    split; [destruct (binary_round prec emax false p e); (discriminate || congruence)|].
    rewrite ord_SFopp.
    replace (Z.neg p * 2 ^ (e + 1074)) with (- (Zpos p * 2 ^ (e + 1074))) by lia.
    split; intros Hle.
    + destruct A as [s|s| |[|] mA eA]; try contradiction; cbn [ord cond_Zopp] in *.
      * lia.
      * assert (HvA' : valid_binary (S754_finite false mA eA) = true) by exact HvA.
        assert (Hle' : Zpos mA * 2 ^ (eA + 1074) <= Zpos p * 2 ^ (e + 1074)) by lia.
        destruct (binary_round_lower p e mA eA He HvA' Hle') as [->|(m2 & e2 & -> & H)].
        -- cbn [ord cond_Zopp]. pose proof (finite_value_lt mA eA HvA').
           assert (2 ^ 2098 < 2 ^ 2100) by (apply Z.pow_lt_mono_r; lia). lia.
        -- cbn [ord cond_Zopp]. lia.
      * pose proof (finite_value_lt mA eA HvA). lia.
    + destruct A as [s|s| |[|] mA eA]; try contradiction; cbn [ord cond_Zopp] in *.
      * lia.
      * assert (HvA' : valid_binary (S754_finite false mA eA) = true) by exact HvA.
        assert (Hle' : Zpos p * 2 ^ (e + 1074) <= Zpos mA * 2 ^ (eA + 1074)) by lia.
        destruct (binary_round_upper p e mA eA He HvA' Hle') as (m2 & e2 & -> & H).
        cbn [ord cond_Zopp]. lia.
      * pose proof (finite_value_lt mA eA HvA). lia.
Qed.

(** The sum of two finite numbers, before rounding. *)
Lemma SFadd_finite (sx : bool) (mx : positive) (ex : Z)
    (sy : bool) (my : positive) (ey : Z) :
  valid_binary (S754_finite sx mx ex) = true ->
  valid_binary (S754_finite sy my ey) = true ->
  exists z e,
    -1074 <= e /\
    z * 2 ^ (e + 1074)
    = ord (S754_finite sx mx ex) + ord (S754_finite sy my ey) /\
    SFadd prec emax (S754_finite sx mx ex) (S754_finite sy my ey)
    = binary_normalize prec emax z e false.
Proof.
  intros Hx Hy.
  destruct (valid_finite_bounds _ _ _ Hx) as (Hex & _).
  destruct (valid_finite_bounds _ _ _ Hy) as (Hey & _).
  cbn [SFadd]. set (ez := Z.min ex ey).
  eexists _, ez. split; [subst ez; lia|]. split; [|reflexivity].
  rewrite !shl_align_value by (subst ez; lia).
  cbn [ord].
  assert (Ex : Zpos mx * 2 ^ (ex + 1074) = Zpos mx * 2 ^ (ex - ez) * 2 ^ (ez + 1074)).
  { rewrite <- Z.mul_assoc, <- Z.pow_add_r by (subst ez; lia). do 2 f_equal. lia. }
  assert (Ey : Zpos my * 2 ^ (ey + 1074) = Zpos my * 2 ^ (ey - ez) * 2 ^ (ez + 1074)).
  { rewrite <- Z.mul_assoc, <- Z.pow_add_r by (subst ez; lia). do 2 f_equal. lia. }
  rewrite Ex, Ey. destruct sx, sy; cbn [cond_Zopp]; ring.
Qed.

(** Addition of finite numbers is monotone: the computed sum is on the
    same side of a finite number as the exact sum. *)
Lemma SFadd_bounds (x y A : spec_float) :
  valid_binary x = true -> valid_binary y = true -> valid_binary A = true ->
  finite_or_zero x -> finite_or_zero y -> finite_or_zero A ->
  SFadd prec emax x y <> S754_nan /\
  (ord x + ord y <= ord A -> ord (SFadd prec emax x y) <= ord A) /\
  (ord A <= ord x + ord y -> ord A <= ord (SFadd prec emax x y)).
Proof.
  intros Hx Hy HA Fx Fy FA.
  destruct x as [sx|sx| |sx mx ex]; try contradiction;
  destruct y as [sy|sy| |sy my ey]; try contradiction.
  - destruct sx, sy; cbn; (split; [discriminate|lia]).
  - cbn [SFadd]. split; [discriminate|]. cbn [ord]. lia.
  - cbn [SFadd]. split; [discriminate|]. cbn [ord]. lia.
  - destruct (SFadd_finite sx mx ex sy my ey Hx Hy) as (z & e & He & Hz & ->).
    rewrite <- Hz. apply binary_normalize_bounds; assumption.
Qed.

Lemma SFsub_SFadd (x y : spec_float) :
  SFsub prec emax x y = SFadd prec emax x (SFopp y).
Proof.
  destruct x as [sx|sx| |sx mx ex], y as [sy|sy| |sy my ey];
    try reflexivity; destruct sx, sy; reflexivity.
Qed.

Lemma valid_SFopp (x : spec_float) : valid_binary (SFopp x) = valid_binary x.
Proof. destruct x; reflexivity. Qed.

Lemma finite_SFopp (x : spec_float) : finite_or_zero x -> finite_or_zero (SFopp x).
Proof. destruct x; cbn; auto. Qed.

Lemma SFsub_bounds (x y A : spec_float) :
  valid_binary x = true -> valid_binary y = true -> valid_binary A = true ->
  finite_or_zero x -> finite_or_zero y -> finite_or_zero A ->
  SFsub prec emax x y <> S754_nan /\
  (ord x - ord y <= ord A -> ord (SFsub prec emax x y) <= ord A) /\
  (ord A <= ord x - ord y -> ord A <= ord (SFsub prec emax x y)).
Proof.
  intros Hx Hy HA Fx Fy FA. rewrite SFsub_SFadd.
  pose proof (SFadd_bounds x (SFopp y) A Hx) as H.
  rewrite valid_SFopp, ord_SFopp in H.
  specialize (H Hy HA Fx (finite_SFopp y Fy) FA).
  replace (ord x - ord y) with (ord x + - ord y) by lia. exact H.
Qed.

End FloatRounding.

(** ** Monotone arithmetic *)

Module FloatMonotone.
Import FloatFacts FloatOrder FloatRounding.

Lemma leb_ord (x y : float) :
  Prim2SF x <> S754_nan -> Prim2SF y <> S754_nan ->
  (x <=? y)%float = (ord (Prim2SF x) <=? ord (Prim2SF y)).
Proof.
  intros Hx Hy. rewrite leb_spec. unfold SFleb.
  rewrite SFcompare_ord; try apply Prim2SF_valid; try assumption.
  unfold Z.leb. destruct (ord (Prim2SF x) ?= ord (Prim2SF y)); reflexivity.
Qed.

Lemma nonneg_not_nan (x : spec_float) : nonneg x -> x <> S754_nan.
Proof. destruct x; (contradiction || discriminate). Qed.

Lemma nonneg_ord (x : spec_float) :
  valid_binary x = true -> nonneg x -> 0 <= ord x.
Proof.
  intros Hv H. destruct x as [s|[|]| |[|] m e]; try contradiction; cbn [ord cond_Zopp].
  - lia.
  - pose proof pow2100_pos. lia.
  - pose proof (finite_value_lt m e Hv). lia.
Qed.

(** [Math.max] of finite numbers, from a bound that is not NaN on. *)
Lemma Math_max_from_upper (args : list float) :
  forall highest,
    Forall (fun v => is_finite v = true) args ->
    Prim2SF highest <> S754_nan ->
    (Math_max_from highest args = highest \/ In (Math_max_from highest args) args) /\
    ord (Prim2SF highest) <= ord (Prim2SF (Math_max_from highest args)) /\
    Forall (fun v => ord (Prim2SF v) <= ord (Prim2SF (Math_max_from highest args)))
      args.
Proof.
  induction args as [|number rest IH]; intros highest Hfin Hhigh.
  - cbn [Math_max_from]. split; [now left|]. split; [lia|constructor].
  - inversion Hfin as [|? ? Hnum Hrest]; subst.
    pose proof (finite_or_zero_not_nan _ (finite_Prim2SF _ Hnum)) as Hnn.
    cbn [Math_max_from]. rewrite (Prim2SF_not_nan _ Hnn).
    assert (Hstep : forall next,
               Prim2SF next <> S754_nan ->
               ord (Prim2SF highest) <= ord (Prim2SF next) ->
               ord (Prim2SF number) <= ord (Prim2SF next) ->
               (next = highest \/ next = number) ->
               (Math_max_from next rest = highest \/
                In (Math_max_from next rest) (number :: rest)) /\
               ord (Prim2SF highest) <= ord (Prim2SF (Math_max_from next rest)) /\
               Forall (fun v => ord (Prim2SF v)
                                <= ord (Prim2SF (Math_max_from next rest)))
                 (number :: rest)).
    { intros next Hn Hl Hv Hor.
      destruct (IH next Hrest Hn) as (Hin & Hle & Hall).
      split; [|split].
      - destruct Hin as [->|Hin]; [|right; now right].
        destruct Hor as [->| ->]; [now left|right; now left].
      - lia.
      - constructor; [lia|exact Hall]. }
    destruct (is_pos_zero number && is_neg_zero highest) eqn:Hz.
    + apply andb_true_iff in Hz as [Hz1 Hz2].
      apply andb_true_iff in Hz1 as [Hz1 _]. apply andb_true_iff in Hz2 as [Hz2 _].
      apply is_zero_ord in Hz1 as [_ Hz1]. apply is_zero_ord in Hz2 as [_ Hz2].
      apply Hstep; [assumption|lia|lia|now right].
    + rewrite (ltb_ord highest number) by assumption.
      destruct (Z.ltb_spec (ord (Prim2SF highest)) (ord (Prim2SF number))).
      * apply Hstep; [assumption|lia|lia|now right].
      * apply Hstep; [assumption|lia|lia|now left].
Qed.

(** The maximum of a non-empty array of finite numbers is one of them and
    is above all of them. *)
Lemma Math_max_upper (specifications : list float) :
  specifications <> [] ->
  Forall (fun v => is_finite v = true) specifications ->
  is_finite (Math_max specifications) = true /\
  Forall (fun v => ord (Prim2SF v) <= ord (Prim2SF (Math_max specifications)))
    specifications.
Proof.
  intros Hne Hfin.
  destruct (Math_max_from_upper specifications neg_infinity Hfin ltac:(discriminate))
    as (Hin & _ & Hall).
  fold (Math_max specifications) in *.
  split; [|exact Hall].
  destruct Hin as [Hinf|Hin].
  - destruct specifications as [|v rest]; [congruence|].
    inversion Hfin as [|? ? Hv _]; subst. inversion Hall as [|? ? Hle _]; subst.
    pose proof (finite_ord_bound v (finite_Prim2SF v Hv)) as Hb.
    rewrite Hinf in Hle. change (ord (Prim2SF neg_infinity)) with (- 2 ^ 2100) in Hle.
    lia.
  - rewrite Forall_forall in Hfin. now apply Hfin.
Qed.


(** The smaller of a finite number and the minimum of finite numbers. *)
Lemma Math_min_with (bound : float) (ys : list float) :
  is_finite bound = true ->
  Forall (fun v => is_finite v = true) ys ->
  let m := Math_min [bound; Math_min ys] in
  is_finite m = true /\
  ord (Prim2SF m) <= ord (Prim2SF bound) /\
  Forall (fun v => ord (Prim2SF m) <= ord (Prim2SF v)) ys.
Proof.
  intros Hb Hys. cbv zeta.
  destruct ys as [|y ys'].
  - change (Math_min []) with infinity.
    pose proof (finite_Prim2SF _ Hb) as Hf.
    pose proof (finite_or_zero_not_nan _ Hf) as Hn.
    assert (E : Math_min [bound; infinity] = bound).
    { unfold Math_min. cbn [Math_min_from].
      rewrite (Prim2SF_not_nan _ Hn).
      change (is_pos_zero infinity) with false. rewrite andb_false_r.
      rewrite (finite_lt_infinity _ Hf).
      change (is_nan infinity) with false.
      change (is_neg_zero infinity) with false. rewrite andb_false_l.
      rewrite ltb_ord by (discriminate || assumption).
      pose proof (finite_ord_bound _ Hf).
      change (ord (Prim2SF infinity)) with (2 ^ 2100).
      destruct (Z.ltb_spec (2 ^ 2100) (ord (Prim2SF bound))); [lia|reflexivity]. }
    rewrite E. split; [exact Hb|]. split; [lia|constructor].
  - destruct (Math_min_lower (y :: ys') ltac:(discriminate) Hys) as [Hm0 Hall0].
    set (m0 := Math_min (y :: ys')) in *.
    destruct (Math_min_lower [bound; m0] ltac:(discriminate)
                ltac:(repeat constructor; assumption)) as [Hm Hall].
    split; [exact Hm|].
    inversion Hall as [|? ? H1 Hall']; subst. inversion Hall' as [|? ? H2 _]; subst.
    split; [exact H1|].
    eapply Forall_impl; [|exact Hall0]. cbv beta. intros v Hv. lia.
Qed.

Lemma Math_max_with (bound : float) (ys : list float) :
  is_finite bound = true ->
  Forall (fun v => is_finite v = true) ys ->
  let m := Math_max [bound; Math_max ys] in
  is_finite m = true /\
  ord (Prim2SF bound) <= ord (Prim2SF m) /\
  Forall (fun v => ord (Prim2SF v) <= ord (Prim2SF m)) ys.
Proof.
  intros Hb Hys. cbv zeta.
  destruct ys as [|y ys'].
  - change (Math_max []) with neg_infinity.
    pose proof (finite_Prim2SF _ Hb) as Hf.
    pose proof (finite_or_zero_not_nan _ Hf) as Hn.
    assert (E : Math_max [bound; neg_infinity] = bound).
    { unfold Math_max. cbn [Math_max_from].
      rewrite (Prim2SF_not_nan _ Hn).
      change (is_neg_zero neg_infinity) with false. rewrite andb_false_r.
      pose proof (finite_ord_bound _ Hf).
      rewrite (ltb_ord neg_infinity bound) by (discriminate || assumption).
      change (ord (Prim2SF neg_infinity)) with (- 2 ^ 2100).
      destruct (Z.ltb_spec (- 2 ^ 2100) (ord (Prim2SF bound))); [|lia].
      change (is_nan neg_infinity) with false.
      change (is_pos_zero neg_infinity) with false. rewrite andb_false_l.
      rewrite ltb_ord by (discriminate || assumption).
      change (ord (Prim2SF neg_infinity)) with (- 2 ^ 2100).
      destruct (Z.ltb_spec (ord (Prim2SF bound)) (- 2 ^ 2100)); [lia|reflexivity]. }
    rewrite E. split; [exact Hb|]. split; [lia|constructor].
  - destruct (Math_max_upper (y :: ys') ltac:(discriminate) Hys) as [Hm0 Hall0].
    set (m0 := Math_max (y :: ys')) in *.
    destruct (Math_max_upper [bound; m0] ltac:(discriminate)
                ltac:(repeat constructor; assumption)) as [Hm Hall].
    split; [exact Hm|].
    inversion Hall as [|? ? H1 Hall']; subst. inversion Hall' as [|? ? H2 _]; subst.
    split; [exact H1|].
    eapply Forall_impl; [|exact Hall0]. cbv beta. intros v Hv. lia.
Qed.

(** Taking a padding that is not negative off a finite number gives a
    number that is not above it; the padding may be infinite. *)
Lemma sub_padding (m pad : float) :
  is_finite m = true -> nonneg (Prim2SF pad) ->
  Prim2SF (m - pad)%float <> S754_nan /\
  ord (Prim2SF (m - pad)%float) <= ord (Prim2SF m).
Proof.
  intros Hm Hp. rewrite sub_spec.
  pose proof (finite_Prim2SF _ Hm) as Hf.
  pose proof (finite_ord_bound _ Hf) as Hb.
  pose proof (nonneg_ord _ (Prim2SF_valid pad) Hp) as H0.
  destruct (Prim2SF pad) as [s|[|]| |[|] mp ep] eqn:Ep; try contradiction.
  - pose proof (SFsub_bounds (Prim2SF m) (S754_zero s) (Prim2SF m)
                  (Prim2SF_valid m) eq_refl (Prim2SF_valid m) Hf I Hf)
      as (Hn & Hu & _).
    split; [exact Hn|]. apply Hu. cbn [ord]. lia.
  - assert (E : SFsub prec emax (Prim2SF m) (S754_infinity false)
                = S754_infinity true)
      by (destruct (Prim2SF m); (contradiction || reflexivity)).
    unfold SF64sub. rewrite E. split; [discriminate|]. cbn [ord cond_Zopp]. lia.
  - assert (Hvp : valid_binary (S754_finite false mp ep) = true)
      by (rewrite <- Ep; apply Prim2SF_valid).
    pose proof (SFsub_bounds (Prim2SF m) (S754_finite false mp ep) (Prim2SF m)
                  (Prim2SF_valid m) Hvp (Prim2SF_valid m) Hf I Hf)
      as (Hn & Hu & _).
    split; [exact Hn|]. apply Hu. lia.
Qed.

Lemma add_padding (m pad : float) :
  is_finite m = true -> nonneg (Prim2SF pad) ->
  Prim2SF (m + pad)%float <> S754_nan /\
  ord (Prim2SF m) <= ord (Prim2SF (m + pad)%float).
Proof.
  intros Hm Hp. rewrite add_spec.
  pose proof (finite_Prim2SF _ Hm) as Hf.
  pose proof (finite_ord_bound _ Hf) as Hb.
  pose proof (nonneg_ord _ (Prim2SF_valid pad) Hp) as H0.
  destruct (Prim2SF pad) as [s|[|]| |[|] mp ep] eqn:Ep; try contradiction.
  - pose proof (SFadd_bounds (Prim2SF m) (S754_zero s) (Prim2SF m)
                  (Prim2SF_valid m) eq_refl (Prim2SF_valid m) Hf I Hf)
      as (Hn & _ & Hl).
    split; [exact Hn|]. apply Hl. cbn [ord]. lia.
  - assert (E : SFadd prec emax (Prim2SF m) (S754_infinity false)
                = S754_infinity false)
      by (destruct (Prim2SF m); (contradiction || reflexivity)).
    unfold SF64add. rewrite E. split; [discriminate|]. cbn [ord cond_Zopp]. lia.
  - assert (Hvp : valid_binary (S754_finite false mp ep) = true)
      by (rewrite <- Ep; apply Prim2SF_valid).
    pose proof (SFadd_bounds (Prim2SF m) (S754_finite false mp ep) (Prim2SF m)
                  (Prim2SF_valid m) Hvp (Prim2SF_valid m) Hf I Hf)
      as (Hn & _ & Hl).
    split; [exact Hn|]. apply Hl. lia.
Qed.

(** A product of two numbers that are not negative is not negative, unless
    it is [0 * Infinity]. *)
Lemma SFmul_nonneg (x : spec_float) (my : positive) (ey : Z) :
  nonneg x -> nonneg (SFmul prec emax x (S754_finite false my ey)).
Proof.
  destruct x as [s|[|]| |[|] mx ex]; try contradiction; intros _; cbn [SFmul xorb].
  - exact I.
  - exact I.
  - apply binary_round_aux_nonneg. lia.
Qed.

(** The padding [Math.abs(ucl - lcl) * 0.15] of finite limits. *)
Lemma padding_nonneg (ucl lcl : float) :
  is_finite ucl = true -> is_finite lcl = true ->
  nonneg (Prim2SF (abs (ucl - lcl) * 0.15)%float).
Proof.
  intros Hu Hl. rewrite mul_spec, abs_spec, sub_spec.
  change (Prim2SF 0.15%float) with
    (S754_finite false 5404319552844595 (-55)).
  apply SFmul_nonneg.
  pose proof (SFsub_bounds (Prim2SF ucl) (Prim2SF lcl) (S754_zero false)
                (Prim2SF_valid ucl) (Prim2SF_valid lcl) eq_refl
                (finite_Prim2SF _ Hu) (finite_Prim2SF _ Hl) I) as (Hn & _).
  unfold SF64sub.
  destruct (SFsub prec emax (Prim2SF ucl) (Prim2SF lcl)); try exact I; congruence.
Qed.

(** A chart domain [min(lcl, min ys) - pad, max(ucl, max ys) + pad] with
    a padding that is not negative. *)
Lemma domain_encloses (lcl ucl pad : float) (ys : list float) :
  is_finite lcl = true -> is_finite ucl = true ->
  Forall (fun v => is_finite v = true) ys ->
  nonneg (Prim2SF pad) ->
  let lo := (Math_min [lcl; Math_min ys] - pad)%float in
  let hi := (Math_max [ucl; Math_max ys] + pad)%float in
  (lo <=? lcl)%float = true /\ (ucl <=? hi)%float = true /\
  Forall (fun v => (lo <=? v)%float = true /\ (v <=? hi)%float = true) ys.
Proof.
  intros Hl Hu Hys Hp. cbv zeta.
  destruct (Math_min_with lcl ys Hl Hys) as (Hm & Hml & Hmys).
  destruct (Math_max_with ucl ys Hu Hys) as (HM & HMu & HMys).
  destruct (sub_padding _ pad Hm Hp) as [Hlo_n Hlo].
  destruct (add_padding _ pad HM Hp) as [Hhi_n Hhi].
  set (lo := (Math_min [lcl; Math_min ys] - pad)%float) in *.
  set (hi := (Math_max [ucl; Math_max ys] + pad)%float) in *.
  assert (Hnn : forall v, is_finite v = true -> Prim2SF v <> S754_nan)
    by (intros v Hv; apply finite_or_zero_not_nan, finite_Prim2SF, Hv).
  split; [|split].
  - rewrite leb_ord by auto. apply Z.leb_le. lia.
  - rewrite leb_ord by auto. apply Z.leb_le. lia.
  - rewrite Forall_forall in *. intros v Hv.
    specialize (Hmys v Hv). specialize (HMys v Hv). specialize (Hys v Hv).
    cbv beta in *.
    rewrite !leb_ord by auto. split; apply Z.leb_le; lia.
Qed.


(** *** Exact results *)

Lemma ord_bound (A : spec_float) :
  valid_binary A = true -> finite_or_zero A -> - 2 ^ 2098 < ord A < 2 ^ 2098.
Proof.
  intros Hv Hf. destruct A as [s|s| |[|] m e]; try contradiction; cbn [ord cond_Zopp].
  - assert (0 < 2 ^ 2098) by (apply Z.pow_pos_nonneg; lia). lia.
  - pose proof (finite_value_lt m e Hv). lia.
  - pose proof (finite_value_lt m e Hv). lia.
Qed.

(** A result that rounds a value a binary64 number has is that number. *)
Lemma binary_normalize_exact (z e : Z) (A : spec_float) :
  -1074 <= e -> valid_binary A = true -> plain A ->
  valid_binary (binary_normalize prec emax z e false) = true ->
  z * 2 ^ (e + 1074) = ord A ->
  binary_normalize prec emax z e false = A.
Proof.
  intros He HvA HpA HvR Hz.
  assert (HfA : finite_or_zero A)
    by (destruct A as [[|]| | |]; (contradiction || exact I)).
  destruct (binary_normalize_bounds z e A He HvA HfA) as (Hn & Hu & Hl).
  specialize (Hu ltac:(lia)). specialize (Hl ltac:(lia)).
  pose proof (ord_bound A HvA HfA) as Hb.
  assert (H2100 : 2 ^ 2098 < 2 ^ 2100) by (apply Z.pow_lt_mono_r; lia).
  apply ord_injective; try assumption; [|lia].
  destruct z as [|p|p]; cbn [binary_normalize] in *.
  - exact I.
  - destruct (binary_round_spec p e He) as (V' & [[E _]|(m2 & e2 & E & _)] & _);
      rewrite E in *; [|exact I].
    cbn [ord cond_Zopp] in Hu. lia.
  - rewrite binary_round_true in *.
    destruct (binary_round_spec p e He) as (V' & [[E _]|(m2 & e2 & E & _)] & _);
      rewrite E in *; [|exact I].
    cbn [SFopp negb ord cond_Zopp] in Hl. lia.
Qed.

(** The product of two non-negative integers is computed exactly when it
    is below [2^53]. *)
Lemma mul_Z2float (a b : Z) :
  0 <= a < 2 ^ 53 -> 0 <= b < 2 ^ 53 -> a * b < 2 ^ 53 ->
  (Z2float a * Z2float b)%float = Z2float (a * b).
Proof.
  intros Ha Hb Hab.
  apply Prim2SF_inj. rewrite mul_spec. unfold SF64mul.
  destruct a as [|pa|pa]; [|  |lia].
  { change (Prim2SF (Z2float 0)) with (S754_zero false). cbn [Z.mul].
    change (Prim2SF (Z2float 0)) with (S754_zero false).
    destruct b as [|pb|pb]; [reflexivity| |lia].
    destruct (Prim2SF_Z2float_small pb (proj2 Hb)) as (m & -> & _). reflexivity. }
  destruct b as [|pb|pb]; [|  |lia].
  { rewrite Z.mul_0_r. change (Prim2SF (Z2float 0)) with (S754_zero false).
    destruct (Prim2SF_Z2float_small pa (proj2 Ha)) as (m & -> & _). reflexivity. }
  destruct (Prim2SF_Z2float_small pa (proj2 Ha)) as (ma & Ea & Hma & Hba & Hda).
  destruct (Prim2SF_Z2float_small pb (proj2 Hb)) as (mb & Eb & Hmb & Hbb & Hdb).
  set (da := Zdigits2 (Zpos pa)) in *. set (db := Zdigits2 (Zpos pb)) in *.
  pose proof (Prim2SF_valid (Z2float (Zpos pa) * Z2float (Zpos pb))%float) as Hv.
  rewrite mul_spec in Hv. unfold SF64mul in Hv.
  rewrite Ea, Eb in *. cbn [SFmul xorb] in *.
  set (e := da - 53 + (db - 53)) in *.
  assert (Hd : 53 <= Zdigits2 (Zpos (ma * mb))).
  { destruct (Z.le_gt_cases 53 (Zdigits2 (Zpos (ma * mb)))) as [|Hlt]; [assumption|].
    pose proof (Zdigits2_range (ma * mb)) as Hr.
    assert (2 ^ Zdigits2 (Zpos (ma * mb)) <= 2 ^ 52)
      by (apply Z.pow_le_mono_r; lia).
    set (D := Zdigits2 (Zpos (ma * mb))) in *.
    rewrite Pos2Z.inj_mul in Hr.
    assert (2 ^ 52 * 2 ^ 52 <= Zpos ma * Zpos mb)
      by (apply Z.mul_le_mono_nonneg; lia).
    assert (2 ^ 52 < 2 ^ 52 * 2 ^ 52) by reflexivity. lia. }
  assert (Hround : binary_round_aux prec emax false (Zpos (ma * mb)) e loc_Exact
                   = binary_normalize prec emax (Zpos (ma * mb)) e false).
  { cbn [binary_normalize]. unfold binary_round.
    change (Z.pos (digits2_pos (ma * mb))) with (Zdigits2 (Zpos (ma * mb))).
    rewrite fexp_eq. unfold shl_align.
    destruct (Z.max (Zdigits2 (Z.pos (ma * mb)) + e - 53) (-1074) - e)
      as [|q|q] eqn:E; try reflexivity.
    pose proof (Pos2Z.neg_is_neg q). lia. }
  rewrite Hround in *.
  apply binary_normalize_exact.
  - subst e. lia.
  - apply Prim2SF_valid.
  - pose proof (float2Z_Z2float (Zpos pa * Zpos pb) ltac:(lia)) as Hz.
    apply float2Z_finite in Hz.
    destruct (Prim2SF (Z2float (Zpos pa * Zpos pb))) as [[|]| | |] eqn:E;
      try contradiction; try exact I.
    exfalso. cbn [Z.mul] in E.
    destruct (Prim2SF_Z2float_small (pa * pb) ltac:(lia)) as (m & Em & _).
    congruence.
  - exact Hv.
  - rewrite (float2Z_ord _ (Zpos pa * Zpos pb)) by (apply float2Z_Z2float; lia).
    rewrite Pos2Z.inj_mul, Hma, Hmb.
    replace (e + 1074) with (1074 - ((53 - da) + (53 - db))) by (subst e; lia).
    assert (E : 2 ^ 1074 = 2 ^ (1074 - ((53 - da) + (53 - db)))
                           * (2 ^ (53 - da) * 2 ^ (53 - db))).
    { rewrite <- !Z.pow_add_r by lia. f_equal. lia. }
    rewrite E. ring.
Qed.

End FloatMonotone.

Import FloatFacts FloatOrder FloatRounding FloatMonotone.
Import Report.

(** ** The y-domains of the charts *)

(** X5: the y-domain that [ControlCharts] gives each chart contains both
    control limits and every plotted point, whenever the limits and the
    points are finite numbers: the lower end [min(lcl, min ys) - padding]
    is at most [lcl] and every [y], and the upper end
    [max(ucl, max ys) + padding] is at least [ucl] and every [y].  The
    padding [|ucl - lcl| * 0.15] is never negative, and the rounding of the
    subtraction and of the addition never moves an end across a number. *)
Theorem chart_domains_enclose (xBarData rangeData : list Point.t)
    (limits : Limits) :
  is_finite (xBarLcl limits) = true -> is_finite (xBarUcl limits) = true ->
  is_finite (rangeLcl limits) = true -> is_finite (rangeUcl limits) = true ->
  Forall (fun pt => is_finite (Point.y pt) = true) xBarData ->
  Forall (fun pt => is_finite (Point.y pt) = true) rangeData ->
  (let (lo, hi) := ControlCharts.xBarDomain xBarData limits in
   (lo <=? xBarLcl limits)%float = true /\
   (xBarUcl limits <=? hi)%float = true /\
   Forall (fun pt => (lo <=? Point.y pt)%float = true /\
                     (Point.y pt <=? hi)%float = true) xBarData) /\
  (let (lo, hi) := ControlCharts.rangeDomain rangeData limits in
   (lo <=? rangeLcl limits)%float = true /\
   (rangeUcl limits <=? hi)%float = true /\
   Forall (fun pt => (lo <=? Point.y pt)%float = true /\
                     (Point.y pt <=? hi)%float = true) rangeData).
Proof.
  intros Hxl Hxu Hrl Hru Hx Hr.
  split.
  - pose proof (domain_encloses (xBarLcl limits) (xBarUcl limits)
                  (ControlCharts.YPadding.xBar (ControlCharts.yPadding limits)) (map Point.y xBarData)
                  Hxl Hxu) as H.
    cbv zeta in H. unfold ControlCharts.xBarDomain.
    destruct H as (H1 & H2 & H3).
    + apply Forall_map. exact Hx.
    + apply padding_nonneg; assumption.
    + split; [exact H1|]. split; [exact H2|].
      rewrite Forall_map in H3. exact H3.
  - pose proof (domain_encloses (rangeLcl limits) (rangeUcl limits)
                  (ControlCharts.YPadding.range (ControlCharts.yPadding limits)) (map Point.y rangeData)
                  Hrl Hru) as H.
    cbv zeta in H. unfold ControlCharts.rangeDomain.
    destruct H as (H1 & H2 & H3).
    + apply Forall_map. exact Hr.
    + apply padding_nonneg; assumption.
    + split; [exact H1|]. split; [exact H2|].
      rewrite Forall_map in H3. exact H3.
Qed.

Lemma chart_domains_enclose_witness :
  let limits := {| xBarUcl := 13.046; xBarLcl := 8.954; xBarMean := 11;
                   rangeUcl := 6.534; rangeLcl := 0; rangeMean := 2 |} in
  let xBarData := [Point.make 1 11; Point.make 2 12; Point.make 3 10]%float in
  let rangeData := [Point.make 1 2; Point.make 2 2; Point.make 3 2]%float in
  (let (lo, hi) := ControlCharts.xBarDomain xBarData limits in
   (lo <=? xBarLcl limits)%float = true /\
   (xBarUcl limits <=? hi)%float = true /\
   Forall (fun pt => (lo <=? Point.y pt)%float = true /\
                     (Point.y pt <=? hi)%float = true) xBarData) /\
  (let (lo, hi) := ControlCharts.rangeDomain rangeData limits in
   (lo <=? rangeLcl limits)%float = true /\
   (rangeUcl limits <=? hi)%float = true /\
   Forall (fun pt => (lo <=? Point.y pt)%float = true /\
                     (Point.y pt <=? hi)%float = true) rangeData).
Proof.
  cbv zeta. apply chart_domains_enclose;
    try reflexivity; repeat constructor.
Defined.

(** ** The chart width *)

Lemma ord_Z2float (k : Z) :
  0 <= k < 2 ^ 53 ->
  finite_or_zero (Prim2SF (Z2float k)) /\
  ord (Prim2SF (Z2float k)) = k * 2 ^ 1074.
Proof.
  intros Hk. pose proof (float2Z_Z2float k Hk) as H.
  split; [exact (float2Z_finite _ _ H)|exact (float2Z_ord _ _ H)].
Qed.

(** [Math.max] of two non-negative integers. *)
Lemma Math_max_pair_Z (a b : Z) :
  0 <= a < 2 ^ 53 -> 0 <= b < 2 ^ 53 ->
  Math_max [Z2float a; Z2float b] = Z2float (Z.max a b).
Proof.
  intros Ha Hb.
  destruct (ord_Z2float a Ha) as [Hfa Hoa]. destruct (ord_Z2float b Hb) as [Hfb Hob].
  pose proof (finite_or_zero_not_nan _ Hfa) as Hna.
  pose proof (finite_or_zero_not_nan _ Hfb) as Hnb.
  assert (HT : 0 < 2 ^ 1074) by (apply Z.pow_pos_nonneg; lia).
  unfold Math_max. cbn [Math_max_from].
  rewrite (Prim2SF_not_nan _ Hna), (Prim2SF_not_nan _ Hnb).
  change (is_neg_zero neg_infinity) with false. rewrite andb_false_r.
  rewrite (ltb_ord neg_infinity) by (discriminate || assumption).
  pose proof (finite_ord_bound _ Hfa) as Hba.
  change (ord (Prim2SF neg_infinity)) with (- 2 ^ 2100).
  destruct (Z.ltb_spec (- 2 ^ 2100) (ord (Prim2SF (Z2float a)))); [|lia].
  destruct (is_pos_zero (Z2float b) && is_neg_zero (Z2float a)) eqn:Hz.
  - apply andb_true_iff in Hz as [Hz1 Hz2].
    apply andb_true_iff in Hz1 as [Hz1 _]. apply andb_true_iff in Hz2 as [Hz2 _].
    apply is_zero_ord in Hz1 as [_ Hz1]. apply is_zero_ord in Hz2 as [_ Hz2].
    f_equal. nia.
  - rewrite ltb_ord by assumption. rewrite Hoa, Hob.
    destruct (Z.ltb_spec (a * 2 ^ 1074) (b * 2 ^ 1074)); f_equal; nia.
Qed.

Lemma length_chartData_from (f : Subgroup -> float) (l : list Subgroup) :
  forall i, length (chartData_from i f l) = length l.
Proof. induction l as [|sg l IH]; intros i; cbn; [|rewrite IH]; reflexivity. Qed.

Lemma chartWidth_length (xBarData : list Point.t) :
  Z.of_nat (length xBarData) < 2 ^ 32 ->
  ControlCharts.chartWidth xBarData = Z2float (Z.max 400 (60 * Z.of_nat (length xBarData))).
Proof.
  intros Hn. unfold ControlCharts.chartWidth.
  assert (2 ^ 32 * 60 < 2 ^ 53) by reflexivity.
  change 60%float with (Z2float 60). change 400%float with (Z2float 400).
  rewrite mul_Z2float by lia.
  rewrite Math_max_pair_Z by lia. f_equal. lia.
Qed.

(** X6: for a sample size in 1..5 and at least one record, both charts get
    one point for each complete subgroup, [floor(n / size)] of them, and
    the chart width is exactly [max(400, 60 * floor(n / size))]: 400 up to
    six subgroups and 60 for each subgroup from seven on. *)
Theorem chart_width_of_analysis (fuel : nat) (selectedShifts : list Z)
    (sampleSize : Z) (inspectionData : list InspectionData) :
  let records := filteredData selectedShifts inspectionData in
  1 <= sampleSize <= 5 ->
  0 < Z.of_nat (length records) < 2 ^ 32 ->
  (length records <= fuel)%nat ->
  exists analysis,
    handleAnalyze_try fuel selectedShifts sampleSize inspectionData
      = SetAnalysisData analysis /\
    Z.of_nat (length (xBarData (controlCharts analysis)))
      = Z.of_nat (length records) / sampleSize /\
    length (rangeData (controlCharts analysis))
      = length (xBarData (controlCharts analysis)) /\
    ControlCharts.chartWidth (xBarData (controlCharts analysis))
      = Z2float (Z.max 400 (60 * (Z.of_nat (length records) / sampleSize))).
Proof.
  intros records Hsize Hlen Hfuel.
  destruct (analyze_normal fuel sampleSize records Hsize)
    as (subgroups & c & d0 & dd & Hsg & _ & _ & _ & Han);
    [destruct records; [simpl in Hlen; lia|discriminate]|lia|lia|].
  rewrite calculateSubgroups_windows in Hsg by (try rewrite length_map; lia).
  injection Hsg as Hsg.
  assert (Hcount : Z.of_nat (length subgroups)
                   = Z.of_nat (length records) / sampleSize).
  { rewrite <- Hsg, length_map, length_seq, length_map.
    rewrite Nat2Z.inj_div, Z2Nat.id by lia. reflexivity. }
  eexists. unfold handleAnalyze_try. fold records. rewrite Han.
  split; [reflexivity|].
  cbn [controlCharts xBarData rangeData].
  rewrite !length_chartData_from.
  split; [exact Hcount|]. split; [reflexivity|].
  rewrite chartWidth_length; rewrite length_chartData_from, Hcount.
  - reflexivity.
  - apply Z.le_lt_trans with (Z.of_nat (length records)); [|lia].
    apply Z.div_le_upper_bound; nia.
Qed.

Lemma chart_width_of_analysis_witness :
  exists analysis,
    handleAnalyze_try 16 [1] 2
      (inspections 1 5 15
         [10; 12; 11; 13; 9; 11; 10; 12; 10; 12; 11; 13; 9; 11; 10; 12]%float)
      = SetAnalysisData analysis /\
    ControlCharts.chartWidth (xBarData (controlCharts analysis)) = 480%float.
Proof.
  destruct (chart_width_of_analysis 16 [1] 2
              (inspections 1 5 15
                 [10; 12; 11; 13; 9; 11; 10; 12; 10; 12; 11; 13; 9; 11; 10; 12]%float))
    as (analysis & Han & _ & _ & Hw).
  - lia.
  - cbn. lia.
  - cbn. lia.
  - exists analysis. split; [exact Han|]. rewrite Hw. reflexivity.
Defined.

(** ** The range chart at sample size 1 *)

Lemma Math_min_zeros (l : list float) :
  l <> [] -> Forall (fun v => v = zero) l -> Math_min l = zero.
Proof.
  intros Hne Hall. destruct l as [|v l]; [congruence|].
  inversion Hall as [|? ? -> Hrest]; subst.
  unfold Math_min. cbn [Math_min_from].
  change (is_nan zero) with false. change (is_neg_zero zero) with false.
  change (zero <? infinity)%float with true. cbv iota. cbn [andb].
  clear Hne Hall. induction Hrest as [|w l' -> _ IH]; [reflexivity|].
  cbn [Math_min_from].
  change (is_nan zero) with false. change (is_neg_zero zero) with false.
  change (zero <? zero)%float with false. cbv iota. cbn [andb]. exact IH.
Qed.

Lemma Math_max_zeros (l : list float) :
  l <> [] -> Forall (fun v => v = zero) l -> Math_max l = zero.
Proof.
  intros Hne Hall. destruct l as [|v l]; [congruence|].
  inversion Hall as [|? ? -> Hrest]; subst.
  unfold Math_max. cbn [Math_max_from].
  change (is_nan zero) with false. change (is_neg_zero neg_infinity) with false.
  change (neg_infinity <? zero)%float with true. rewrite andb_false_r. cbv iota.
  clear Hne Hall. induction Hrest as [|w l' -> _ IH]; [reflexivity|].
  cbn [Math_max_from].
  change (is_nan zero) with false. change (is_neg_zero zero) with false.
  change (zero <? zero)%float with false. rewrite andb_false_r. cbv iota. exact IH.
Qed.

Lemma map_y_chartData_from (f : Subgroup -> float) (l : list Subgroup) :
  forall i, map Point.y (chartData_from i f l) = map f l.
Proof. induction l as [|sg l IH]; intros i; cbn; [|rewrite IH]; reflexivity. Qed.

(** Adding or subtracting [+0] changes no number, except that [-0 + 0]
    is [+0], which rounds to four decimals like [-0]. *)
Lemma sub_zero (x : float) : (x - zero)%float = x.
Proof.
  apply Prim2SF_inj. rewrite sub_spec.
  change (Prim2SF zero) with (S754_zero false).
  destruct (Prim2SF x) as [[|]|[|]| |s m e]; reflexivity.
Qed.

Lemma toFixed4_add_zero (x : float) : toFixed4 (x + zero)%float = toFixed4 x.
Proof.
  assert (H : Prim2SF (x + zero)%float = Prim2SF x \/
              (exists s s', Prim2SF (x + zero)%float = S754_zero s /\
                            Prim2SF x = S754_zero s')).
  { rewrite add_spec. change (Prim2SF zero) with (S754_zero false).
    destruct (Prim2SF x) as [[|]|[|]| |s m e]; cbn; eauto. }
  destruct H as [H|(s & s' & H1 & H2)].
  - apply Prim2SF_inj in H. now rewrite H.
  - unfold toFixed4. now rewrite H1, H2.
Qed.

Lemma binary_round_aux_normalize (q : positive) (e : Z) :
  e <= Z.max (Zdigits2 (Zpos q) + e - 53) (-1074) ->
  binary_round_aux prec emax false (Zpos q) e loc_Exact
  = binary_normalize prec emax (Zpos q) e false.
Proof.
  intros H. cbn [binary_normalize]. unfold binary_round.
  change (Z.pos (digits2_pos q)) with (Zdigits2 (Zpos q)).
  rewrite fexp_eq. unfold shl_align.
  destruct (Z.max (Zdigits2 (Z.pos q) + e - 53) (-1074) - e) as [|d|d] eqn:E;
    try reflexivity.
  pose proof (Pos2Z.neg_is_neg d). lia.
Qed.

Lemma binary_round_aux_true (m e : Z) (l : location) :
  binary_round_aux prec emax true m e l
  = SFopp (binary_round_aux prec emax false m e l).
Proof.
  unfold binary_round_aux.
  destruct (shr_fexp _ _ _ _ _) as [mrs' e'].
  destruct (shr_fexp _ _ _ _ _) as [mrs'' e''].
  destruct (shr_m mrs'') as [|p|p]; try reflexivity.
  destruct (e'' <=? emax - prec); reflexivity.
Qed.

(** A number divided by 1 is the number. *)
Lemma div_one (x : float) : (x / 1)%float = x.
Proof.
  apply Prim2SF_inj. rewrite div_spec.
  pose proof (Prim2SF_valid x) as Hv.
  pose proof (Prim2SF_valid (x / 1)%float) as Hvr. rewrite div_spec in Hvr.
  change (Prim2SF 1%float) with (S754_finite false 4503599627370496 (-52)) in *.
  unfold SF64div in *.
  destruct (Prim2SF x) as [s|s| |s m e] eqn:Ex;
    try (destruct s; reflexivity); try reflexivity.
  destruct (valid_finite_bounds _ _ _ Hv) as (He & Hm & Hcan).
  pose proof (Zdigits2_range m) as Hr.
  set (d := Zdigits2 (Zpos m)) in *.
  assert (Hd1 : 1 <= d) by (subst d; cbn [Zdigits2]; lia).
  assert (Hd : d <= 53).
  { destruct (Z.le_gt_cases d 53) as [|Hgt]; [assumption|].
    assert (2 ^ 53 <= 2 ^ (d - 1)) by (apply Z.pow_le_mono_r; lia). lia. }
  assert (Hcore : exists q e',
             SFdiv_core_binary prec emax (Zpos m) e 4503599627370496 (-52)
             = (Zpos q, e', loc_Exact) /\
             -1074 <= e' /\
             e' <= Z.max (Zdigits2 (Zpos q) + e' - 53) (-1074) /\
             Zpos q * 2 ^ (e' + 1074) = Zpos m * 2 ^ (e + 1074)).
  { unfold SFdiv_core_binary. fold d.
    change (Zdigits2 4503599627370496) with 53. rewrite fexp_eq.
    destruct (Z.eq_dec e (-1074)) as [->|Hne].
    - replace (Z.min (Z.max (d + -1074 - (53 + -52) - 53) (-1074)) (-1074 - -52))
        with (-1074) by lia.
      change (-1074 - -52 - -1074) with 52.
      rewrite Z.shiftl_mul_pow2 by lia.
      change 4503599627370496 with (2 ^ 52).
      assert (E : Z.div_eucl (Zpos m * 2 ^ 52) (2 ^ 52) = (Zpos m, 0)).
      { pose proof (Z.div_eucl_eq (Zpos m * 2 ^ 52) (2 ^ 52) ltac:(lia)) as Hq.
        pose proof (Z.mod_pos_bound (Zpos m * 2 ^ 52) (2 ^ 52) ltac:(lia)) as Hb.
        unfold Z.modulo in Hb.
        destruct (Z.div_eucl (Zpos m * 2 ^ 52) (2 ^ 52)) as [q r].
        assert (r = 0) by lia. f_equal; lia. }
      rewrite E. exists m, (-1074). split; [reflexivity|].
      split; [lia|]. split; [fold d; lia|reflexivity].
    - assert (Hm52 : 2 ^ 52 <= Zpos m) by lia.
      assert (Hd53 : d = 53) by (subst d; apply Zdigits2_bounds; lia).
      rewrite Hd53.
      replace (Z.min (Z.max (53 + e - (53 + -52) - 53) (-1074)) (e - -52))
        with (e - 1) by lia.
      replace (e - -52 - (e - 1)) with 53 by lia.
      rewrite Z.shiftl_mul_pow2 by lia.
      change 4503599627370496 with (2 ^ 52).
      assert (E : Z.div_eucl (Zpos m * 2 ^ 53) (2 ^ 52) = (Zpos (m~0), 0)).
      { pose proof (Z.div_eucl_eq (Zpos m * 2 ^ 53) (2 ^ 52) ltac:(lia)) as Hq.
        pose proof (Z.mod_pos_bound (Zpos m * 2 ^ 53) (2 ^ 52) ltac:(lia)) as Hb.
        unfold Z.modulo in Hb.
        destruct (Z.div_eucl (Zpos m * 2 ^ 53) (2 ^ 52)) as [q r].
        change (2 ^ 53) with (2 * 2 ^ 52) in Hq.
        change (Z.pos m~0) with (2 * Zpos m).
        assert (r = 0) by lia. f_equal; lia. }
      rewrite E. exists (m~0)%positive, (e - 1). split; [reflexivity|].
      split; [lia|]. split.
      + assert (Zdigits2 (Zpos m~0) = 54).
        { apply Zdigits2_bounds; [|lia].
          change (Z.pos m~0) with (2 * Zpos m).
          change (2 ^ (54 - 1)) with (2 * 2 ^ 52). change (2 ^ 54) with (2 * 2 ^ 53).
          lia. }
        lia.
      + change (Z.pos m~0) with (2 * Zpos m).
        replace (e + 1074) with (Z.succ (e - 1 + 1074)) by lia.
        rewrite Z.pow_succ_r by lia. ring. }
  destruct Hcore as (q & e' & Hcore & He' & Hshape & Hval).
  cbn [SFdiv] in *. rewrite Hcore in *.
  assert (Hfalse : binary_round_aux prec emax false (Zpos q) e' loc_Exact
                   = S754_finite false m e).
  { rewrite binary_round_aux_normalize by exact Hshape.
    apply binary_normalize_exact; try assumption; try exact I.
    rewrite <- binary_round_aux_normalize by exact Hshape.
    destruct s; cbn [xorb] in Hvr; [|exact Hvr].
    rewrite binary_round_aux_true, valid_SFopp in Hvr. exact Hvr. }
  destruct s; cbn [xorb].
  - rewrite binary_round_aux_true, Hfalse. reflexivity.
  - exact Hfalse.
Qed.

(** The mean of a window of one measurement is the measurement; a [-0]
    becomes [+0] in the sum that starts from [+0]. *)
Lemma statistics_one_mean (v : float) :
  mean (statistics 1 [v]) = if is_neg_zero v then zero else v.
Proof.
  cbn [statistics mean sum fold_left].
  change (Z2float 1) with 1%float. rewrite div_one.
  assert (H : Prim2SF (0 + v)%float
              = Prim2SF (if is_neg_zero v then zero else v)).
  { rewrite add_spec. unfold is_neg_zero, PrimFloat.is_zero.
    rewrite eqb_spec. change (Prim2SF 0%float) with (S754_zero false).
    assert (Hs : forall s, Prim2SF v = S754_zero s -> get_sign v = s).
    { intros s E. rewrite <- (SF2Prim_Prim2SF v), E. destruct s; reflexivity. }
    destruct (Prim2SF v) as [s|s| |s m e] eqn:Ev.
    - rewrite (Hs s eq_refl). destruct s; cbn; [reflexivity|exact (eq_sym Ev)].
    - cbn. destruct s; cbn; rewrite Ev; reflexivity.
    - cbn. rewrite Ev. reflexivity.
    - cbn. destruct s; cbn; rewrite Ev; reflexivity. }
  now apply Prim2SF_inj.
Qed.

(** X7: with sample size 1 and finite measurements the range chart is
    flat: every plotted range is 0, both range limits are 0, the padding is
    0 and the y-domain of the range chart is [[0, 0]]; in the X-bar chart
    both control limits lie on the centre line, and the plotted points are
    the measurements themselves (a [-0] plotted as [+0]). *)
Theorem charts_at_size_one (fuel : nat) (selectedShifts : list Z)
    (inspectionData : list InspectionData) :
  let measurements :=
    map ActualSpecification (filteredData selectedShifts inspectionData) in
  measurements <> [] ->
  Z.of_nat (length measurements) < 2 ^ 32 ->
  forallb is_finite measurements = true ->
  (length measurements <= fuel)%nat ->
  exists analysis,
    handleAnalyze_try fuel selectedShifts 1 inspectionData
      = SetAnalysisData analysis /\
    let charts := controlCharts analysis in
    length (rangeData charts) = length measurements /\
    Forall (fun pt => Point.y pt = 0%float) (rangeData charts) /\
    rangeUcl (limits charts) = 0%float /\
    rangeLcl (limits charts) = 0%float /\
    ControlCharts.YPadding.range (ControlCharts.yPadding (limits charts)) = 0%float /\
    ControlCharts.rangeDomain (rangeData charts) (limits charts) = (0, 0)%float /\
    xBarUcl (limits charts) = xBarMean (limits charts) /\
    xBarLcl (limits charts) = xBarMean (limits charts) /\
    map Point.y (xBarData charts)
    = map (fun v => if is_neg_zero v then zero else v) measurements.
Proof.
  intros measurements Hne Hlen Hfin Hfuel.
  set (records := filteredData selectedShifts inspectionData) in *.
  assert (Hrec : length records = length measurements)
    by (subst measurements; now rewrite length_map).
  destruct (analyze_normal fuel 1 records)
    as (subgroups & c & d0 & dd & Hsg & Hc & _ & _ & Han);
    [lia|intros ->; now apply Hne|lia|lia|].
  fold measurements in Hsg.
  rewrite calculateSubgroups_size_one in Hsg by assumption.
  injection Hsg as <-. injection Hc as <-.
  destruct (average_range_size_one measurements Hne Hlen Hfin) as [HF Havg].
  set (subgroups := map (fun v => statistics 1 [v]) measurements) in *.
  eexists. unfold handleAnalyze_try. fold records. rewrite Han.
  split; [reflexivity|].
  cbv zeta. cbn [controlCharts rangeData limits].
  assert (Hys : Forall (fun v => v = zero) (map range subgroups))
    by (apply Forall_map; exact HF).
  assert (Hsub : map range subgroups <> []).
  { subst subgroups. destruct measurements; [congruence|discriminate]. }
  assert (Hu : rangeUcl (controlLimits {| A2 := 1.880; D3 := 0; D4 := 3.267 |}
                           subgroups) = zero).
  { unfold controlLimits. cbn [rangeUcl D4]. rewrite Havg. reflexivity. }
  assert (Hl : rangeLcl (controlLimits {| A2 := 1.880; D3 := 0; D4 := 3.267 |}
                           subgroups) = zero).
  { unfold controlLimits. cbn [rangeLcl D3]. rewrite Havg. reflexivity. }
  split; [rewrite length_chartData_from; subst subgroups; apply length_map|].
  split.
  { rewrite Forall_forall. intros pt Hpt.
    apply (in_map Point.y) in Hpt. rewrite map_y_chartData_from in Hpt.
    rewrite Forall_forall in Hys. apply Hys, Hpt. }
  split; [exact Hu|]. split; [exact Hl|].
  unfold ControlCharts.rangeDomain, ControlCharts.yPadding. cbn [ControlCharts.YPadding.range].
  rewrite Hu, Hl, map_y_chartData_from.
  rewrite (Math_min_zeros (map range subgroups)),
    (Math_max_zeros (map range subgroups)) by assumption.
  split; [reflexivity|]. split; [reflexivity|].
  unfold controlLimits. cbn [xBarUcl xBarLcl xBarMean A2]. rewrite Havg.
  change (1.880 * zero)%float with zero.
  split; [apply toFixed4_add_zero|]. split; [now rewrite sub_zero|].
  cbn [xBarData]. rewrite map_y_chartData_from. subst subgroups. rewrite map_map.
  apply map_ext. intros v. apply statistics_one_mean.
Qed.

Lemma charts_at_size_one_witness :
  exists analysis,
    handleAnalyze_try 3 [1] 1 (inspections 1 5 15 [10; 12; 11]%float)
      = SetAnalysisData analysis /\
    ControlCharts.rangeDomain (rangeData (controlCharts analysis))
      (limits (controlCharts analysis)) = (0, 0)%float.
Proof.
  destruct (charts_at_size_one 3 [1]
              (inspections 1 5 15 [10; 12; 11]%float))
    as (analysis & Han & _ & _ & _ & _ & _ & Hd & _).
  - discriminate.
  - cbn. lia.
  - reflexivity.
  - cbn. lia.
  - exists analysis. split; [exact Han|exact Hd].
Defined.

(** ** The charts without a subgroup *)

(** X8: with at least one record but fewer than the sample size the
    analysis is stored and the charts are drawn from it without a point:
    the width is the minimum 400 and both ends of both y-domains are NaN. *)
Theorem charts_without_subgroups (fuel : nat) (selectedShifts : list Z)
    (sampleSize : Z) (inspectionData : list InspectionData) :
  let records := filteredData selectedShifts inspectionData in
  1 <= sampleSize <= 5 ->
  0 < Z.of_nat (length records) < sampleSize ->
  (length records <= fuel)%nat ->
  exists analysis,
    handleAnalyze_try fuel selectedShifts sampleSize inspectionData
      = SetAnalysisData analysis /\
    let charts := controlCharts analysis in
    xBarData charts = [] /\ rangeData charts = [] /\
    ControlCharts.chartWidth (xBarData charts) = 400%float /\
    ControlCharts.xBarDomain (xBarData charts) (limits charts) = (nan, nan) /\
    ControlCharts.rangeDomain (rangeData charts) (limits charts) = (nan, nan).
Proof.
  intros records Hsize Hlen Hfuel.
  destruct (analyze_normal fuel sampleSize records Hsize)
    as (subgroups & c & d0 & dd & Hsg & Hc & _ & _ & Han);
    [intros Hnil; rewrite Hnil in Hlen; simpl in Hlen; lia|lia|lia|].
  assert (Hnone : subgroups = []).
  { rewrite calculateSubgroups_windows in Hsg
      by (try rewrite length_map; lia).
    rewrite length_map in Hsg.
    rewrite Nat.div_small in Hsg by lia. injection Hsg as <-. reflexivity. }
  subst subgroups.
  eexists. unfold handleAnalyze_try. fold records. rewrite Han.
  split; [reflexivity|].
  cbv zeta. cbn [controlCharts xBarData rangeData limits chartData_from].
  split; [reflexivity|]. split; [reflexivity|]. split; [reflexivity|].
  assert (Hcs : sampleSize = 1 \/ sampleSize = 2 \/ sampleSize = 3 \/
                sampleSize = 4 \/ sampleSize = 5) by lia.
  destruct Hcs as [->|[->|[->|[->| ->]]]]; injection Hc as <-;
    split; vm_compute; reflexivity.
Qed.

Lemma charts_without_subgroups_witness :
  exists analysis,
    handleAnalyze_try 1 [1] 2 (inspections 1 5 15 [10]%float)
      = SetAnalysisData analysis /\
    ControlCharts.xBarDomain (xBarData (controlCharts analysis))
      (limits (controlCharts analysis)) = (nan, nan).
Proof.
  destruct (charts_without_subgroups 1 [1] 2 (inspections 1 5 15 [10]%float))
    as (analysis & Han & _ & _ & _ & Hd & _).
  - lia.
  - cbn. lia.
  - cbn. lia.
  - exists analysis. split; [exact Han|exact Hd].
Defined.

(** ** The report *)

(** Whatever analysis the handler stores, its metrics are those
    [capabilityMetrics] builds. *)
Lemma handleAnalyze_metrics (fuel : nat) (selectedShifts : list Z)
    (material operation gauge : string) (sampleSize : Z)
    (inspectionData : list InspectionData) (analysis : Analysis) :
  handleAnalyze fuel selectedShifts material operation gauge sampleSize
    inspectionData = SetAnalysisData analysis ->
  exists mean rangeMean usl lsl,
    metrics analysis = capabilityMetrics sampleSize mean rangeMean usl lsl.
Proof.
  unfold handleAnalyze, handleAnalyze_try, analyze.
  destruct (_ || _)%bool; [discriminate|].
  destruct (calculateSubgroups _ _ _) as [subgroups|]; [|discriminate].
  destruct (constants sampleSize) as [c|]; [|discriminate].
  destruct (filteredData selectedShifts inspectionData) as [|d0 rest];
    [discriminate|].
  cbn [bind first_record].
  destruct (calculateDistributionData _) as [dd|]; [|discriminate].
  cbn [bind]. intros [= <-]. cbn [metrics]. eauto.
Qed.

(** X9: in the report of any analysis [handleAnalyze] stores, the sentence
    on long-term performance ([pp]) is the favourable one exactly when the
    sentence on short-term capability ([cp]) is, and the sentence on
    long-term centring ([ppk]) exactly when the one on short-term centring
    ([cpk]) is: the long-term lines never say anything of their own. *)
Theorem interpretation_long_term_is_short_term (fuel : nat)
    (selectedShifts : list Z) (material operation gauge : string)
    (sampleSize : Z) (inspectionData : list InspectionData)
    (analysis : Analysis) :
  handleAnalyze fuel selectedShifts material operation gauge sampleSize
    inspectionData = SetAnalysisData analysis ->
  let report := interpretation (metrics analysis) in
  (longTermPerformance report = "Process is performing well"%string
   <-> shortTermCapability report = "Process is capable"%string) /\
  (longTermPerformance report = "Long-term performance needs improvement"%string
   <-> shortTermCapability report = "Process needs improvement"%string) /\
  (longTermCentered report = "Process is stable"%string
   <-> shortTermCentered report = "Process is centered"%string) /\
  (longTermCentered report = "Long-term stability needs improvement"%string
   <-> shortTermCentered report = "Process centering needs improvement"%string).
Proof.
  intros H. destruct (handleAnalyze_metrics _ _ _ _ _ _ _ _ H)
    as (mean & rangeMean & usl & lsl & ->).
  cbv zeta. unfold interpretation.
  cbn [capabilityMetrics cp cpk pp ppk shortTermCapability shortTermCentered
       longTermPerformance longTermCentered].
  destruct (1.33 <=? toFixed4 _)%float; destruct (1.33 <=? toFixed4 _)%float;
    repeat split; intros; (reflexivity || discriminate).
Qed.

Lemma interpretation_long_term_is_short_term_witness :
  exists analysis,
    handleAnalyze 8 [1] "M1" "OP1" "G1" 2
      (inspections 1 5 15 [10; 12; 11; 13; 9; 11; 10; 12]%float)
    = SetAnalysisData analysis /\
    (longTermPerformance (interpretation (metrics analysis))
     = "Long-term performance needs improvement"%string
     <-> shortTermCapability (interpretation (metrics analysis))
         = "Process needs improvement"%string).
Proof.
  eexists. split; [vm_compute; reflexivity|].
  eapply (interpretation_long_term_is_short_term 8 [1] "M1" "OP1" "G1" 2
            (inspections 1 5 15 [10; 12; 11; 13; 9; 11; 10; 12]%float)).
  vm_compute. reflexivity.
Defined.

(** ** The verdicts at sample size 1 *)

(** The difference of two numbers, at least one of them finite, divided by
    [+0]: plus infinity when the first is the larger, and minus infinity or
    NaN otherwise. *)
Lemma sub_div_zero (a b : float) :
  is_finite a = true \/ is_finite b = true ->
  ((b <? a)%float = true /\ ((a - b) / zero)%float = infinity) \/
  ((b <? a)%float = false /\
   (((a - b) / zero)%float = neg_infinity \/ ((a - b) / zero)%float = nan)).
Proof.
  intros Hfin.
  assert (Hres : forall sf, Prim2SF ((a - b) / zero)%float = sf ->
                            ((a - b) / zero)%float = SF2Prim sf)
    by (intros sf; apply Prim2SF_eq).
  rewrite div_spec, sub_spec in Hres. rewrite ltb_spec.
  change (Prim2SF zero) with (S754_zero false) in Hres.
  pose proof (Prim2SF_valid a) as Hva. pose proof (Prim2SF_valid b) as Hvb.
  pose proof (Prim2SF_valid (a - b)%float) as Hvs. rewrite sub_spec in Hvs.
  assert (Hfa : is_finite a = true -> finite_or_zero (Prim2SF a))
    by apply finite_Prim2SF.
  assert (Hfb : is_finite b = true -> finite_or_zero (Prim2SF b))
    by apply finite_Prim2SF.
  unfold SF64div, SF64sub in *.
  destruct (Prim2SF a) as [sa|sa| |sa ma ea] eqn:Ea;
    destruct (Prim2SF b) as [sb|sb| |sb mb eb] eqn:Eb;
    try (exfalso; destruct Hfin as [H|H]; [apply Hfa in H|apply Hfb in H];
         contradiction).
  all: try solve
    [ destruct sa, sb;
      first [ left; split; [reflexivity|rewrite (Hres _ eq_refl); reflexivity]
            | right; split; [reflexivity|];
              first [ left; rewrite (Hres _ eq_refl); reflexivity
                    | right; rewrite (Hres _ eq_refl); reflexivity ] ]
    | destruct sa;
      first [ left; split; [reflexivity|rewrite (Hres _ eq_refl); reflexivity]
            | right; split; [reflexivity|];
              first [ left; rewrite (Hres _ eq_refl); reflexivity
                    | right; rewrite (Hres _ eq_refl); reflexivity ] ]
    | destruct sb;
      first [ left; split; [reflexivity|rewrite (Hres _ eq_refl); reflexivity]
            | right; split; [reflexivity|];
              first [ left; rewrite (Hres _ eq_refl); reflexivity
                    | right; rewrite (Hres _ eq_refl); reflexivity ] ] ].
  (* two finite numbers *)
  set (x := S754_finite sa ma ea) in *. set (y := S754_finite sb mb eb) in *.
  unfold SFltb. rewrite SFcompare_ord by (assumption || discriminate).
  pose proof (SFsub_bounds x y (S754_finite false 1 (-1074)) Hva Hvb eq_refl I I I)
    as (Hn & _ & Hlow).
  pose proof (SFsub_bounds x y (S754_zero false) Hva Hvb eq_refl I I I)
    as (_ & Hup & _).
  change (ord (S754_finite false 1 (-1074))) with 1 in Hlow.
  change (ord (S754_zero false)) with 0 in Hup.
  assert (H2100 := pow2100_pos).
  destruct (Z.compare_spec (ord y) (ord x)) as [Heq|Hlt|Hgt].
  - right. split; [reflexivity|]. specialize (Hup ltac:(lia)).
    destruct (SFsub prec emax x y) as [s|[|]| |[|] m e]; try congruence;
      try (exfalso; pose proof (finite_value_lt m e Hvs);
           cbn [ord cond_Zopp] in Hup; lia);
      try (exfalso; cbn [ord cond_Zopp] in Hup; lia);
      first [ left; rewrite (Hres _ eq_refl); reflexivity
            | right; rewrite (Hres _ eq_refl); reflexivity ].
  - left. split; [reflexivity|]. specialize (Hlow ltac:(lia)).
    destruct (SFsub prec emax x y) as [s|[|]| |[|] m e]; try congruence;
      try (exfalso; pose proof (finite_value_lt m e Hvs);
           cbn [ord cond_Zopp] in Hlow; lia);
      try (exfalso; cbn [ord cond_Zopp] in Hlow; lia);
      rewrite (Hres _ eq_refl); reflexivity.
  - right. split; [reflexivity|]. specialize (Hup ltac:(lia)).
    destruct (SFsub prec emax x y) as [s|[|]| |[|] m e]; try congruence;
      try (exfalso; pose proof (finite_value_lt m e Hvs);
           cbn [ord cond_Zopp] in Hup; lia);
      try (exfalso; cbn [ord cond_Zopp] in Hup; lia);
      first [ left; rewrite (Hres _ eq_refl); reflexivity
            | right; rewrite (Hres _ eq_refl); reflexivity ].
Qed.

(** X10: with sample size 1 and finite measurements the sentences of the
    report do not depend on the variation of the process: with at least
    one finite specification limit the report says "Process is capable"
    exactly when [lsl < usl], and with both limits finite it says "Process
    is centered" exactly when the grand mean lies strictly between them. *)
Theorem verdicts_at_size_one (fuel : nat) (selectedShifts : list Z)
    (inspectionData : list InspectionData) :
  let records := filteredData selectedShifts inspectionData in
  let measurements := map ActualSpecification records in
  measurements <> [] ->
  Z.of_nat (length measurements) < 2 ^ 32 ->
  forallb is_finite measurements = true ->
  (length measurements <= fuel)%nat ->
  exists d0 analysis,
    hd_error records = Some d0 /\
    handleAnalyze_try fuel selectedShifts 1 inspectionData
      = SetAnalysisData analysis /\
    let lsl := FromSpecification d0 in
    let usl := ToSpecification d0 in
    let mean := average mean (map (fun v => statistics 1 [v]) measurements) in
    let report := interpretation (metrics analysis) in
    (is_finite lsl = true \/ is_finite usl = true ->
     (shortTermCapability report = "Process is capable"%string
      <-> (lsl <? usl)%float = true)) /\
    (is_finite lsl = true -> is_finite usl = true ->
     (shortTermCentered report = "Process is centered"%string
      <-> (lsl <? mean)%float = true /\ (mean <? usl)%float = true)).
Proof.
  intros records measurements Hne Hlen Hfin Hfuel.
  assert (Hrec : length records = length measurements)
    by (subst measurements; now rewrite length_map).
  destruct (analyze_normal fuel 1 records)
    as (subgroups & c & d0 & dd & Hsg & _ & Hd0 & _ & Han);
    [lia|intros E; apply Hne; subst measurements; rewrite E; reflexivity|lia|lia|].
  fold measurements in Hsg.
  rewrite calculateSubgroups_size_one in Hsg by assumption.
  injection Hsg as <-.
  destruct (average_range_size_one measurements Hne Hlen Hfin) as [_ Havg].
  exists d0. eexists. split; [exact Hd0|].
  unfold handleAnalyze_try. fold records. rewrite Han.
  split; [reflexivity|].
  cbv zeta. unfold interpretation.
  cbn [metrics capabilityMetrics cp cpk shortTermCapability shortTermCentered].
  rewrite Havg.
  change (stdDev_of 1 zero) with zero.
  change (6 * zero)%float with zero. change (3 * zero)%float with zero.
  set (lsl := FromSpecification d0). set (usl := ToSpecification d0).
  set (mean := average SPC.mean (map (fun v => statistics 1 [v]) measurements)).
  split.
  - intros Hl.
    destruct (sub_div_zero usl lsl ltac:(tauto)) as [[Hlt ->]|[Hlt [->| ->]]];
      rewrite Hlt; vm_compute; split; intros H; (reflexivity || discriminate).
  - intros Hl Hu.
    destruct (sub_div_zero usl mean ltac:(tauto)) as [[Hlt1 ->]|[Hlt1 [->| ->]]];
      destruct (sub_div_zero mean lsl ltac:(tauto)) as [[Hlt2 ->]|[Hlt2 [->| ->]]];
      rewrite Hlt1, Hlt2; vm_compute; split; intros H;
      try reflexivity; try discriminate; try (split; reflexivity);
      destruct H; discriminate.
Qed.

Lemma verdicts_at_size_one_witness :
  exists analysis,
    handleAnalyze_try 3 [1] 1 (inspections 1 5 15 [10; 12; 11]%float)
      = SetAnalysisData analysis /\
    shortTermCapability (interpretation (metrics analysis))
    = "Process is capable"%string.
Proof.
  destruct (verdicts_at_size_one 3 [1] (inspections 1 5 15 [10; 12; 11]%float))
    as (d0 & analysis & Hd0 & Han & Hcp & _).
  - discriminate.
  - cbn. lia.
  - reflexivity.
  - cbn. lia.
  - exists analysis. split; [exact Han|].
    injection Hd0 as <-. apply Hcp; [left|]; reflexivity.
Defined.

(** ** Subgroups of a concatenation *)

Lemma window_app_l (a b : list float) (n j : nat) :
  (S j * n <= length a)%nat -> window (a ++ b) n j = window a n j.
Proof.
  intros H. unfold window.
  rewrite skipn_app.
  replace (j * n - length a)%nat with O by lia. cbn [skipn].
  rewrite firstn_app, length_skipn.
  replace (n - (length a - j * n))%nat with O by lia.
  cbn [firstn]. apply app_nil_r.
Qed.

Lemma window_app_r (a b : list float) (n k j : nat) :
  length a = (k * n)%nat -> window (a ++ b) n (k + j) = window b n j.
Proof.
  intros H. unfold window.
  rewrite skipn_app.
  rewrite (skipn_all2 a) by lia. cbn [app].
  f_equal. f_equal. lia.
Qed.

Lemma map_seq_from {B : Type} (g : nat -> B) (k m : nat) :
  map g (seq k m) = map (fun j => g (k + j)%nat) (seq 0 m).
Proof.
  revert k. induction m as [|m IH]; intros k; [reflexivity|].
  cbn [seq map]. f_equal; [f_equal; lia|].
  rewrite IH. rewrite <- seq_shift, map_map.
  apply map_ext. intros j. f_equal. lia.
Qed.

(** X11: subgrouping distributes over concatenation at a subgroup
    boundary: when the first sequence holds exactly [k] complete windows,
    the subgroups of the concatenation are its [k] subgroups followed by
    the subgroups of the second sequence; so appending fewer than [size]
    measurements to such a sequence changes nothing. *)
Theorem calculateSubgroups_app (fuel : nat) (a b : list float) (size : Z)
    (k : nat) :
  1 <= size ->
  length a = (k * Z.to_nat size)%nat ->
  (length a + length b <= fuel)%nat ->
  exists sa sb,
    calculateSubgroups fuel a size = Some sa /\
    calculateSubgroups fuel b size = Some sb /\
    calculateSubgroups fuel (a ++ b) size = Some (sa ++ sb) /\
    length sa = k /\
    (Z.of_nat (length b) < size -> sb = []).
Proof.
  intros Hsize Ha Hfuel.
  set (n := Z.to_nat size) in *.
  assert (Hn : n <> O) by (subst n; lia).
  rewrite !calculateSubgroups_windows by (try rewrite length_app; lia).
  fold n. eexists _, _. split; [reflexivity|]. split; [reflexivity|].
  split; [|split].
  - f_equal. rewrite length_app, Ha.
    rewrite Nat.div_add_l by exact Hn.
    rewrite Nat.div_mul by exact Hn.
    rewrite seq_app, map_app. cbn [Nat.add]. f_equal.
    + apply map_ext_in. intros j Hj. apply in_seq in Hj. f_equal.
      apply window_app_l. rewrite Ha. apply Nat.mul_le_mono_r. lia.
    + rewrite map_seq_from. apply map_ext. intros j. f_equal.
      apply window_app_r. exact Ha.
  - rewrite length_map, length_seq, Ha. apply Nat.div_mul. exact Hn.
  - intros Hb. rewrite Nat.div_small by (subst n; lia). reflexivity.
Qed.

Lemma calculateSubgroups_app_witness :
  calculateSubgroups 5 ([10; 12; 11; 13] ++ [9])%float 2
  = calculateSubgroups 5 [10; 12; 11; 13]%float 2.
Proof.
  destruct (calculateSubgroups_app 5 [10; 12; 11; 13]%float [9]%float 2 2)
    as (sa & sb & Ha & Hb & Hab & _ & Hnil).
  - lia.
  - reflexivity.
  - cbn. lia.
  - rewrite Hab, Ha, (Hnil ltac:(cbn; lia)), app_nil_r. reflexivity.
Defined.

(** ** The number of bins *)

(** Rounding a 53-bit mantissa with a remainder: the mantissa or its
    successor, at the same value scale. *)
Lemma binary_round_aux_53_value (q e : Z) (l : location) :
  2 ^ 52 <= q < 2 ^ 53 -> -1074 <= e <= 970 ->
  exists (m : positive) (e2 : Z),
    binary_round_aux prec emax false q e l = S754_finite false m e2 /\
    e <= e2 <= e + 1 /\
    Zpos m * 2 ^ (e2 - e) = round_nearest_even q l.
Proof.
  intros Hq He.
  assert (Hd : Zdigits2 q = 53) by (apply Zdigits2_bounds; lia).
  unfold binary_round_aux. unfold shr_fexp at 1. rewrite Hd, fexp_eq.
  replace (Z.max (53 + e - 53) (-1074) - e) with 0 by lia.
  cbn [shr].
  assert (Hm : shr_m (shr_record_of_loc q l) = q)
    by (destruct l as [|[ | | ]]; reflexivity).
  assert (Hl : loc_of_shr_record (shr_record_of_loc q l) = l)
    by (destruct l as [|[ | | ]]; reflexivity).
  rewrite Hm, Hl.
  set (q' := round_nearest_even q l).
  assert (Hq' : q <= q' <= q + 1).
  { subst q'. destruct l as [|[ | | ]]; cbn [round_nearest_even];
      try destruct (Z.even q); lia. }
  destruct (round_stage2 q' e ltac:(lia) ltac:(lia))
    as (mrs2 & e2 & m2 & Hst & Hm2 & Hval & Hb2 & He2).
  rewrite Hst, Hm2.
  assert (He2' : e2 <= e + 1).
  { destruct (Z.le_gt_cases e2 (e + 1)) as [|Hgt]; [assumption|exfalso].
    assert (2 ^ (e + 2 + 1074) <= 2 ^ (e2 + 1074)) by (apply Z.pow_le_mono_r; lia).
    replace (e + 2 + 1074) with (2 + (e + 1074)) in H by lia.
    rewrite Z.pow_add_r in H by lia.
    assert (0 < 2 ^ (e + 1074)) by (apply Z.pow_pos_nonneg; lia).
    change (2 ^ 2) with 4 in H. change (2 ^ 53) with (2 * 2 ^ 52) in *. nia. }
  change (emax - prec) with 971.
  destruct (Z.leb_spec e2 971); [|lia].
  exists m2, e2. split; [reflexivity|]. split; [lia|].
  replace (e2 + 1074) with ((e2 - e) + (e + 1074)) in Hval by lia.
  rewrite Z.pow_add_r in Hval by lia.
  assert (0 < 2 ^ (e + 1074)) by (apply Z.pow_pos_nonneg; lia).
  nia.
Qed.

(** The arithmetic of the ceiling: [t] is the weight of an integer in
    units of the last place, [q] the truncated square root of [p * t^2]
    and [q'] its rounding. *)
Lemma ceil_sqrt_arith (p t q q' z : Z) :
  0 < p -> 2 ^ 37 <= t -> 0 <= q < 2 ^ 53 ->
  q * q <= p * (t * t) < (q + 1) * (q + 1) ->
  q <= q' <= q + 1 ->
  (p * (t * t) = q * q -> q' = q) ->
  (z - 1) * t < q' <= z * t ->
  1 <= z /\ p <= z * z /\ (z - 1) * (z - 1) < p.
Proof.
  intros Hp Ht Hq Hsq Hq' Hex Hz.
  assert (Ht0 : 0 < t) by lia.
  assert (Htt : 0 < t * t) by nia.
  assert (Hz1 : 1 <= z).
  { destruct (Z.le_gt_cases 1 z) as [|Hlt]; [assumption|exfalso].
    assert (z * t <= 0) by nia.
    assert (q = 0) by lia. subst q.
    assert (1 * 1 <= p * (t * t)) by (apply Z.mul_le_mono_nonneg; lia). lia. }
  split; [exact Hz1|].
  assert (Hsquare : forall a, (a * t) * (a * t) = (a * a) * (t * t))
    by (intros; ring).
  split.
  - destruct (Z.le_gt_cases (q + 1) (z * t)) as [Hbig|Hsmall].
    + assert ((q + 1) * (q + 1) <= (z * t) * (z * t))
        by (apply Z.mul_le_mono_nonneg; lia).
      rewrite Hsquare in H.
      assert (p * (t * t) < (z * z) * (t * t)) by lia.
      apply Z.mul_lt_mono_pos_r in H0; lia.
    + assert (Ezt : z * t = q) by lia.
      destruct (Z.le_gt_cases p (z * z)) as [|Hgt]; [assumption|exfalso].
      assert ((z * z + 1) * (t * t) <= p * (t * t))
        by (apply Z.mul_le_mono_nonneg_r; lia).
      assert (E : (z * z + 1) * (t * t) = q * q + t * t)
        by (rewrite <- Ezt; ring).
      assert (2 ^ 37 * 2 ^ 37 <= t * t) by (apply Z.mul_le_mono_nonneg; lia).
      change (2 ^ 37 * 2 ^ 37) with (2 ^ 74) in *.
      assert (2 * 2 ^ 53 + 1 < 2 ^ 74) by reflexivity.
      assert ((q + 1) * (q + 1) = q * q + 2 * q + 1) by ring.
      lia.
  - assert (Hle : (z - 1) * t <= q) by lia.
    assert (H0 : 0 <= (z - 1) * t) by nia.
    assert (Hsq' : ((z - 1) * t) * ((z - 1) * t) <= q * q)
      by (apply Z.mul_le_mono_nonneg; lia).
    rewrite Hsquare in Hsq'.
    assert (Hle' : (z - 1) * (z - 1) * (t * t) <= p * (t * t)) by lia.
    apply Z.mul_le_mono_pos_r in Hle'; [|exact Htt].
    destruct (Z.lt_ge_cases ((z - 1) * (z - 1)) p) as [|Hge]; [assumption|exfalso].
    assert (Heq : (z - 1) * (z - 1) = p) by lia.
    assert (Hm : p * (t * t) = q * q) by (rewrite <- Heq; lia).
    specialize (Hex Hm).
    assert (((z - 1) * t) * ((z - 1) * t) = q * q)
      by (rewrite Hsquare, Heq; exact Hm).
    assert ((z - 1) * t = q) by nia.
    lia.
Qed.

(** [Math.ceil(Math.sqrt(n))] is the integer ceiling of the square root:
    the rounding of the square root never moves it across an integer. *)
Lemma ceil_sqrt_exact (n : Z) :
  0 <= n < 2 ^ 32 ->
  exists k, Math_ceil (Math_sqrt (Z2float n)) = Z2float k /\
            0 <= k <= 2 ^ 16 /\ n <= k * k /\
            (0 < n -> 1 <= k /\ (k - 1) * (k - 1) < n).
Proof.
  intros Hn. destruct n as [|p|p]; [| |lia].
  { exists 0. split; [reflexivity|lia]. }
  assert (Hp : Zpos p < 2 ^ 53) by lia.
  destruct (Prim2SF_Z2float_small p Hp) as (mx & Hx & Hmxv & Hmx & Hd).
  pose proof (Zdigits2_range p) as Hr.
  set (d := Zdigits2 (Zpos p)) in *.
  assert (Hd32 : d <= 32).
  { destruct (Z.le_gt_cases d 32) as [|Hgt]; [assumption|].
    assert (2 ^ 32 <= 2 ^ (d - 1)) by (apply Z.pow_le_mono_r; lia). lia. }
  (* the square root *)
  assert (Hsqrt : exists (m : positive) (e e' q' : Z),
             Prim2SF (Math_sqrt (Z2float (Zpos p))) = S754_finite false m e /\
             -52 <= e' <= -37 /\ e' <= e <= e' + 1 /\
             Zpos m * 2 ^ (e - e') = q' /\
             2 ^ 52 <= Z.sqrt (Zpos p * 2 ^ (- 2 * e')) < 2 ^ 53 /\
             Z.sqrt (Zpos p * 2 ^ (- 2 * e')) <= q'
             <= Z.sqrt (Zpos p * 2 ^ (- 2 * e')) + 1 /\
             (q' = Z.sqrt (Zpos p * 2 ^ (- 2 * e')) + 1 ->
              Z.sqrt (Zpos p * 2 ^ (- 2 * e'))
              < Zpos p * 2 ^ (- 2 * e')
                - Z.sqrt (Zpos p * 2 ^ (- 2 * e')) * Z.sqrt (Zpos p * 2 ^ (- 2 * e'))) /\
             (Zpos p * 2 ^ (- 2 * e')
              = Z.sqrt (Zpos p * 2 ^ (- 2 * e')) * Z.sqrt (Zpos p * 2 ^ (- 2 * e')) ->
              q' = Z.sqrt (Zpos p * 2 ^ (- 2 * e')))).
  { unfold Math_sqrt. rewrite sqrt_spec, Hx. unfold SF64sqrt.
    cbn [SFsqrt]. unfold SFsqrt_core_binary.
    assert (Hdm : Zdigits2 (Zpos mx) = 53) by (apply Zdigits2_bounds; lia).
    rewrite Hdm. rewrite !Z.div2_div. rewrite fexp_eq.
    set (ex := d - 53).
    set (e' := Z.min (Z.max ((53 + ex + 1) / 2 - 53) (-1074)) (ex / 2)).
    assert (He' : e' = (ex + 54) / 2 - 53).
    { subst e'. replace (53 + ex + 1) with (ex + 54) by lia.
      replace (ex + 54) with (ex + 27 * 2) by lia.
      rewrite Z.div_add by lia. Z.div_mod_to_equations. lia. }
    assert (Hs : ex - 2 * e' = 52 \/ ex - 2 * e' = 53)
      by (rewrite He'; Z.div_mod_to_equations; lia).
    assert (Hrange : -52 <= e' <= -37)
      by (rewrite He'; subst ex; Z.div_mod_to_equations; lia).
    set (m' := match ex - 2 * e' with
               | 0 => Z.pos mx
               | Z.pos _ => Z.shiftl (Z.pos mx) (ex - 2 * e')
               | Z.neg _ => 0
               end).
    assert (Hm'v : m' = Zpos p * 2 ^ (- 2 * e')).
    { assert (E : m' = Zpos mx * 2 ^ (ex - 2 * e')).
      { subst m'. destruct Hs as [-> | ->]; rewrite Z.shiftl_mul_pow2 by lia;
          reflexivity. }
      rewrite E, Hmxv, <- Z.mul_assoc, <- Z.pow_add_r by (subst ex; lia).
      f_equal. f_equal. subst ex. lia. }
    assert (Hm' : 2 ^ 104 <= m' < 2 ^ 106).
    { subst m'. destruct Hs as [-> | ->]; rewrite Z.shiftl_mul_pow2 by lia; lia. }
    pose proof (Z.sqrtrem_sqrt m') as Hsq.
    pose proof (Z.sqrtrem_spec m' ltac:(lia)) as Hspec.
    destruct (Z.sqrtrem m') as [q r] eqn:Hqr. cbn [fst] in Hsq. subst q.
    destruct Hspec as [Hmq Hrb].
    assert (Hq : 2 ^ 52 <= Z.sqrt m' < 2 ^ 53).
    { split.
      - change (2 ^ 52) with (Z.sqrt (2 ^ 104)). apply Z.sqrt_le_mono. lia.
      - apply Z.sqrt_lt_square; lia. }
    set (l := if r =? 0 then loc_Exact
              else loc_Inexact (if r <=? Z.sqrt m' then Lt else Gt)).
    destruct (binary_round_aux_53_value (Z.sqrt m') e' l Hq ltac:(lia))
      as (m & e & Hres & He & Hval).
    exists m, e, e', (round_nearest_even (Z.sqrt m') l).
    rewrite <- Hm'v.
    split; [exact Hres|]. split; [exact Hrange|]. split; [exact He|].
    split; [exact Hval|]. split; [exact Hq|].
    subst l.
    destruct (Z.eqb_spec r 0) as [Hr0|Hr0]; cbn [round_nearest_even].
    - split; [lia|]. split; [lia|]. reflexivity.
    - destruct (Z.leb_spec r (Z.sqrt m')) as [Hle|Hgt]; cbn [round_nearest_even].
      + split; [lia|]. split; [lia|]. reflexivity.
      + split; [lia|]. split; [intros _; lia|]. intros E. lia. }
  destruct Hsqrt as (m & e & e' & q' & Hy & He' & He & Hval & Hq & Hq' & Hup & Hex).
  set (t := 2 ^ (- e')) in *.
  assert (Ht : 2 ^ 37 <= t) by (subst t; apply Z.pow_le_mono_r; lia).
  assert (Htt : 2 ^ (- 2 * e') = t * t).
  { subst t. rewrite <- Z.pow_add_r by lia. f_equal. lia. }
  rewrite Htt in *.
  set (m' := Zpos p * (t * t)) in *.
  set (q := Z.sqrt m') in *.
  pose proof (Z.sqrt_spec m' ltac:(subst m'; nia)) as Hsq. cbv zeta in Hsq. fold q in Hsq.
  (* the ceiling *)
  unfold Math_ceil. rewrite Hy.
  destruct (Z.leb_spec 0 e) as [|_]; [lia|].
  cbn [cond_Zopp]. rewrite Z.shiftr_div_pow2 by lia.
  set (t2 := 2 ^ (- e)) in *.
  assert (Ht2 : 0 < t2) by (subst t2; apply Z.pow_pos_nonneg; lia).
  set (z := - (- Z.pos m / t2)).
  assert (Hz : (z - 1) * t2 < Zpos m <= z * t2).
  { subst z. pose proof (Z.div_mod (- Zpos m) t2 ltac:(lia)) as Hdm.
    pose proof (Z.mod_pos_bound (- Zpos m) t2 Ht2) as Hmb. nia. }
  assert (Htc : t = t2 * 2 ^ (e - e')).
  { subst t t2. rewrite <- Z.pow_add_r by lia. f_equal. lia. }
  assert (Hc : 0 < 2 ^ (e - e')) by (apply Z.pow_pos_nonneg; lia).
  assert (Hzq : (z - 1) * t < q' <= z * t) by (rewrite Htc; nia).
  destruct (ceil_sqrt_arith (Zpos p) t q q' z) as (Hz1 & Hup' & Hlow);
    try assumption; try lia.
  assert (Hz16 : z <= 2 ^ 16).
  { destruct (Z.le_gt_cases z (2 ^ 16)) as [|Hgt]; [assumption|exfalso].
    assert (2 ^ 16 * 2 ^ 16 <= (z - 1) * (z - 1))
      by (apply Z.mul_le_mono_nonneg; lia).
    change (2 ^ 16 * 2 ^ 16) with (2 ^ 32) in *. lia. }
  destruct (Z.eqb_spec z 0) as [|_]; [lia|].
  exists z. split; [reflexivity|]. split; [lia|]. split; [exact Hup'|].
  intros _. split; [exact Hz1|exact Hlow].
Qed.

(** ** The shape of the histogram *)

(** The clamped bin index [Math.min(x, numberOfBins - 1)] is never above the
    last bin, whatever [x] is. *)
Lemma clamp_index (x : float) (r : Z) :
  0 <= r < 2 ^ 53 ->
  float2Z (Math_min [x; Z2float r]) = None \/
  exists i, float2Z (Math_min [x; Z2float r]) = Some i /\ i <= r.
Proof.
  intros Hr.
  assert (HR : float2Z (Z2float r) = Some r) by (apply float2Z_Z2float; lia).
  pose proof (float2Z_finite _ _ HR) as HRf.
  pose proof (finite_or_zero_not_nan _ HRf) as HRn.
  unfold Math_min. cbn [Math_min_from].
  destruct (is_nan x) eqn:Hnan; [left; reflexivity|].
  change (is_pos_zero infinity) with false. rewrite andb_false_r.
  rewrite (Prim2SF_not_nan _ HRn).
  destruct (x <? infinity)%float.
  - destruct (is_neg_zero (Z2float r) && is_pos_zero x);
      [right; exists r; split; [exact HR|lia]|].
    destruct (Z2float r <? x)%float eqn:Hlt;
      [right; exists r; split; [exact HR|lia]|].
    destruct (float2Z x) as [i|] eqn:Hx; [|left; reflexivity].
    right. exists i. split; [reflexivity|].
    pose proof (float2Z_finite _ _ Hx) as Hxf.
    rewrite ltb_ord in Hlt by (assumption || now apply finite_or_zero_not_nan).
    rewrite (float2Z_ord _ _ Hx), (float2Z_ord _ _ HR) in Hlt.
    apply Z.ltb_ge in Hlt.
    assert (0 < 2 ^ 1074) by (apply Z.pow_pos_nonneg; lia). nia.
  - change (is_pos_zero infinity) with false. rewrite andb_false_r.
    rewrite (finite_lt_infinity _ HRf).
    right. exists r. split; [exact HR|lia].
Qed.

(** [binCounts[binIndex]++] with an index that is not past the end keeps
    the array's length and its counts, and counts at most once. *)
Lemma increment_at_shape (binIndex : float) (binCounts : list (option count)) :
  all_counts binCounts ->
  (float2Z binIndex = None \/
   exists i, float2Z binIndex = Some i /\ i < Z.of_nat (length binCounts)) ->
  all_counts (increment_at binIndex binCounts) /\
  length (increment_at binIndex binCounts) = length binCounts /\
  cells_total binCounts <= cells_total (increment_at binIndex binCounts)
  <= cells_total binCounts + 1.
Proof.
  intros Hall [Hnone|(i & Hi & Hlt)].
  - unfold increment_at. rewrite Hnone. split; [assumption|]. split; [reflexivity|lia].
  - destruct (Z.le_gt_cases 0 i) as [H0|Hneg].
    + destruct (increment_at_counted binIndex binCounts i Hi ltac:(lia) Hall)
        as (Ha & Hl & Ht).
      split; [exact Ha|]. split; [exact Hl|lia].
    + unfold increment_at. rewrite Hi.
      destruct (Z.leb_spec 0 i); [lia|]. cbn [andb].
      destruct (Z.leb_spec (Z.of_nat (length binCounts)) i); [lia|]. cbn [andb].
      split; [assumption|]. split; [reflexivity|lia].
Qed.

Lemma forEach_shape (index : float -> float) (k : nat)
    (specifications : list float) :
  (forall spec, float2Z (index spec) = None \/
                exists i, float2Z (index spec) = Some i /\ i < Z.of_nat k) ->
  forall binCounts,
    all_counts binCounts -> length binCounts = k ->
    let result :=
      fold_left (fun binCounts spec => increment_at (index spec) binCounts)
        specifications binCounts in
    all_counts result /\ length result = k /\
    cells_total binCounts <= cells_total result
    <= cells_total binCounts + Z.of_nat (length specifications).
Proof.
  intros Hindex.
  induction specifications as [|spec rest IH]; intros binCounts Hall Hlen.
  - cbv zeta. cbn [fold_left length].
    split; [assumption|]. split; [assumption|]. change (Z.of_nat 0) with 0. lia.
  - cbv zeta. cbn [fold_left length].
    destruct (increment_at_shape (index spec) binCounts Hall
                ltac:(rewrite Hlen; apply Hindex)) as (Ha & Hl & Ht).
    destruct (IH (increment_at (index spec) binCounts) Ha ltac:(lia))
      as (Ha' & Hl' & Ht').
    cbv zeta in Ht'.
    split; [exact Ha'|]. split; [exact Hl'|]. lia.
Qed.

(** X12: for every sequence of measurements, NaN and the infinities
    included, [calculateDistributionData] returns without an exception;
    [numberOfBins] is exactly the integer [ceil(sqrt(n))] (the rounding of
    the square root never moves it across an integer); the series has
    exactly that many bins, each with a count (no hole, no NaN count); and
    the counts add up to at most [n]: the clamp keeps every index inside
    the array and no measurement is counted twice. *)
Theorem histogram_shape (specifications : list float) :
  let n := Z.of_nat (length specifications) in
  n < 2 ^ 32 ->
  exists distributionData k,
    calculateDistributionData specifications = Normal distributionData /\
    numberOfBins distributionData = Z2float k /\
    0 <= k /\ n <= k * k /\ (0 < n -> (k - 1) * (k - 1) < n) /\
    Z.of_nat (length (distributionData_data distributionData)) = k /\
    Forall (fun b => exists x c, b = Some (Bin.make x (Count c)))
      (distributionData_data distributionData) /\
    0 <= total_count (distributionData_data distributionData) <= n.
Proof.
  intros n Hlen.
  destruct (ceil_sqrt_exact n ltac:(lia)) as (k & Hk & Hk16 & Hup & Hlow).
  destruct specifications as [|spec0 rest].
  { exists {| distributionData_data := []; numberOfBins := 0 |}, 0.
    split; [reflexivity|]. split; [reflexivity|]. cbn. repeat split; try lia.
    constructor. }
  set (specifications := spec0 :: rest) in *.
  assert (Hn : 0 < n) by (subst n specifications; cbn [length]; lia).
  destruct (Hlow Hn) as [Hk1 Hlow'].
  assert (H53 : 2 ^ 16 < 2 ^ 53) by (apply Z.pow_lt_mono_r; lia).
  assert (Hfk : float2Z (Z2float k) = Some k) by (apply float2Z_Z2float; lia).
  fold n in Hk.
  set (binWidth :=
         ((Math_max specifications - Math_min specifications) / Z2float k)%float).
  set (index := fun spec : float =>
         Math_min [ Math_floor ((spec - Math_min specifications) / binWidth)%float;
                    (Z2float k - 1)%float ]).
  assert (Hindex : forall spec,
             float2Z (index spec) = None \/
             exists i, float2Z (index spec) = Some i /\ i < Z.of_nat (Z.to_nat k)).
  { intros spec. subst index. cbv beta.
    rewrite Z2float_sub_one by lia. rewrite Z2Nat.id by lia.
    destruct (clamp_index
                (Math_floor ((spec - Math_min specifications) / binWidth)%float)
                (k - 1) ltac:(lia)) as [H|(i & Hi & Hle)];
      [left; exact H|right; exists i; split; [exact Hi|lia]]. }
  destruct (repeat_counts (Z.to_nat k)) as (Hrep & Hrep0).
  destruct (forEach_shape index (Z.to_nat k) specifications Hindex
              (repeat (Some (Count 0)) (Z.to_nat k)) Hrep (repeat_length _ _))
    as (Hc & Hl & Ht).
  cbv zeta in Ht.
  unfold calculateDistributionData. fold n. rewrite Hk.
  unfold new_Array_fill0. rewrite Hfk.
  destruct (Z.leb_spec 0 k); [|lia].
  destruct (Z.ltb_spec k (2 ^ 32)); [|lia].
  cbn [andb bind]. fold binWidth. fold index.
  eexists _, k. split; [reflexivity|].
  cbn [numberOfBins distributionData_data].
  set (binCounts := fold_left _ specifications _) in *.
  destruct (mapi_from_counts
              (fun i => (Math_min specifications + Z2float i * binWidth
                         + binWidth / 2)%float) binCounts Hc 0)
    as (Hm1 & Hm2 & Hm3).
  split; [reflexivity|]. split; [lia|]. split; [exact Hup|].
  split; [intros _; exact Hlow'|].
  split; [rewrite Hm2, Hl; lia|].
  split; [exact Hm1|].
  rewrite Hm3. fold n in Ht. lia.
Qed.

Lemma histogram_shape_witness :
  exists distributionData,
    calculateDistributionData [10; nan; 11; infinity; 9]%float
      = Normal distributionData /\
    numberOfBins distributionData = 3%float /\
    length (distributionData_data distributionData) = 3%nat.
Proof.
  destruct (histogram_shape [10; nan; 11; infinity; 9]%float)
    as (dd & k & Hdd & Hk & Hk0 & Hup & Hlow & Hlen & _).
  - cbn. lia.
  - exists dd. split; [exact Hdd|].
    cbn [length] in Hup, Hlow. specialize (Hlow ltac:(lia)).
    assert (E : k = 3) by nia. rewrite E in Hk, Hlen.
    split; [exact Hk|]. lia.
Defined.

(** ** The histogram of equal measurements *)

Lemma zero_signs_exclusive (x y : float) :
  x = y -> is_neg_zero x && is_pos_zero y = false.
Proof.
  intros <-. unfold is_neg_zero, is_pos_zero.
  destruct (is_zero x), (get_sign x); reflexivity.
Qed.

Lemma ltb_irrefl (x : float) : (x <? x)%float = false.
Proof.
  rewrite ltb_spec. unfold SFltb.
  pose proof (Prim2SF_valid x) as Hv.
  destruct (Prim2SF x) as [s|s| |s m e] eqn:E; try reflexivity.
  - destruct s; reflexivity.
  - rewrite SFcompare_ord by (assumption || discriminate).
    now rewrite Z.compare_refl.
Qed.

(** [Math.min] and [Math.max] of copies of one finite number. *)
Lemma Math_min_max_repeat (v : float) (n : nat) :
  is_finite v = true -> n <> O ->
  Math_min (repeat v n) = v /\ Math_max (repeat v n) = v.
Proof.
  intros Hv Hn. destruct n as [|n]; [congruence|]. clear Hn. cbn [repeat].
  pose proof (finite_Prim2SF _ Hv) as Hf.
  pose proof (Prim2SF_not_nan _ (finite_or_zero_not_nan _ Hf)) as Hnan.
  split.
  - unfold Math_min. cbn [Math_min_from]. rewrite Hnan.
    change (is_pos_zero infinity) with false. rewrite andb_false_r.
    rewrite (finite_lt_infinity _ Hf).
    induction n as [|n IH]; [reflexivity|]. cbn [repeat Math_min_from].
    rewrite Hnan, (zero_signs_exclusive v v eq_refl), ltb_irrefl. exact IH.
  - unfold Math_max. cbn [Math_max_from]. rewrite Hnan.
    change (is_neg_zero neg_infinity) with false. rewrite andb_false_r.
    rewrite (ltb_ord neg_infinity v) by (discriminate || now apply finite_or_zero_not_nan).
    pose proof (finite_ord_bound _ Hf).
    change (ord (Prim2SF neg_infinity)) with (- 2 ^ 2100).
    destruct (Z.ltb_spec (- 2 ^ 2100) (ord (Prim2SF v))); [|lia].
    induction n as [|n IH]; [reflexivity|]. cbn [repeat Math_max_from].
    rewrite Hnan. rewrite andb_comm, (zero_signs_exclusive v v eq_refl), ltb_irrefl.
    exact IH.
Qed.

Lemma forEach_nan (binCounts : list (option count)) (specifications : list float)
    (index : float -> float) :
  (forall spec, In spec specifications -> index spec = nan) ->
  fold_left (fun binCounts spec => increment_at (index spec) binCounts)
    specifications binCounts = binCounts.
Proof.
  revert binCounts. induction specifications as [|spec rest IH];
    intros binCounts H; [reflexivity|].
  cbn [fold_left]. rewrite (H spec (or_introl eq_refl)).
  change (increment_at nan binCounts) with binCounts.
  apply IH. intros s Hs. apply H. now right.
Qed.

Lemma mapi_from_zero_counts (f : Z -> float) (k : nat) :
  forall i,
    Forall (fun b => exists x, b = Some (Bin.make x (Count 0)))
      (mapi_from i (fun count j => Bin.make (f j) count)
         (repeat (Some (Count 0)) k)).
Proof.
  induction k as [|k IH]; intros i; cbn [repeat mapi_from option_map];
    constructor; eauto.
Qed.

(** X13: when all measurements are one and the same finite number, however
    many there are, the histogram is returned with every bin empty: the bin
    width is 0, every bin index is [0 / 0 = NaN], and no measurement is
    counted. *)
Theorem histogram_of_equal_measurements (v : float) (n : nat) :
  is_finite v = true -> n <> O -> Z.of_nat n < 2 ^ 32 ->
  exists distributionData,
    calculateDistributionData (repeat v n) = Normal distributionData /\
    distributionData_data distributionData <> [] /\
    Forall (fun b => exists x, b = Some (Bin.make x (Count 0)))
      (distributionData_data distributionData) /\
    total_count (distributionData_data distributionData) = 0.
Proof.
  intros Hv Hn Hlen.
  destruct (ceil_sqrt_exact (Z.of_nat n) ltac:(lia)) as (k & Hk & Hk16 & _ & Hlow).
  destruct (Hlow ltac:(lia)) as [Hk1 _].
  assert (H53 : 2 ^ 16 < 2 ^ 53) by (apply Z.pow_lt_mono_r; lia).
  assert (Hfk : float2Z (Z2float k) = Some k) by (apply float2Z_Z2float; lia).
  destruct (Math_min_max_repeat v n Hv Hn) as [Hmin Hmax].
  destruct (repeat_counts (Z.to_nat k)) as (Hrep & Hrep0).
  unfold calculateDistributionData. rewrite repeat_length, Hk, Hmin, Hmax.
  unfold new_Array_fill0. rewrite Hfk.
  destruct (Z.leb_spec 0 k); [|lia].
  destruct (Z.ltb_spec k (2 ^ 32)); [|lia].
  cbn [andb bind].
  rewrite (sub_diag_finite v Hv), (zero_div_Z2float k ltac:(lia)).
  rewrite forEach_nan.
  2:{ intros spec Hin. apply repeat_spec in Hin. subst spec.
      rewrite (sub_diag_finite v Hv). reflexivity. }
  eexists. split; [reflexivity|]. cbn [distributionData_data].
  destruct (mapi_from_counts
              (fun i => (v + Z2float i * zero + zero / 2)%float)
              (repeat (Some (Count 0)) (Z.to_nat k)) Hrep 0)
    as (_ & Hm2 & Hm3).
  split; [|split].
  - intros E. apply (f_equal (@length _)) in E. rewrite Hm2, repeat_length in E.
    cbn [length] in E. lia.
  - apply mapi_from_zero_counts.
  - rewrite Hm3. exact Hrep0.
Qed.

Lemma histogram_of_equal_measurements_witness :
  exists distributionData,
    calculateDistributionData [10; 10; 10; 10; 10]%float
      = Normal distributionData /\
    total_count (distributionData_data distributionData) = 0.
Proof.
  destruct (histogram_of_equal_measurements 10%float 5)
    as (dd & Hdd & _ & _ & Ht).
  - reflexivity.
  - discriminate.
  - cbn. lia.
  - exists dd. split; [exact Hdd|exact Ht].
Defined.

(** ** Numbers that are never negative *)

Lemma SFadd_nonneg (x y : spec_float) :
  nonneg x -> nonneg y -> nonneg (SFadd prec emax x y).
Proof.
  destruct x as [sx|[|]| |[|] mx ex]; try contradiction;
    destruct y as [sy|[|]| |[|] my ey]; try contradiction; intros _ _;
    try exact I; try (destruct sx, sy; exact I).
  cbn [SFadd cond_Zopp]. apply binary_normalize_nonneg. lia.
Qed.

Lemma SFmul_nonneg_l (mx : positive) (ex : Z) (y : spec_float) :
  nonneg y -> nonneg (SFmul prec emax (S754_finite false mx ex) y).
Proof.
  destruct y as [s|[|]| |[|] my ey]; try contradiction; intros _; cbn [SFmul xorb].
  - exact I.
  - exact I.
  - apply binary_round_aux_nonneg. lia.
Qed.

Lemma binary_round_nonneg (m : positive) (e : Z) :
  nonneg (binary_round prec emax false m e).
Proof.
  unfold binary_round. destruct (shl_align _ _ _) as [mz ez].
  apply binary_round_aux_nonneg. lia.
Qed.

(** The number [SF2Prim] makes of a value that is not negative. *)
Lemma SF2Prim_nonneg (y : spec_float) :
  nonneg y -> nonneg (Prim2SF (SF2Prim y)).
Proof.
  destruct y as [s|[|]| |[|] m e]; try contradiction; intros _.
  - destruct s; exact I.
  - exact I.
  - cbn [SF2Prim]. unfold Z.ldexp. rewrite ldshiftexp_spec, of_uint63_spec.
    pose proof (Uint63.to_Z_bounded (Uint63.of_Z (Z.pos m))) as Hb.
    pose proof (binary_normalize_nonneg (Uint63.to_Z (Uint63.of_Z (Z.pos m))) 0
                  ltac:(lia)) as Hn.
    destruct (binary_normalize prec emax _ 0 false) as [s|[|]| |[|] m' e'];
      try contradiction; try exact I.
    cbn [SFldexp]. apply binary_round_nonneg.
Qed.

(** Rounding to four decimals keeps a number that is not negative so. *)
Lemma toFixed4_nonneg (x : float) :
  nonneg (Prim2SF x) -> nonneg (Prim2SF (toFixed4 x)).
Proof.
  intros H. unfold toFixed4.
  destruct (Prim2SF x) as [s|[|]| |[|] m e] eqn:Ex; try contradiction.
  - exact I.
  - rewrite Ex. exact I.
  - destruct (1e21 <=? abs x)%float; [rewrite Ex; exact I|].
    cbv zeta.
    destruct (if 0 <=? e then _ else _) as [|p|p]; try exact I.
    unfold nearest_ratio. apply SF2Prim_nonneg. apply SFdiv_nonneg. exact I.
Qed.

Lemma nonneg_leb (x : float) :
  nonneg (Prim2SF x) -> (0 <=? x)%float = true.
Proof.
  intros H. rewrite leb_ord; [|discriminate|now apply nonneg_not_nan].
  pose proof (nonneg_ord _ (Prim2SF_valid x) H).
  change (ord (Prim2SF 0%float)) with 0. apply Z.leb_le. lia.
Qed.

(** The range of a window of finite measurements. *)
Lemma statistics_range_nonneg (size : Z) (w : list float) :
  w <> [] -> Forall (fun v => is_finite v = true) w ->
  nonneg (Prim2SF (range (statistics size w))).
Proof.
  intros Hne Hfin. cbn [statistics range]. rewrite sub_spec.
  destruct (Math_min_lower w Hne Hfin) as [Hminf Hmin].
  destruct (Math_max_upper w Hne Hfin) as [Hmaxf Hmax].
  apply SFsub_nonneg; try apply Prim2SF_valid; try apply finite_Prim2SF;
    try assumption.
  destruct w as [|v w']; [congruence|].
  inversion Hmin; inversion Hmax; subst. lia.
Qed.

Lemma running_sum_nonneg (subgroups : list Subgroup) :
  Forall (fun sg => nonneg (Prim2SF (range sg))) subgroups ->
  forall acc, nonneg (Prim2SF acc) ->
    nonneg (Prim2SF (fold_left (fun a b => (a + range b)%float) subgroups acc)).
Proof.
  induction 1 as [|sg l Hsg _ IH]; intros acc Hacc; [exact Hacc|].
  cbn [fold_left]. apply IH. rewrite add_spec. now apply SFadd_nonneg.
Qed.

Lemma average_range_nonneg (subgroups : list Subgroup) :
  subgroups <> [] -> Z.of_nat (length subgroups) < 2 ^ 53 ->
  Forall (fun sg => nonneg (Prim2SF (range sg))) subgroups ->
  nonneg (Prim2SF (average range subgroups)).
Proof.
  intros Hne Hlen Hall. unfold average. rewrite div_spec.
  destruct (Z.of_nat (length subgroups)) as [|p|p] eqn:E;
    [destruct subgroups; [congruence|discriminate]| |lia].
  destruct (Prim2SF_Z2float_small p Hlen) as (m & -> & _).
  apply SFdiv_nonneg. apply running_sum_nonneg; [exact Hall|exact I].
Qed.

Lemma stdDev_of_nonneg (sampleSize : Z) (rangeMean : float) :
  1 <= sampleSize <= 5 -> nonneg (Prim2SF rangeMean) ->
  nonneg (Prim2SF (stdDev_of sampleSize rangeMean)).
Proof.
  intros Hs H. unfold stdDev_of. rewrite div_spec.
  assert (Hd : exists m e,
             Prim2SF (if sampleSize =? 1 then 1.128%float
                      else Math_sqrt (Z2float sampleSize))
             = S754_finite false m e).
  { assert (Hc : sampleSize = 1 \/ sampleSize = 2 \/ sampleSize = 3 \/
                 sampleSize = 4 \/ sampleSize = 5) by lia.
    destruct Hc as [->|[->|[->|[->| ->]]]]; vm_compute; eauto. }
  destruct Hd as (m & e & ->). now apply SFdiv_nonneg.
Qed.

Lemma window_finite (data : list float) (n k : nat) :
  Forall (fun v => is_finite v = true) data ->
  Forall (fun v => is_finite v = true) (window data n k).
Proof.
  intros H. unfold window. rewrite Forall_forall in *. intros v Hv.
  apply H. rewrite <- (firstn_skipn (k * n) data). apply in_or_app. right.
  rewrite <- (firstn_skipn n (skipn (k * n) data)). apply in_or_app. left.
  exact Hv.
Qed.

(** X14: for a sample size in 1..5, finite measurements and at least one
    complete subgroup, no measure of dispersion is negative or NaN: every
    plotted range, the range average, the upper range limit, the moving
    range and both standard deviations of the metrics satisfy [0 <= x]
    (plus infinity is possible on overflow). *)
Theorem dispersion_never_negative (fuel : nat) (selectedShifts : list Z)
    (sampleSize : Z) (inspectionData : list InspectionData) :
  let measurements :=
    map ActualSpecification (filteredData selectedShifts inspectionData) in
  1 <= sampleSize <= 5 ->
  sampleSize <= Z.of_nat (length measurements) < 2 ^ 32 ->
  forallb is_finite measurements = true ->
  (length measurements <= fuel)%nat ->
  exists analysis,
    handleAnalyze_try fuel selectedShifts sampleSize inspectionData
      = SetAnalysisData analysis /\
    Forall (fun pt => (0 <=? Point.y pt)%float = true)
      (rangeData (controlCharts analysis)) /\
    (0 <=? rangeMean (limits (controlCharts analysis)))%float = true /\
    (0 <=? rangeUcl (limits (controlCharts analysis)))%float = true /\
    (0 <=? movingRange (metrics analysis))%float = true /\
    (0 <=? stdDevWithin (metrics analysis))%float = true /\
    (0 <=? stdDevOverall (metrics analysis))%float = true.
Proof.
  intros measurements Hsize Hlen Hfin Hfuel.
  set (records := filteredData selectedShifts inspectionData) in *.
  assert (Hrec : length records = length measurements)
    by (subst measurements; now rewrite length_map).
  destruct (analyze_normal fuel sampleSize records Hsize)
    as (subgroups & c & d0 & dd & Hsg & Hc & _ & _ & Han);
    [intros E; rewrite E in Hrec; cbn in Hrec; lia|lia|lia|].
  fold measurements in Hsg.
  rewrite calculateSubgroups_windows in Hsg by lia.
  injection Hsg as Hsg.
  set (n := Z.to_nat sampleSize) in *.
  assert (Hn : n <> O) by (subst n; lia).
  assert (Hall : Forall (fun v => is_finite v = true) measurements).
  { apply Forall_forall. rewrite forallb_forall in Hfin. exact Hfin. }
  assert (Hranges : Forall (fun sg => nonneg (Prim2SF (range sg))) subgroups).
  { rewrite <- Hsg. apply Forall_map. apply Forall_forall. intros k Hk.
    apply in_seq in Hk.
    apply statistics_range_nonneg; [|now apply window_finite].
    intros E. apply (f_equal (@length float)) in E.
    unfold window in E. rewrite length_firstn, length_skipn in E. cbn [length] in E.
    assert (S k * n <= length measurements)%nat.
    { apply Nat.le_trans with (length measurements / n * n)%nat.
      - apply Nat.mul_le_mono_r. lia.
      - rewrite Nat.mul_comm. apply Nat.Div0.mul_div_le. }
    cbn [Nat.mul] in H. lia. }
  assert (Hcount : (length subgroups = length measurements / n)%nat)
    by (rewrite <- Hsg, length_map, length_seq; reflexivity).
  assert (Hpos : (0 < length measurements / n)%nat).
  { apply Nat.div_str_pos. subst n. lia. }
  assert (Hsub : subgroups <> [])
    by (intros E; rewrite E in Hcount; cbn in Hcount; lia).
  assert (Hsublen : Z.of_nat (length subgroups) < 2 ^ 53).
  { assert (2 ^ 32 < 2 ^ 53) by reflexivity.
    assert (length measurements / n <= length measurements)%nat
      by (apply Nat.Div0.div_le_upper_bound; nia).
    lia. }
  pose proof (average_range_nonneg subgroups Hsub Hsublen Hranges) as Hmean.
  eexists. unfold handleAnalyze_try. fold records. rewrite Han.
  split; [reflexivity|].
  cbn [controlCharts rangeData limits metrics capabilityMetrics controlLimits
       rangeMean rangeUcl movingRange stdDevWithin stdDevOverall].
  split.
  { rewrite Forall_forall. intros pt Hpt.
    apply (in_map Point.y) in Hpt. rewrite map_y_chartData_from in Hpt.
    apply in_map_iff in Hpt as (sg & <- & Hin).
    rewrite Forall_forall in Hranges. apply nonneg_leb, Hranges, Hin. }
  assert (Hstd : nonneg (Prim2SF (stdDev_of sampleSize (average range subgroups))))
    by (apply stdDev_of_nonneg; assumption).
  repeat split; apply nonneg_leb, toFixed4_nonneg; try assumption.
  rewrite mul_spec.
  assert (HD4 : exists m e, Prim2SF (D4 c) = S754_finite false m e).
  { assert (Hcs : sampleSize = 1 \/ sampleSize = 2 \/ sampleSize = 3 \/
                  sampleSize = 4 \/ sampleSize = 5) by lia.
    destruct Hcs as [->|[->|[->|[->| ->]]]]; injection Hc as <-;
      vm_compute; eauto. }
  destruct HD4 as (m & e & ->). now apply SFmul_nonneg_l.
Qed.

Lemma dispersion_never_negative_witness :
  exists analysis,
    handleAnalyze_try 4 [1] 2 (inspections 1 5 15 [10; 12; 11; 13]%float)
      = SetAnalysisData analysis /\
    (0 <=? rangeUcl (limits (controlCharts analysis)))%float = true /\
    (0 <=? stdDevWithin (metrics analysis))%float = true.
Proof.
  destruct (dispersion_never_negative 4 [1] 2
              (inspections 1 5 15 [10; 12; 11; 13]%float))
    as (analysis & Han & _ & _ & Hucl & _ & Hstd & _).
  - lia.
  - cbn. lia.
  - reflexivity.
  - cbn. lia.
  - exists analysis. split; [exact Han|]. split; [exact Hucl|exact Hstd].
Defined.

(** ** What the analysis reads *)

(** X15: the analysis depends on the fetched records only through the
    measurements of the selected shifts, in order, and the two
    specification limits of the first of those records: the limits of
    every later record and all records of other shifts have no effect. *)
Theorem analysis_reads_first_limits (fuel : nat) (selectedShifts : list Z)
    (sampleSize : Z) (inspectionData inspectionData' : list InspectionData) :
  let records := filteredData selectedShifts inspectionData in
  let records' := filteredData selectedShifts inspectionData' in
  map ActualSpecification records = map ActualSpecification records' ->
  option_map ToSpecification (hd_error records)
    = option_map ToSpecification (hd_error records') ->
  option_map FromSpecification (hd_error records)
    = option_map FromSpecification (hd_error records') ->
  handleAnalyze_try fuel selectedShifts sampleSize inspectionData
  = handleAnalyze_try fuel selectedShifts sampleSize inspectionData'.
Proof.
  intros records records' Hm Hu Hl.
  unfold handleAnalyze_try, analyze. fold records records'. rewrite Hm.
  destruct (calculateSubgroups fuel _ sampleSize) as [subgroups|]; [|reflexivity].
  destruct (constants sampleSize) as [c|]; [|reflexivity].
  cbn [bind].
  destruct records as [|d0 rest], records' as [|d0' rest'];
    try discriminate; [reflexivity|].
  cbn [hd_error option_map first_record bind] in *.
  injection Hu as Hu. injection Hl as Hl. rewrite Hu, Hl. reflexivity.
Qed.

Lemma analysis_reads_first_limits_witness :
  handleAnalyze_try 4 [1] 2
    [ {| ActualSpecification := 10; FromSpecification := 5;
         ToSpecification := 15; ShiftCode := 1 |};
      {| ActualSpecification := 12; FromSpecification := 0;
         ToSpecification := 100; ShiftCode := 1 |};
      {| ActualSpecification := 50; FromSpecification := 1;
         ToSpecification := 2; ShiftCode := 2 |} ]%float
  = handleAnalyze_try 4 [1] 2 (inspections 1 5 15 [10; 12]%float).
Proof.
  apply analysis_reads_first_limits; reflexivity.
Defined.

(** ** Names in the report *)

Lemma find_none_iff {A : Type} (f : A -> bool) (l : list A) :
  find f l = None <-> forall x, In x l -> f x = false.
Proof.
  split; [apply find_none|].
  induction l as [|a l IH]; intros H; [reflexivity|]. cbn [find].
  rewrite (H a (or_introl eq_refl)). apply IH. intros x Hx. apply H. now right.
Qed.

(** X16: the name the report writes for a selected code: the code itself
    when no entry of the list has it; the name of the entry when the codes
    of the list are distinct and the name is not empty; and never the empty
    string when a code is selected. *)
Theorem nameOrCode_lookup {A : Type} (code name : A -> string)
    (list : list A) (selected : string) :
  ((forall x, In x list -> code x <> selected) ->
   nameOrCode code name list selected = selected) /\
  (forall x, In x list -> NoDup (map code list) -> name x <> EmptyString ->
             nameOrCode code name list (code x) = name x) /\
  (selected <> EmptyString -> nameOrCode code name list selected <> EmptyString).
Proof.
  unfold nameOrCode. split; [|split].
  - intros H.
    replace (find _ list) with (@None A); [reflexivity|].
    symmetry. apply find_none_iff. intros x Hx. apply String.eqb_neq. now apply H.
  - intros x Hin Hnd Hname.
    assert (Hf : find (fun y => (code y =? code x)%string) list = Some x).
    { induction list as [|a l IH]; [contradiction|].
      cbn [map] in Hnd. inversion Hnd as [|? ? Hnotin Hnd']; subst.
      cbn [find]. destruct Hin as [->|Hin].
      - now rewrite String.eqb_refl.
      - destruct (String.eqb_spec (code a) (code x)) as [E|_].
        + exfalso. apply Hnotin. rewrite E. now apply in_map.
        + now apply IH. }
    rewrite Hf. destruct (String.eqb_spec (name x) EmptyString); congruence.
  - intros Hsel.
    destruct (find _ list) as [x|]; [|exact Hsel].
    destruct (String.eqb_spec (name x) EmptyString); assumption.
Qed.

Lemma nameOrCode_lookup_witness :
  materialLabel
    [ {| MaterialCode := "M1"; MaterialName := "Shaft" |};
      {| MaterialCode := "M2"; MaterialName := "Gear" |} ] "M2"
  = "Gear"%string.
Proof.
  refine (proj1 (proj2 (nameOrCode_lookup MaterialCode MaterialName
            [ {| MaterialCode := "M1"; MaterialName := "Shaft" |};
              {| MaterialCode := "M2"; MaterialName := "Gear" |} ] "M2"))
            {| MaterialCode := "M2"; MaterialName := "Gear" |} _ _ _).
  - right. left. reflexivity.
  - repeat constructor; cbn; intuition discriminate.
  - discriminate.
Defined.

(** ** The two tables of constants *)

(** X17: for every sample size of the analysis table the constants the
    [ControlCharts] component takes from its own table agree with those
    the limits were computed with in [A2], [D3] and [D4]; its [d2] is the
    divisor of the standard deviation estimate only for sample size 1. *)
Theorem chart_constants_agree (sampleSize : Z) (c : Constants) :
  constants sampleSize = Some c ->
  let shown := ControlCharts.current sampleSize in
  let divisor :=
    if (sampleSize =? 1)%Z then 1.128%float else Math_sqrt (Z2float sampleSize) in
  ControlCharts.A2 shown = A2 c /\
  ControlCharts.D3 shown = D3 c /\
  ControlCharts.D4 shown = D4 c /\
  (ControlCharts.d2 shown = divisor <-> sampleSize = 1).
Proof.
  intros Hc.
  assert (Hcs : sampleSize = 1 \/ sampleSize = 2 \/ sampleSize = 3 \/
                sampleSize = 4 \/ sampleSize = 5).
  { destruct (Z_le_dec 1 sampleSize); [destruct (Z_le_dec sampleSize 5)|];
      try lia; rewrite constants_undefined in Hc by lia; discriminate. }
  destruct Hcs as [->|[->|[->|[->| ->]]]]; injection Hc as <-; cbv zeta;
    (split; [reflexivity|]); (split; [reflexivity|]); (split; [reflexivity|]);
    (split; [|intros; try reflexivity; lia]); intros H;
    try reflexivity; exfalso; revert H; apply float_neq; vm_compute; reflexivity.
Qed.

Lemma chart_constants_agree_witness :
  ControlCharts.A2 (ControlCharts.current 3) = 0.729%float.
Proof.
  exact (proj1 (chart_constants_agree 3 {| A2 := 0.729; D3 := 0; D4 := 2.575 |}
                  eq_refl)).
Defined.
